(** * beets-originquery: the origin-file comparison plugin, embedded in Rocq

    Source: [src/beetsplug/originquery.py].

    A Python string that holds data (a line or a value of the origin
    document, a tag, a message) is modelled by [str], the list of its code
    points; the string methods that consult the Unicode character database
    ([strip], [upper], [isdigit], [int], [repr]) read the tables of the
    section "Unicode data" (Unicode 14.0.0, the version of CPython 3.11).
    The names of fields, configuration values and file names are kept as
    [string]s.  Python values that are not text are the constructors of
    [PyVal].  A track record ([beets] item) is a finite map from field names
    to values. *)

From Stdlib Require Import ZArith NArith Bool List Ascii String DecimalString Lia.
From Stdlib Require DecimalPos.
From stdpp Require Import base option gmap strings fin_maps.

Local Open Scope string_scope.
Local Open Scope list_scope.
Set Warnings "-register-all".

Import ListNotations.

(** ** Names: ASCII characters and strings

    What the plugin does with the names of files and of option values:
    [lower], slicing, comparison.  On a name read as UTF-8 bytes only the
    ASCII letters are touched here; no other character lower-cases to a
    letter of [json], [yaml] or [text]. *)

Definition code (c : ascii) : nat := nat_of_ascii c.

Definition in_range (lo hi : nat) (c : ascii) : bool :=
  Nat.leb lo (code c) && Nat.leb (code c) hi.

Definition is_upper (c : ascii) : bool := in_range 65 90 c.

Definition lower_char (c : ascii) : ascii :=
  if is_upper c then ascii_of_nat (code c + 32) else c.

Fixpoint map_string (f : ascii -> ascii) (s : string) : string :=
  match s with
  | EmptyString => EmptyString
  | String c s' => String (f c) (map_string f s')
  end.

(** [s.lower()] on a name. *)
Definition lower (s : string) : string := map_string lower_char s.

Fixpoint has_char (c : ascii) (s : string) : bool :=
  match s with
  | EmptyString => false
  | String d s' => Ascii.eqb d c || has_char c s'
  end.

Fixpoint all_ascii (p : ascii -> bool) (s : string) : bool :=
  match s with
  | EmptyString => true
  | String c s' => p c && all_ascii p s'
  end.

(** The components of a name between separators. *)
Fixpoint split_string (sep : ascii -> bool) (s : string) : list string :=
  match s with
  | EmptyString => [EmptyString]
  | String c s' =>
      if sep c then EmptyString :: split_string sep s'
      else match split_string sep s' with
           | seg :: rest => String c seg :: rest
           | [] => [String c EmptyString]
           end
  end.

(** [x in l] for a list of names. *)
Definition str_in (x : string) (l : list string) : bool :=
  existsb (String.eqb x) l.

(** ** Text: lists of code points *)

Abbreviation str := (list N).

(** The text of an ASCII literal.  A literal written where text is expected
    stands for its code points. *)
Definition text (s : string) : str :=
  map N_of_ascii (list_ascii_of_string s).

Coercion text : string >-> list.

Fixpoint str_eqb (a b : str) : bool :=
  match a, b with
  | [], [] => true
  | c :: a', d :: b' => N.eqb c d && str_eqb a' b'
  | _, _ => false
  end.

(** Truth value of a Python string: non-empty. *)
Definition nonempty (s : str) : bool :=
  match s with [] => false | _ :: _ => true end.

Definition in_ranges (ranges : list (N * N)) (c : N) : bool :=
  existsb (fun r => N.leb (fst r) c && N.leb c (snd r)) ranges.

(** ** Unicode data

    Taken from the character database of Unicode 14.0.0. *)

(** The characters that [str.isspace] accepts, and that [str.strip] removes,
    as inclusive ranges of code points. *)
Definition WHITESPACE : list (N * N) :=
  [
    (9, 13); (28, 32); (133, 133); (160, 160); (5760, 5760); (8192, 8202);
    (8232, 8233); (8239, 8239); (8287, 8287); (12288, 12288)
  ]%N.

(** The characters that [str.upper] maps to one other character, in runs
    [(first, last, step, upper_of_first)]: the characters [first],
    [first + step], ... up to [last] map to [upper_of_first],
    [upper_of_first + step], ... in that order. *)
Definition UPPER_RUNS : list (N * N * N * N) :=
  [
    (97, 122, 1, 65); (181, 181, 1, 924); (224, 246, 1, 192);
    (248, 254, 1, 216); (255, 255, 1, 376); (257, 303, 2, 256);
    (305, 305, 1, 73); (307, 311, 2, 306); (314, 328, 2, 313);
    (331, 375, 2, 330); (378, 382, 2, 377); (383, 383, 1, 83);
    (384, 384, 1, 579); (387, 389, 2, 386); (392, 392, 1, 391);
    (396, 396, 1, 395); (402, 402, 1, 401); (405, 405, 1, 502);
    (409, 409, 1, 408); (410, 410, 1, 573); (414, 414, 1, 544);
    (417, 421, 2, 416); (424, 424, 1, 423); (429, 429, 1, 428);
    (432, 432, 1, 431); (436, 438, 2, 435); (441, 441, 1, 440);
    (445, 445, 1, 444); (447, 447, 1, 503); (453, 453, 1, 452);
    (454, 454, 1, 452); (456, 456, 1, 455); (457, 457, 1, 455);
    (459, 459, 1, 458); (460, 460, 1, 458); (462, 476, 2, 461);
    (477, 477, 1, 398); (479, 495, 2, 478); (498, 498, 1, 497);
    (499, 499, 1, 497); (501, 501, 1, 500); (505, 543, 2, 504);
    (547, 563, 2, 546); (572, 572, 1, 571); (575, 576, 1, 11390);
    (578, 578, 1, 577); (583, 591, 2, 582); (592, 592, 1, 11375);
    (593, 593, 1, 11373); (594, 594, 1, 11376); (595, 595, 1, 385);
    (596, 596, 1, 390); (598, 599, 1, 393); (601, 601, 1, 399);
    (603, 603, 1, 400); (604, 604, 1, 42923); (608, 608, 1, 403);
    (609, 609, 1, 42924); (611, 611, 1, 404); (613, 613, 1, 42893);
    (614, 614, 1, 42922); (616, 616, 1, 407); (617, 617, 1, 406);
    (618, 618, 1, 42926); (619, 619, 1, 11362); (620, 620, 1, 42925);
    (623, 623, 1, 412); (625, 625, 1, 11374); (626, 626, 1, 413);
    (629, 629, 1, 415); (637, 637, 1, 11364); (640, 640, 1, 422);
    (642, 642, 1, 42949); (643, 643, 1, 425); (647, 647, 1, 42929);
    (648, 648, 1, 430); (649, 649, 1, 580); (650, 651, 1, 433);
    (652, 652, 1, 581); (658, 658, 1, 439); (669, 669, 1, 42930);
    (670, 670, 1, 42928); (837, 837, 1, 921); (881, 883, 2, 880);
    (887, 887, 1, 886); (891, 893, 1, 1021); (940, 940, 1, 902);
    (941, 943, 1, 904); (945, 961, 1, 913); (962, 962, 1, 931);
    (963, 971, 1, 931); (972, 972, 1, 908); (973, 974, 1, 910);
    (976, 976, 1, 914); (977, 977, 1, 920); (981, 981, 1, 934);
    (982, 982, 1, 928); (983, 983, 1, 975); (985, 1007, 2, 984);
    (1008, 1008, 1, 922); (1009, 1009, 1, 929); (1010, 1010, 1, 1017);
    (1011, 1011, 1, 895); (1013, 1013, 1, 917); (1016, 1016, 1, 1015);
    (1019, 1019, 1, 1018); (1072, 1103, 1, 1040); (1104, 1119, 1, 1024);
    (1121, 1153, 2, 1120); (1163, 1215, 2, 1162); (1218, 1230, 2, 1217);
    (1231, 1231, 1, 1216); (1233, 1327, 2, 1232); (1377, 1414, 1, 1329);
    (4304, 4346, 1, 7312); (4349, 4351, 1, 7357); (5112, 5117, 1, 5104);
    (7296, 7296, 1, 1042); (7297, 7297, 1, 1044); (7298, 7298, 1, 1054);
    (7299, 7300, 1, 1057); (7301, 7301, 1, 1058); (7302, 7302, 1, 1066);
    (7303, 7303, 1, 1122); (7304, 7304, 1, 42570); (7545, 7545, 1, 42877);
    (7549, 7549, 1, 11363); (7566, 7566, 1, 42950); (7681, 7829, 2, 7680);
    (7835, 7835, 1, 7776); (7841, 7935, 2, 7840); (7936, 7943, 1, 7944);
    (7952, 7957, 1, 7960); (7968, 7975, 1, 7976); (7984, 7991, 1, 7992);
    (8000, 8005, 1, 8008); (8017, 8023, 2, 8025); (8032, 8039, 1, 8040);
    (8048, 8049, 1, 8122); (8050, 8053, 1, 8136); (8054, 8055, 1, 8154);
    (8056, 8057, 1, 8184); (8058, 8059, 1, 8170); (8060, 8061, 1, 8186);
    (8112, 8113, 1, 8120); (8126, 8126, 1, 921); (8144, 8145, 1, 8152);
    (8160, 8161, 1, 8168); (8165, 8165, 1, 8172); (8526, 8526, 1, 8498);
    (8560, 8575, 1, 8544); (8580, 8580, 1, 8579); (9424, 9449, 1, 9398);
    (11312, 11359, 1, 11264); (11361, 11361, 1, 11360);
    (11365, 11365, 1, 570); (11366, 11366, 1, 574); (11368, 11372, 2, 11367);
    (11379, 11379, 1, 11378); (11382, 11382, 1, 11381);
    (11393, 11491, 2, 11392); (11500, 11502, 2, 11499);
    (11507, 11507, 1, 11506); (11520, 11557, 1, 4256);
    (11559, 11559, 1, 4295); (11565, 11565, 1, 4301);
    (42561, 42605, 2, 42560); (42625, 42651, 2, 42624);
    (42787, 42799, 2, 42786); (42803, 42863, 2, 42802);
    (42874, 42876, 2, 42873); (42879, 42887, 2, 42878);
    (42892, 42892, 1, 42891); (42897, 42899, 2, 42896);
    (42900, 42900, 1, 42948); (42903, 42921, 2, 42902);
    (42933, 42947, 2, 42932); (42952, 42954, 2, 42951);
    (42961, 42961, 1, 42960); (42967, 42969, 2, 42966);
    (42998, 42998, 1, 42997); (43859, 43859, 1, 42931);
    (43888, 43967, 1, 5024); (65345, 65370, 1, 65313);
    (66600, 66639, 1, 66560); (66776, 66811, 1, 66736);
    (66967, 67003, 2, 66928); (66968, 66976, 2, 66929);
    (66980, 66992, 2, 66941); (66996, 67000, 2, 66957);
    (67004, 67004, 1, 66965); (68800, 68850, 1, 68736);
    (71872, 71903, 1, 71840); (93792, 93823, 1, 93760);
    (125218, 125251, 1, 125184)
  ]%N.

(** The characters that [str.upper] maps to two or three characters. *)
Definition UPPER_SPECIAL : list (N * list N) :=
  [
    (223, [83; 83]); (329, [700; 78]); (496, [74; 780]);
    (912, [921; 776; 769]); (944, [933; 776; 769]); (1415, [1333; 1362]);
    (7830, [72; 817]); (7831, [84; 776]); (7832, [87; 778]);
    (7833, [89; 778]); (7834, [65; 702]); (8016, [933; 787]);
    (8018, [933; 787; 768]); (8020, [933; 787; 769]); (8022, [933; 787; 834]);
    (8064, [7944; 921]); (8065, [7945; 921]); (8066, [7946; 921]);
    (8067, [7947; 921]); (8068, [7948; 921]); (8069, [7949; 921]);
    (8070, [7950; 921]); (8071, [7951; 921]); (8072, [7944; 921]);
    (8073, [7945; 921]); (8074, [7946; 921]); (8075, [7947; 921]);
    (8076, [7948; 921]); (8077, [7949; 921]); (8078, [7950; 921]);
    (8079, [7951; 921]); (8080, [7976; 921]); (8081, [7977; 921]);
    (8082, [7978; 921]); (8083, [7979; 921]); (8084, [7980; 921]);
    (8085, [7981; 921]); (8086, [7982; 921]); (8087, [7983; 921]);
    (8088, [7976; 921]); (8089, [7977; 921]); (8090, [7978; 921]);
    (8091, [7979; 921]); (8092, [7980; 921]); (8093, [7981; 921]);
    (8094, [7982; 921]); (8095, [7983; 921]); (8096, [8040; 921]);
    (8097, [8041; 921]); (8098, [8042; 921]); (8099, [8043; 921]);
    (8100, [8044; 921]); (8101, [8045; 921]); (8102, [8046; 921]);
    (8103, [8047; 921]); (8104, [8040; 921]); (8105, [8041; 921]);
    (8106, [8042; 921]); (8107, [8043; 921]); (8108, [8044; 921]);
    (8109, [8045; 921]); (8110, [8046; 921]); (8111, [8047; 921]);
    (8114, [8122; 921]); (8115, [913; 921]); (8116, [902; 921]);
    (8118, [913; 834]); (8119, [913; 834; 921]); (8124, [913; 921]);
    (8130, [8138; 921]); (8131, [919; 921]); (8132, [905; 921]);
    (8134, [919; 834]); (8135, [919; 834; 921]); (8140, [919; 921]);
    (8146, [921; 776; 768]); (8147, [921; 776; 769]); (8150, [921; 834]);
    (8151, [921; 776; 834]); (8162, [933; 776; 768]); (8163, [933; 776; 769]);
    (8164, [929; 787]); (8166, [933; 834]); (8167, [933; 776; 834]);
    (8178, [8186; 921]); (8179, [937; 921]); (8180, [911; 921]);
    (8182, [937; 834]); (8183, [937; 834; 921]); (8188, [937; 921]);
    (64256, [70; 70]); (64257, [70; 73]); (64258, [70; 76]);
    (64259, [70; 70; 73]); (64260, [70; 70; 76]); (64261, [83; 84]);
    (64262, [83; 84]); (64275, [1348; 1350]); (64276, [1348; 1333]);
    (64277, [1348; 1339]); (64278, [1358; 1350]); (64279, [1348; 1341])
  ]%N.

(** The digit zero of every script: the ten characters from each of them on
    are the decimal digits 0 to 9 of that script ([str.isdecimal]). *)
Definition DECIMAL_ZEROS : list N :=
  [
    48; 1632; 1776; 1984; 2406; 2534; 2662; 2790; 2918; 3046; 3174; 3302;
    3430; 3558; 3664; 3792; 3872; 4160; 4240; 6112; 6160; 6470; 6608; 6784;
    6800; 6992; 7088; 7232; 7248; 42528; 43216; 43264; 43472; 43504; 43600;
    44016; 65296; 66720; 68912; 69734; 69872; 69942; 70096; 70384; 70736;
    70864; 71248; 71360; 71472; 71904; 72016; 72784; 73040; 73120; 92768;
    92864; 93008; 120782; 120792; 120802; 120812; 120822; 123200; 123632;
    125264; 130032
  ]%N.

(** The characters that [str.isdigit] accepts and that are not decimal
    digits (superscripts, subscripts, circled digits and the like), as
    inclusive ranges. *)
Definition OTHER_DIGITS : list (N * N) :=
  [
    (178, 179); (185, 185); (4969, 4977); (6618, 6618); (8304, 8304);
    (8308, 8313); (8320, 8329); (9312, 9320); (9332, 9340); (9352, 9360);
    (9450, 9450); (9461, 9469); (9471, 9471); (10102, 10110); (10112, 10120);
    (10122, 10130); (68160, 68163); (69216, 69224); (69714, 69722);
    (127232, 127242)
  ]%N.

(** The characters that [str.isprintable] rejects, which [repr] escapes, as
    inclusive ranges. *)
Definition NOT_PRINTABLE : list (N * N) :=
  [
    (0, 31); (127, 160); (173, 173); (888, 889); (896, 899); (907, 907);
    (909, 909); (930, 930); (1328, 1328); (1367, 1368); (1419, 1420);
    (1424, 1424); (1480, 1487); (1515, 1518); (1525, 1541); (1564, 1564);
    (1757, 1757); (1806, 1807); (1867, 1868); (1970, 1983); (2043, 2044);
    (2094, 2095); (2111, 2111); (2140, 2141); (2143, 2143); (2155, 2159);
    (2191, 2199); (2274, 2274); (2436, 2436); (2445, 2446); (2449, 2450);
    (2473, 2473); (2481, 2481); (2483, 2485); (2490, 2491); (2501, 2502);
    (2505, 2506); (2511, 2518); (2520, 2523); (2526, 2526); (2532, 2533);
    (2559, 2560); (2564, 2564); (2571, 2574); (2577, 2578); (2601, 2601);
    (2609, 2609); (2612, 2612); (2615, 2615); (2618, 2619); (2621, 2621);
    (2627, 2630); (2633, 2634); (2638, 2640); (2642, 2648); (2653, 2653);
    (2655, 2661); (2679, 2688); (2692, 2692); (2702, 2702); (2706, 2706);
    (2729, 2729); (2737, 2737); (2740, 2740); (2746, 2747); (2758, 2758);
    (2762, 2762); (2766, 2767); (2769, 2783); (2788, 2789); (2802, 2808);
    (2816, 2816); (2820, 2820); (2829, 2830); (2833, 2834); (2857, 2857);
    (2865, 2865); (2868, 2868); (2874, 2875); (2885, 2886); (2889, 2890);
    (2894, 2900); (2904, 2907); (2910, 2910); (2916, 2917); (2936, 2945);
    (2948, 2948); (2955, 2957); (2961, 2961); (2966, 2968); (2971, 2971);
    (2973, 2973); (2976, 2978); (2981, 2983); (2987, 2989); (3002, 3005);
    (3011, 3013); (3017, 3017); (3022, 3023); (3025, 3030); (3032, 3045);
    (3067, 3071); (3085, 3085); (3089, 3089); (3113, 3113); (3130, 3131);
    (3141, 3141); (3145, 3145); (3150, 3156); (3159, 3159); (3163, 3164);
    (3166, 3167); (3172, 3173); (3184, 3190); (3213, 3213); (3217, 3217);
    (3241, 3241); (3252, 3252); (3258, 3259); (3269, 3269); (3273, 3273);
    (3278, 3284); (3287, 3292); (3295, 3295); (3300, 3301); (3312, 3312);
    (3315, 3327); (3341, 3341); (3345, 3345); (3397, 3397); (3401, 3401);
    (3408, 3411); (3428, 3429); (3456, 3456); (3460, 3460); (3479, 3481);
    (3506, 3506); (3516, 3516); (3518, 3519); (3527, 3529); (3531, 3534);
    (3541, 3541); (3543, 3543); (3552, 3557); (3568, 3569); (3573, 3584);
    (3643, 3646); (3676, 3712); (3715, 3715); (3717, 3717); (3723, 3723);
    (3748, 3748); (3750, 3750); (3774, 3775); (3781, 3781); (3783, 3783);
    (3790, 3791); (3802, 3803); (3808, 3839); (3912, 3912); (3949, 3952);
    (3992, 3992); (4029, 4029); (4045, 4045); (4059, 4095); (4294, 4294);
    (4296, 4300); (4302, 4303); (4681, 4681); (4686, 4687); (4695, 4695);
    (4697, 4697); (4702, 4703); (4745, 4745); (4750, 4751); (4785, 4785);
    (4790, 4791); (4799, 4799); (4801, 4801); (4806, 4807); (4823, 4823);
    (4881, 4881); (4886, 4887); (4955, 4956); (4989, 4991); (5018, 5023);
    (5110, 5111); (5118, 5119); (5760, 5760); (5789, 5791); (5881, 5887);
    (5910, 5918); (5943, 5951); (5972, 5983); (5997, 5997); (6001, 6001);
    (6004, 6015); (6110, 6111); (6122, 6127); (6138, 6143); (6158, 6158);
    (6170, 6175); (6265, 6271); (6315, 6319); (6390, 6399); (6431, 6431);
    (6444, 6447); (6460, 6463); (6465, 6467); (6510, 6511); (6517, 6527);
    (6572, 6575); (6602, 6607); (6619, 6621); (6684, 6685); (6751, 6751);
    (6781, 6782); (6794, 6799); (6810, 6815); (6830, 6831); (6863, 6911);
    (6989, 6991); (7039, 7039); (7156, 7163); (7224, 7226); (7242, 7244);
    (7305, 7311); (7355, 7356); (7368, 7375); (7419, 7423); (7958, 7959);
    (7966, 7967); (8006, 8007); (8014, 8015); (8024, 8024); (8026, 8026);
    (8028, 8028); (8030, 8030); (8062, 8063); (8117, 8117); (8133, 8133);
    (8148, 8149); (8156, 8156); (8176, 8177); (8181, 8181); (8191, 8207);
    (8232, 8239); (8287, 8303); (8306, 8307); (8335, 8335); (8349, 8351);
    (8385, 8399); (8433, 8447); (8588, 8591); (9255, 9279); (9291, 9311);
    (11124, 11125); (11158, 11158); (11508, 11512); (11558, 11558);
    (11560, 11564); (11566, 11567); (11624, 11630); (11633, 11646);
    (11671, 11679); (11687, 11687); (11695, 11695); (11703, 11703);
    (11711, 11711); (11719, 11719); (11727, 11727); (11735, 11735);
    (11743, 11743); (11870, 11903); (11930, 11930); (12020, 12031);
    (12246, 12271); (12284, 12288); (12352, 12352); (12439, 12440);
    (12544, 12548); (12592, 12592); (12687, 12687); (12772, 12783);
    (12831, 12831); (42125, 42127); (42183, 42191); (42540, 42559);
    (42744, 42751); (42955, 42959); (42962, 42962); (42964, 42964);
    (42970, 42993); (43053, 43055); (43066, 43071); (43128, 43135);
    (43206, 43213); (43226, 43231); (43348, 43358); (43389, 43391);
    (43470, 43470); (43482, 43485); (43519, 43519); (43575, 43583);
    (43598, 43599); (43610, 43611); (43715, 43738); (43767, 43776);
    (43783, 43784); (43791, 43792); (43799, 43807); (43815, 43815);
    (43823, 43823); (43884, 43887); (44014, 44015); (44026, 44031);
    (55204, 55215); (55239, 55242); (55292, 63743); (64110, 64111);
    (64218, 64255); (64263, 64274); (64280, 64284); (64311, 64311);
    (64317, 64317); (64319, 64319); (64322, 64322); (64325, 64325);
    (64451, 64466); (64912, 64913); (64968, 64974); (64976, 65007);
    (65050, 65055); (65107, 65107); (65127, 65127); (65132, 65135);
    (65141, 65141); (65277, 65280); (65471, 65473); (65480, 65481);
    (65488, 65489); (65496, 65497); (65501, 65503); (65511, 65511);
    (65519, 65531); (65534, 65535); (65548, 65548); (65575, 65575);
    (65595, 65595); (65598, 65598); (65614, 65615); (65630, 65663);
    (65787, 65791); (65795, 65798); (65844, 65846); (65935, 65935);
    (65949, 65951); (65953, 65999); (66046, 66175); (66205, 66207);
    (66257, 66271); (66300, 66303); (66340, 66348); (66379, 66383);
    (66427, 66431); (66462, 66462); (66500, 66503); (66518, 66559);
    (66718, 66719); (66730, 66735); (66772, 66775); (66812, 66815);
    (66856, 66863); (66916, 66926); (66939, 66939); (66955, 66955);
    (66963, 66963); (66966, 66966); (66978, 66978); (66994, 66994);
    (67002, 67002); (67005, 67071); (67383, 67391); (67414, 67423);
    (67432, 67455); (67462, 67462); (67505, 67505); (67515, 67583);
    (67590, 67591); (67593, 67593); (67638, 67638); (67641, 67643);
    (67645, 67646); (67670, 67670); (67743, 67750); (67760, 67807);
    (67827, 67827); (67830, 67834); (67868, 67870); (67898, 67902);
    (67904, 67967); (68024, 68027); (68048, 68049); (68100, 68100);
    (68103, 68107); (68116, 68116); (68120, 68120); (68150, 68151);
    (68155, 68158); (68169, 68175); (68185, 68191); (68256, 68287);
    (68327, 68330); (68343, 68351); (68406, 68408); (68438, 68439);
    (68467, 68471); (68498, 68504); (68509, 68520); (68528, 68607);
    (68681, 68735); (68787, 68799); (68851, 68857); (68904, 68911);
    (68922, 69215); (69247, 69247); (69290, 69290); (69294, 69295);
    (69298, 69375); (69416, 69423); (69466, 69487); (69514, 69551);
    (69580, 69599); (69623, 69631); (69710, 69713); (69750, 69758);
    (69821, 69821); (69827, 69839); (69865, 69871); (69882, 69887);
    (69941, 69941); (69960, 69967); (70007, 70015); (70112, 70112);
    (70133, 70143); (70162, 70162); (70207, 70271); (70279, 70279);
    (70281, 70281); (70286, 70286); (70302, 70302); (70314, 70319);
    (70379, 70383); (70394, 70399); (70404, 70404); (70413, 70414);
    (70417, 70418); (70441, 70441); (70449, 70449); (70452, 70452);
    (70458, 70458); (70469, 70470); (70473, 70474); (70478, 70479);
    (70481, 70486); (70488, 70492); (70500, 70501); (70509, 70511);
    (70517, 70655); (70748, 70748); (70754, 70783); (70856, 70863);
    (70874, 71039); (71094, 71095); (71134, 71167); (71237, 71247);
    (71258, 71263); (71277, 71295); (71354, 71359); (71370, 71423);
    (71451, 71452); (71468, 71471); (71495, 71679); (71740, 71839);
    (71923, 71934); (71943, 71944); (71946, 71947); (71956, 71956);
    (71959, 71959); (71990, 71990); (71993, 71994); (72007, 72015);
    (72026, 72095); (72104, 72105); (72152, 72153); (72165, 72191);
    (72264, 72271); (72355, 72367); (72441, 72703); (72713, 72713);
    (72759, 72759); (72774, 72783); (72813, 72815); (72848, 72849);
    (72872, 72872); (72887, 72959); (72967, 72967); (72970, 72970);
    (73015, 73017); (73019, 73019); (73022, 73022); (73032, 73039);
    (73050, 73055); (73062, 73062); (73065, 73065); (73103, 73103);
    (73106, 73106); (73113, 73119); (73130, 73439); (73465, 73647);
    (73649, 73663); (73714, 73726); (74650, 74751); (74863, 74863);
    (74869, 74879); (75076, 77711); (77811, 77823); (78895, 82943);
    (83527, 92159); (92729, 92735); (92767, 92767); (92778, 92781);
    (92863, 92863); (92874, 92879); (92910, 92911); (92918, 92927);
    (92998, 93007); (93018, 93018); (93026, 93026); (93048, 93052);
    (93072, 93759); (93851, 93951); (94027, 94030); (94088, 94094);
    (94112, 94175); (94181, 94191); (94194, 94207); (100344, 100351);
    (101590, 101631); (101641, 110575); (110580, 110580); (110588, 110588);
    (110591, 110591); (110883, 110927); (110931, 110947); (110952, 110959);
    (111356, 113663); (113771, 113775); (113789, 113791); (113801, 113807);
    (113818, 113819); (113824, 118527); (118574, 118575); (118599, 118607);
    (118724, 118783); (119030, 119039); (119079, 119080); (119155, 119162);
    (119275, 119295); (119366, 119519); (119540, 119551); (119639, 119647);
    (119673, 119807); (119893, 119893); (119965, 119965); (119968, 119969);
    (119971, 119972); (119975, 119976); (119981, 119981); (119994, 119994);
    (119996, 119996); (120004, 120004); (120070, 120070); (120075, 120076);
    (120085, 120085); (120093, 120093); (120122, 120122); (120127, 120127);
    (120133, 120133); (120135, 120137); (120145, 120145); (120486, 120487);
    (120780, 120781); (121484, 121498); (121504, 121504); (121520, 122623);
    (122655, 122879); (122887, 122887); (122905, 122906); (122914, 122914);
    (122917, 122917); (122923, 123135); (123181, 123183); (123198, 123199);
    (123210, 123213); (123216, 123535); (123567, 123583); (123642, 123646);
    (123648, 124895); (124903, 124903); (124908, 124908); (124911, 124911);
    (124927, 124927); (125125, 125126); (125143, 125183); (125260, 125263);
    (125274, 125277); (125280, 126064); (126133, 126208); (126270, 126463);
    (126468, 126468); (126496, 126496); (126499, 126499); (126501, 126502);
    (126504, 126504); (126515, 126515); (126520, 126520); (126522, 126522);
    (126524, 126529); (126531, 126534); (126536, 126536); (126538, 126538);
    (126540, 126540); (126544, 126544); (126547, 126547); (126549, 126550);
    (126552, 126552); (126554, 126554); (126556, 126556); (126558, 126558);
    (126560, 126560); (126563, 126563); (126565, 126566); (126571, 126571);
    (126579, 126579); (126584, 126584); (126589, 126589); (126591, 126591);
    (126602, 126602); (126620, 126624); (126628, 126628); (126634, 126634);
    (126652, 126703); (126706, 126975); (127020, 127023); (127124, 127135);
    (127151, 127152); (127168, 127168); (127184, 127184); (127222, 127231);
    (127406, 127461); (127491, 127503); (127548, 127551); (127561, 127567);
    (127570, 127583); (127590, 127743); (128728, 128732); (128749, 128751);
    (128765, 128767); (128884, 128895); (128985, 128991); (129004, 129007);
    (129009, 129023); (129036, 129039); (129096, 129103); (129114, 129119);
    (129160, 129167); (129198, 129199); (129202, 129279); (129620, 129631);
    (129646, 129647); (129653, 129655); (129661, 129663); (129671, 129679);
    (129709, 129711); (129723, 129727); (129734, 129743); (129754, 129759);
    (129768, 129775); (129783, 129791); (129939, 129939); (129995, 130031);
    (130042, 131071); (173792, 173823); (177977, 177983); (178206, 178207);
    (183970, 183983); (191457, 194559); (195102, 196607); (201547, 917759);
    (918000, 1114111)
  ]%N.

(** [c.isspace()]. *)
Definition is_space (c : N) : bool := in_ranges WHITESPACE c.

(** The pairs of one run of [UPPER_RUNS]. *)
Fixpoint run_entries (n : nat) (c u step : N) : list (N * list N) :=
  match n with
  | O => []
  | S n' => (c, [u]) :: run_entries n' (c + step) (u + step) step
  end.

Definition expand_run (r : N * N * N * N) : list (N * list N) :=
  let '(first, last, step, upper_of_first) := r in
  run_entries (S (N.to_nat ((last - first) / step))) first upper_of_first step.

(** Every character that [str.upper] changes, with what it becomes. *)
Definition UPPER : list (N * list N) :=
  Eval vm_compute in flat_map expand_run UPPER_RUNS ++ UPPER_SPECIAL.

(** [c.upper()]: one character, or two or three. *)
Definition upper_cp (c : N) : str :=
  match find (fun e => N.eqb (fst e) c) UPPER with
  | Some e => snd e
  | None => [c]
  end.

Arguments upper_cp : simpl never.

(** [s.upper()]. *)
Definition upper (s : str) : str := flat_map upper_cp s.

(** The value of a decimal digit: [unicodedata.decimal(c)], [None] when
    [c] is not a decimal digit. *)
Definition decimal_value (c : N) : option N :=
  option_map (fun zero => (c - zero)%N)
    (find (fun zero => N.leb zero c && N.leb c (zero + 9)%N) DECIMAL_ZEROS).

(** [c.isdecimal()] and [c.isdigit()]. *)
Definition is_decimal (c : N) : bool :=
  match decimal_value c with Some _ => true | None => false end.

Definition is_digit (c : N) : bool := is_decimal c || in_ranges OTHER_DIGITS c.

(** [c.isprintable()]. *)
Definition is_printable (c : N) : bool := negb (in_ranges NOT_PRINTABLE c).

Arguments is_printable : simpl never.

(** ** The string methods the plugin calls on text *)

(** [s.replace(c, "")] for a one-character [c]: every occurrence goes. *)
Fixpoint remove_char (c : N) (s : str) : str :=
  match s with
  | [] => []
  | d :: s' => if N.eqb d c then remove_char c s' else d :: remove_char c s'
  end.

(** [s.lstrip()], [s.rstrip()], [s.strip()] with no argument. *)
Fixpoint lstrip (s : str) : str :=
  match s with
  | [] => []
  | c :: s' => if is_space c then lstrip s' else s
  end.

Fixpoint rstrip (s : str) : str :=
  match s with
  | [] => []
  | c :: s' =>
      let r := rstrip s' in
      if is_space c && negb (nonempty r) then [] else c :: r
  end.

Definition strip (s : str) : str := rstrip (lstrip s).

(** [re.split(cls, s)] for a one-character class [cls], given as its
    membership test: the list of the segments between separators. *)
Fixpoint re_split (sep : N -> bool) (s : str) : list str :=
  match s with
  | [] => [[]]
  | c :: s' =>
      if sep c then [] :: re_split sep s'
      else match re_split sep s' with
           | seg :: rest => (c :: seg) :: rest
           | [] => [[c]]
           end
  end.

(** The class [[,/]]. *)
Definition comma_or_slash (c : N) : bool := N.eqb c 44 || N.eqb c 47.

(** ** Module-level constants and functions *)

(** The keys of [BEETS_TO_LABEL].  [__init__] rejects a [tag_patterns] key
    that is not one of them (line 122), so every key a matcher yields, and
    every key of [tag_compare], is of this type; [key_name] gives the
    Python string. *)
Inductive FieldKey : Type :=
  | media | year | country | label | catalognum | albumdisambig.

Definition key_name (k : FieldKey) : string :=
  match k with
  | media => "media"
  | year => "year"
  | country => "country"
  | label => "label"
  | catalognum => "catalognum"
  | albumdisambig => "albumdisambig"
  end.

Definition FieldKey_eqb (a b : FieldKey) : bool :=
  String.eqb (key_name a) (key_name b).

(** [BEETS_TO_LABEL], an ordered dictionary: the keys in order, with their
    display labels. *)
Definition BEETS_TO_LABEL : list (FieldKey * str) :=
  [ (media, text "Media"); (year, text "Edition year");
    (country, text "Country"); (label, text "Record label");
    (catalognum, text "Catalog number"); (albumdisambig, text "Edition") ].

Definition CONFLICT_FIELDS : list string := ["catalognum"; "media"].

(** [normalize_catno(catno)]. *)
Definition normalize_catno (catno : str) : str :=
  remove_char 45 (remove_char 32 (upper catno)).

(** [sanitize_value(key, value)]. *)
Definition sanitize_value (key : string) (value : str) : str :=
  if String.eqb key "media" && str_eqb value "WEB" then "Digital Media"
  else if String.eqb key "catalognum" || String.eqb key "label" then
    strip (hd [] (re_split comma_or_slash value))
  else if String.eqb key "year" && str_eqb value "0" then []
  else value.

(** ** Python values *)

(** [PObj] is a value of any other type (a float, a date, ...), given by
    what [bool], [str] and [repr] return for it. *)
Inductive PyVal : Type :=
  | PNone
  | PBool (b : bool)
  | PInt (n : Z)
  | PStr (s : str)
  | PList (l : list PyVal)
  | PDict (d : list (PyVal * PyVal))
  | PObj (truth : bool) (as_str as_repr : str).

(** [bool(v)]. *)
Definition truthy (v : PyVal) : bool :=
  match v with
  | PNone => false
  | PBool b => b
  | PInt n => negb (Z.eqb n 0)
  | PStr s => nonempty s
  | PList l => match l with [] => false | _ :: _ => true end
  | PDict d => match d with [] => false | _ :: _ => true end
  | PObj truth _ _ => truth
  end.

Definition dquote : N := 34.
Definition squote : N := 39.
Definition backslash : N := 92.

(** [c in s]. *)
Definition contains (c : N) (s : str) : bool := existsb (N.eqb c) s.

Definition hex_digit (n : N) : N :=
  if N.ltb n 10 then (48 + n)%N else (87 + n)%N.

(** [n] in hexadecimal, on [width] digits. *)
Fixpoint hex_digits (width : nat) (n : N) : str :=
  match width with
  | O => []
  | S w => hex_digits w (n / 16) ++ [hex_digit (n mod 16)]
  end.

Definition escape_char (q c : N) : str :=
  if N.eqb c backslash then [backslash; backslash]
  else if N.eqb c q then [backslash; q]
  else if N.eqb c 9 then "\t"
  else if N.eqb c 10 then "\n"
  else if N.eqb c 13 then "\r"
  else if is_printable c then [c]
  else if N.ltb c 256 then "\x" ++ hex_digits 2 c
  else if N.ltb c 65536 then "\u" ++ hex_digits 4 c
  else "\U" ++ hex_digits 8 c.

(** [repr(s)] of a string: single quotes, unless the text has a single
    quote and no double quote. *)
Definition repr_str (s : str) : str :=
  let q := if contains squote s && negb (contains dquote s)
           then dquote else squote in
  q :: flat_map (escape_char q) s ++ [q].

Definition str_of_Z (n : Z) : str := text (NilZero.string_of_int (Z.to_int n)).

Fixpoint join (sep : str) (l : list str) : str :=
  match l with
  | [] => []
  | [x] => x
  | x :: rest => x ++ sep ++ join sep rest
  end.

(** [repr(v)]. *)
Fixpoint py_repr (v : PyVal) : str :=
  match v with
  | PNone => "None"
  | PBool true => "True"
  | PBool false => "False"
  | PInt n => str_of_Z n
  | PStr s => repr_str s
  | PList l => "[" ++ join ", " (map py_repr l) ++ "]"
  | PDict d =>
      "{" ++ join ", "
               (map (fun kv => py_repr (fst kv) ++ ": " ++ py_repr (snd kv)) d)
          ++ "}"
  | PObj _ _ as_repr => as_repr
  end.

(** [str(v)]: the text itself for a string, [repr] for the other values
    built in here. *)
Definition py_str (v : PyVal) : str :=
  match v with
  | PStr s => s
  | PObj _ as_str _ => as_str
  | _ => py_repr v
  end.

(** [s.isdigit()]: non-empty and digits only. *)
Definition isdigit (s : str) : bool := nonempty s && forallb is_digit s.

Fixpoint int_acc (acc : Z) (s : str) : Z :=
  match s with
  | [] => acc
  | c :: s' => int_acc (10 * acc + Z.of_N (default 0%N (decimal_value c))) s'
  end.

(** The integer that [int(s)] returns for a string of decimal digits, of
    whatever scripts, when it returns; see [int_of_digits] for when it does. *)
Definition py_int (s : str) : Z := int_acc 0 s.

(** [sys.get_int_max_str_digits()], at its default. *)
Definition INT_MAX_STR_DIGITS : nat := 4300.

(** [int(s)] for an [s] that [isdigit] accepts; [None] stands for the
    [ValueError] it raises when some character is a digit that is not a
    decimal digit (a superscript, say) or when [s] is longer than the
    interpreter's limit for the conversion of decimal text. *)
Definition int_of_digits (s : str) : option Z :=
  if forallb is_decimal s && Nat.leb (length s) INT_MAX_STR_DIGITS
  then Some (py_int s) else None.

(** ** Track records

    The host's item is used through three operations only: [item[tag] = v],
    [item.get(tag)] and [del item[tag]].  It is modelled as a dictionary;
    what the host does to a value on assignment (its own type coercions) is
    not part of the model. *)

Abbreviation Item := (gmap string PyVal).

(** [item.get(k)]: the value, or [None] when the field is absent. *)
Definition item_get (item : Item) (k : string) : PyVal :=
  default PNone (item !! k).

(** ** Patterns and origin documents

    A compiled regular expression is taken as the function it computes under
    [re.match]: from the stripped line to the text of capture group 1, when
    the line matches.  [__init__] rejects patterns that do not have exactly
    one group; a pattern whose group can stay out of a match (so that
    [match[1]] is [None]) is outside the model.  A compiled JSON path is the
    function from the parsed document to the values of the nodes it finds,
    in order. *)

Definition Regex : Type := str -> option str.
Definition JsonPath : Type := PyVal -> list PyVal.

(** The origin file, as the three readers see it: [f.readlines()],
    [json.load(f)] and [yaml.load(f, Loader=yaml.SafeLoader)].  A file on
    which the chosen reader raises is outside the model. *)
Record OriginFile : Type := {
  readlines : list str;
  json_load : PyVal;
  yaml_load : PyVal
}.

(** [self.match_fn] together with [self.tag_patterns]: [__init__] compiles
    the patterns as regular expressions for the text strategy and as JSON
    paths for the two others, in the order of the configuration. *)
Inductive MatchFn : Type :=
  | use_match_text (tag_patterns : list (FieldKey * Regex))
  | use_match_json (tag_patterns : list (FieldKey * JsonPath))
  | use_match_yaml (tag_patterns : list (FieldKey * JsonPath)).

(** The inner loop of [match_text] for one pattern. *)
Fixpoint match_lines (key : FieldKey) (pattern : Regex) (lines : list str)
  : list (FieldKey * str) :=
  match lines with
  | [] => []
  | line :: rest =>
      match pattern (strip line) with
      | None => match_lines key pattern rest
      | Some group1 => (key, group1) :: match_lines key pattern rest
      end
  end.

(** [match_text]: the pairs the generator yields, in order. *)
Fixpoint match_text (tag_patterns : list (FieldKey * Regex))
  (lines : list str) : list (FieldKey * str) :=
  match tag_patterns with
  | [] => []
  | (key, pattern) :: rest =>
      match_lines key pattern lines ++ match_text rest lines
  end.

(** [match_json]. *)
Fixpoint match_json (tag_patterns : list (FieldKey * JsonPath))
  (data : PyVal) : list (FieldKey * str) :=
  match tag_patterns with
  | [] => []
  | (key, pattern) :: rest =>
      match pattern data with
      | [] => match_json rest data
      | m0 :: _ => (key, py_str m0) :: match_json rest data
      end
  end.

(** [match_yaml]. *)
Fixpoint match_yaml (tag_patterns : list (FieldKey * JsonPath))
  (data : PyVal) : list (FieldKey * str) :=
  match tag_patterns with
  | [] => []
  | (key, pattern) :: rest =>
      match pattern data with
      | [] => match_yaml rest data
      | m0 :: _ =>
          if negb (truthy m0) then match_yaml rest data
          else (key, py_str m0) :: match_yaml rest data
      end
  end.

Definition run_match_fn (fn : MatchFn) (f : OriginFile)
  : list (FieldKey * str) :=
  match fn with
  | use_match_text pats => match_text pats (readlines f)
  | use_match_json pats => match_json pats (json_load f)
  | use_match_yaml pats => match_yaml pats (yaml_load f)
  end.

(** ** The plugin object and the per-task state *)

Record OriginQuery : Type := {
  extra_tags : list string;
  origin_file : string;
  match_fn : MatchFn;
  use_origin_on_conflict : bool;
  preserve_media_with_catalognum : bool
}.

Record Entry : Type := {
  tagged : str;
  active : bool;
  origin : str
}.

(** [tag_compare]: an ordered dictionary with exactly the keys of
    [BEETS_TO_LABEL], in that order.  It is a total map on [FieldKey];
    iteration follows [BEETS_TO_LABEL]. *)
Definition TagCompare : Type := FieldKey -> Entry.

Definition tc_update (tc : TagCompare) (key : FieldKey) (f : Entry -> Entry)
  : TagCompare :=
  fun k => if FieldKey_eqb k key then f (tc k) else tc k.

Definition set_origin (v : str) (e : Entry) : Entry :=
  {| tagged := tagged e; active := active e; origin := v |}.

Definition set_active (b : bool) (e : Entry) : Entry :=
  {| tagged := tagged e; active := b; origin := origin e |}.

Definition tc_items (tc : TagCompare) : list (FieldKey * Entry) :=
  map (fun kl => (fst kl, tc (fst kl))) BEETS_TO_LABEL.

(** Where the origin file is, or would be: the first path of the sorted
    glob, or [Path(base) / self.origin_file]. *)
Inductive OriginPath : Type :=
  | Globbed (path : string)
  | Joined (base file : string).

(** [task_info], a dictionary whose keys other than [origin_path] may be
    absent. *)
Record TaskInfo : Type := {
  ti_origin_path : OriginPath;
  ti_missing_origin : option bool;
  ti_tag_compare : option TagCompare;
  ti_conflict : option bool
}.

(** The exceptions that appear in the model. *)
Inductive Exn : Type := KeyError | AttributeError | TypeError | ValueError.

(** ** [import_task_start]

    The handler is given twice.  [import_task_start] is what it leaves when
    it returns: the conversion [int(origin_value)] is taken at the value it
    returns, [py_int].  [import_task_start_exn] follows the same code with
    the [ValueError] that the conversion can raise, and says what the
    handler leaves when the exception ends it.  The two are proved to agree
    whenever no exception is raised, and the inputs on which one is raised
    are characterised, in the section on the handler and its exception. *)

Section ImportTask.

Variable self : OriginQuery.

(** The first loop: one entry per key of [BEETS_TO_LABEL], from the
    host's [likelies]. *)
Definition init_tag_compare (likelies : FieldKey -> PyVal) : TagCompare :=
  fun tag =>
    {| tagged := py_str (likelies tag);
       active := str_in (key_name tag) (extra_tags self);
       origin := [] |}.

(** One turn of the loop over the matches; the state is [tag_compare] and
    the local [conflict]. *)
Definition match_step (st : TagCompare * bool) (kv : FieldKey * str)
  : TagCompare * bool :=
  let '(tag_compare, conflict) := st in
  let '(key, value) := kv in
  if nonempty (origin (tag_compare key)) then st
  else
    let tagged_value := tagged (tag_compare key) in
    let origin_value := sanitize_value (key_name key) value in
    let tag_compare' := tc_update tag_compare key (set_origin origin_value) in
    if negb (str_in (key_name key) CONFLICT_FIELDS)
       || negb (nonempty tagged_value) || negb (nonempty origin_value)
    then (tag_compare', conflict)
    else
      let '(tagged_value, origin_value) :=
        if String.eqb (key_name key) "catalognum"
        then (normalize_catno tagged_value, normalize_catno origin_value)
        else (tagged_value, origin_value) in
      if negb (str_eqb tagged_value origin_value)
      then (tag_compare', true)
      else (tag_compare', conflict).

Definition run_matches (matches : list (FieldKey * str))
  (st : TagCompare * bool) : TagCompare * bool :=
  fold_left match_step matches st.

(** The value assigned to [item[tag]], when the conversion of the year
    returns. *)
Definition value_to_write (tag : FieldKey) (origin_value : str) : PyVal :=
  if String.eqb (key_name tag) "year" && nonempty origin_value then
    if isdigit origin_value then PInt (py_int origin_value)
    else PStr []
  else PStr origin_value.

(** One turn of the loop over [tag_compare.items()]. *)
Definition write_tag (item : Item) (te : FieldKey * Entry) : Item :=
  let '(tag, entry) := te in
  if negb (str_in (key_name tag) (extra_tags self)) then item
  else <[key_name tag := value_to_write tag (origin entry)]> item.

Definition write_origin (tag_compare : TagCompare) (item : Item) : Item :=
  fold_left write_tag (tc_items tag_compare) item.

(** The body of the loop over [task.items]: the writes, then the media
    removal workaround. *)
Definition update_item (tag_compare : TagCompare) (item : Item)
  : TagCompare * Item :=
  let item1 := write_origin tag_compare item in
  if negb (preserve_media_with_catalognum self)
     && truthy (item_get item1 "media")
     && truthy (item_get item1 "catalognum")
  then (tc_update tag_compare media (set_active false),
        delete "media" item1)
  else (tag_compare, item1).

Fixpoint update_items (tag_compare : TagCompare) (items : list Item)
  : TagCompare * list Item :=
  match items with
  | [] => (tag_compare, [])
  | item :: rest =>
      let '(tag_compare1, item') := update_item tag_compare item in
      let '(tag_compare2, rest') := update_items tag_compare1 rest in
      (tag_compare2, item' :: rest')
  end.

(** [import_task_start].  [base] is the common parent directory of the
    task's paths, [origin_glob] the sorted result of the glob under it,
    [fs] the content of the files, [likelies] the host's
    [current_metadata(task.items)] and [items] the task's items.  The
    result is the [task_info] stored under the task and the items as the
    handler leaves them. *)
Definition import_task_start (fs : string -> OriginFile) (base : string)
  (origin_glob : list string) (likelies : FieldKey -> PyVal)
  (items : list Item) : TaskInfo * list Item :=
  match origin_glob with
  | [] =>
      ({| ti_origin_path := Joined base (origin_file self);
          ti_missing_origin := Some true;
          ti_tag_compare := None;
          ti_conflict := None |}, items)
  | origin_path :: _ =>
      let '(tag_compare, conflict) :=
        run_matches (run_match_fn (match_fn self) (fs origin_path))
                    (init_tag_compare likelies, false) in
      let '(tag_compare', items') :=
        if negb conflict || use_origin_on_conflict self
        then update_items tag_compare items
        else (tag_compare, items) in
      ({| ti_origin_path := Globbed origin_path;
          ti_missing_origin := None;
          ti_tag_compare := Some tag_compare';
          ti_conflict := if conflict then Some true else None |}, items')
  end.

(** The same code with the exception.  The value assigned to [item[tag]],
    or the [ValueError] of [int]. *)
Definition value_to_write_exn (tag : FieldKey) (origin_value : str)
  : Exn + PyVal :=
  if String.eqb (key_name tag) "year" && nonempty origin_value then
    if isdigit origin_value then
      match int_of_digits origin_value with
      | Some n => inr (PInt n)
      | None => inl ValueError
      end
    else inr (PStr [])
  else inr (PStr origin_value).

(** The loop over [tag_compare.items()] for one item: the item as the loop
    leaves it, and the exception that ended it, if any. *)
Fixpoint write_tags_exn (entries : list (FieldKey * Entry)) (item : Item)
  : Item * option Exn :=
  match entries with
  | [] => (item, None)
  | (tag, entry) :: rest =>
      if negb (str_in (key_name tag) (extra_tags self))
      then write_tags_exn rest item
      else
        match value_to_write_exn tag (origin entry) with
        | inl e => (item, Some e)
        | inr v => write_tags_exn rest (<[key_name tag := v]> item)
        end
  end.

Definition update_item_exn (tag_compare : TagCompare) (item : Item)
  : TagCompare * Item * option Exn :=
  match write_tags_exn (tc_items tag_compare) item with
  | (item1, Some e) => (tag_compare, item1, Some e)
  | (item1, None) =>
      if negb (preserve_media_with_catalognum self)
         && truthy (item_get item1 "media")
         && truthy (item_get item1 "catalognum")
      then (tc_update tag_compare media (set_active false),
            delete "media" item1, None)
      else (tag_compare, item1, None)
  end.

(** The loop over [task.items]: an exception leaves the items that follow
    as they were. *)
Fixpoint update_items_exn (tag_compare : TagCompare) (items : list Item)
  : TagCompare * list Item * option Exn :=
  match items with
  | [] => (tag_compare, [], None)
  | item :: rest =>
      match update_item_exn tag_compare item with
      | (tag_compare1, item', Some e) => (tag_compare1, item' :: rest, Some e)
      | (tag_compare1, item', None) =>
          let '(tag_compare2, rest', e) := update_items_exn tag_compare1 rest in
          (tag_compare2, item' :: rest', e)
      end
  end.

(** [import_task_start] with its exception: the stored [task_info] and the
    items as the handler leaves them, and the exception that ended it, if
    any. *)
Definition import_task_start_exn (fs : string -> OriginFile) (base : string)
  (origin_glob : list string) (likelies : FieldKey -> PyVal)
  (items : list Item) : TaskInfo * list Item * option Exn :=
  match origin_glob with
  | [] =>
      ({| ti_origin_path := Joined base (origin_file self);
          ti_missing_origin := Some true;
          ti_tag_compare := None;
          ti_conflict := None |}, items, None)
  | origin_path :: _ =>
      let '(tag_compare, conflict) :=
        run_matches (run_match_fn (match_fn self) (fs origin_path))
                    (init_tag_compare likelies, false) in
      let '(tag_compare', items', e) :=
        if negb conflict || use_origin_on_conflict self
        then update_items_exn tag_compare items
        else (tag_compare, items, None) in
      ({| ti_origin_path := Globbed origin_path;
          ti_missing_origin := None;
          ti_tag_compare := Some tag_compare';
          ti_conflict := if conflict then Some true else None |}, items', e)
  end.

End ImportTask.

(** ** [__init__]: the choice of the matching function (lines 107-119) *)

(** [s[i:]] for [i = s.rfind(".")], when there is a dot. *)
Fixpoint from_last_dot (s : string) : option string :=
  match s with
  | EmptyString => None
  | String c s' =>
      match from_last_dot s' with
      | Some t => Some t
      | None => if Ascii.eqb c "." then Some s else None
      end
  end.

(** [Path.suffix], from the final component [name] of the path: the text
    from the last dot on, when that dot is neither the first nor the last
    character. *)
Definition suffix (name : string) : string :=
  match name with
  | EmptyString => EmptyString
  | String _ rest =>
      match from_last_dot rest with
      | Some t => if Nat.leb 2 (String.length t) then t else EmptyString
      | None => EmptyString
      end
  end.

(** [s[1:]]. *)
Definition drop_first (s : string) : string :=
  match s with
  | EmptyString => EmptyString
  | String _ s' => s'
  end.

(** [view.as_choice(choices)] on a configured string: the value when it is
    one of the choices; [None] stands for the [ConfigValueError] it raises
    otherwise, which [__init__] does not catch. *)
Definition as_choice (choices : list string) (v : string) : option string :=
  if str_in v choices then Some v else None.

(** The three generator methods. *)
Inductive Matcher : Type := match_json_m | match_yaml_m | match_text_m.

(** The [try] block: [configured] is the value of [origin_type] in the
    configuration, [None] when the option is not set ([NotFoundError]);
    [name] is [self.origin_file.name]. *)
Definition resolve_origin_type (configured : option string) (name : string)
  : option string :=
  match configured with
  | Some v => option_map lower (as_choice ["yaml"; "json"; "text"] v)
  | None => Some (drop_first (lower (suffix name)))
  end.

Definition choose_match_fn (origin_type : string) : Matcher :=
  if String.eqb origin_type "json" then match_json_m
  else if String.eqb origin_type "yaml" then match_yaml_m
  else match_text_m.

Definition init_match_fn (configured : option string) (name : string)
  : option Matcher :=
  option_map choose_match_fn (resolve_origin_type configured name).

(** ** A concrete regular expression and a concrete JSON path

    Used by the examples below. *)

Fixpoint strip_prefix (pre s : str) : option str :=
  match pre, s with
  | [], _ => Some s
  | a :: pre', b :: s' => if N.eqb a b then strip_prefix pre' s' else None
  | _ :: _, [] => None
  end.

(** The pattern made of a literal prefix [pre] followed by one group that
    takes any characters: a line (it holds no newline once stripped) matches
    when it starts with [pre], and group 1 is the rest of the line. *)
Definition prefix_pattern (pre : str) : Regex := strip_prefix pre.

Fixpoint dict_get (d : list (PyVal * PyVal)) (field : str) : list PyVal :=
  match d with
  | [] => []
  | (PStr k, v) :: rest =>
      if str_eqb k field then [v] else dict_get rest field
  | _ :: rest => dict_get rest field
  end.

(** The path [field]: the value under that key of a top-level mapping (whose
    keys are distinct), nothing on any other document. *)
Definition field_path (field : str) : JsonPath :=
  fun data =>
    match data with
    | PDict d => dict_get d field
    | _ => []
    end.

(** ** Notions used to state the properties *)

Definition all_chars (p : N -> bool) (s : str) : bool := forallb p s.

Definition first_char (s : str) : option N :=
  match s with
  | [] => None
  | c :: _ => Some c
  end.

Fixpoint last_char (s : str) : option N :=
  match s with
  | [] => None
  | c :: s' =>
      match last_char s' with
      | Some d => Some d
      | None => Some c
      end
  end.

(** [seg] is the text of [value] before its first [,] or [/] (all of
    [value] when it has neither). *)
Definition first_segment (value seg : str) : Prop :=
  all_chars (fun c => negb (comma_or_slash c)) seg = true
  /\ (value = seg
      \/ exists c rest, comma_or_slash c = true /\ value = seg ++ c :: rest).

(** [t] is [s] without the white space around it. *)
Definition trimmed_of (s t : str) : Prop :=
  (exists l r, s = l ++ t ++ r
               /\ all_chars is_space l = true /\ all_chars is_space r = true)
  /\ (forall c, first_char t = Some c -> is_space c = false)
  /\ (forall c, last_char t = Some c -> is_space c = false).

(** A space or a hyphen. *)
Definition is_filler (c : N) : bool := N.eqb c 32 || N.eqb c 45.

(** The same character, or a character and its upper-case form. *)
Definition same_letter (c d : N) : Prop :=
  c = d \/ upper_cp c = [d] \/ upper_cp d = [c].

(** Two catalog numbers that differ only in spaces, in hyphens, and in
    letters of which one is the upper-case form of the other. *)
Inductive catno_similar : str -> str -> Prop :=
  | sim_nil : catno_similar [] []
  | sim_filler_l c s t :
      is_filler c = true -> catno_similar s t -> catno_similar (c :: s) t
  | sim_filler_r c s t :
      is_filler c = true -> catno_similar s t -> catno_similar s (c :: t)
  | sim_char c d s t :
      same_letter c d -> catno_similar s t ->
      catno_similar (c :: s) (d :: t).

(** What is checked on each line of [UPPER]: the character is no space and no
    hyphen, and what it becomes holds no space, no hyphen and only
    characters that upper-casing leaves alone. *)
Definition upper_entry_ok (e : N * list N) : bool :=
  negb (is_filler (fst e))
  && forallb (fun d => negb (is_filler d) && str_eqb (upper_cp d) [d]) (snd e).

(** The normalization a conflict field is compared under: that of catalog
    numbers for [catalognum], none for [media]. *)
Definition normalize_for (k : FieldKey) (s : str) : str :=
  match k with
  | catalognum => normalize_catno s
  | _ => s
  end.

Definition is_conflict_field (k : FieldKey) : Prop :=
  k = catalognum \/ k = media.

(** The entry of field [k] shows a conflict: a conflict field, both values
    non-empty, unequal once normalized. *)
Definition field_conflict (k : FieldKey) (e : Entry) : Prop :=
  is_conflict_field k
  /\ tagged e <> [] /\ origin e <> []
  /\ normalize_for k (tagged e) <> normalize_for k (origin e).

(** The comparison [match_step] makes on the entry it has just filled. *)
Definition conflicting (k : FieldKey) (e : Entry) : bool :=
  str_in (key_name k) CONFLICT_FIELDS
  && nonempty (tagged e) && nonempty (origin e)
  && negb (str_eqb (normalize_for k (tagged e)) (normalize_for k (origin e))).

(** The first non-empty string of a list, the empty string if none. *)
Fixpoint first_nonempty (l : list str) : str :=
  match l with
  | [] => []
  | x :: rest => if nonempty x then x else first_nonempty rest
  end.

(** The raw values the matcher yields for field [k], in order. *)
Definition values_for (k : FieldKey) (matches : list (FieldKey * str))
  : list str :=
  map snd (List.filter (fun kv => FieldKey_eqb (fst kv) k) matches).

(** The state after the loop over the matches, before any update. *)
Definition compared (self : OriginQuery) (f : OriginFile)
  (likelies : FieldKey -> PyVal) : TagCompare * bool :=
  run_matches (run_match_fn (match_fn self) f)
              (init_tag_compare self likelies, false).

(** The test that guards the update loop. *)
Definition updates_applied (self : OriginQuery) (conflict : bool) : bool :=
  negb conflict || use_origin_on_conflict self.

(** The origin value stored for field [k] in a task's [tag_compare] (empty
    when the task has none). *)
Definition stored_origin (ti : TaskInfo) (k : FieldKey) : str :=
  match ti_tag_compare ti with
  | Some tc => origin (tc k)
  | None => []
  end.

(** The item once the origin values are written, before the media
    workaround. *)
Definition written (self : OriginQuery) (st : TagCompare * bool)
  (item : Item) : Item :=
  write_origin self (fst st) item.

(** The test of the media removal workaround, on a written item. *)
Definition removal_due (self : OriginQuery) (item1 : Item) : bool :=
  negb (preserve_media_with_catalognum self)
  && truthy (item_get item1 "media")
  && truthy (item_get item1 "catalognum").

(** The year conversion raises: a non-empty origin value that [isdigit]
    accepts and [int] does not. *)
Definition year_raises (o : str) : bool :=
  nonempty o && isdigit o
  && negb (forallb is_decimal o && Nat.leb (length o) INT_MAX_STR_DIGITS).

(** The year is among the fields to write and the conversion of the stored
    year raises. *)
Definition year_fails (self : OriginQuery) (tc : TagCompare) : bool :=
  str_in "year" (extra_tags self) && year_raises (origin (tc year)).

(** ** Sample configurations, documents and tasks *)

Definition newline : str := [10%N].

Definition sample_patterns : list (FieldKey * Regex) :=
  [ (media, prefix_pattern "Media: ");
    (year, prefix_pattern "Edition year: ");
    (catalognum, prefix_pattern "Catalog number: ");
    (label, prefix_pattern "Record label: ") ].

Definition sample_paths : list (FieldKey * JsonPath) :=
  [ (media, field_path "Media");
    (year, field_path "Edition year");
    (catalognum, field_path "Catalog number");
    (label, field_path "Record label") ].

Definition sample_plugin (fn : MatchFn) (on_conflict preserve : bool)
  : OriginQuery :=
  {| extra_tags := ["year"; "catalognum"; "media"; "label"];
     origin_file := "origin.txt";
     match_fn := fn;
     use_origin_on_conflict := on_conflict;
     preserve_media_with_catalognum := preserve |}.

Definition text_file (lines : list str) : OriginFile :=
  {| readlines := lines; json_load := PNone; yaml_load := PNone |}.

Definition tree_file (data : PyVal) : OriginFile :=
  {| readlines := []; json_load := data; yaml_load := data |}.

Definition sample_likelies (k : FieldKey) : PyVal :=
  match k with
  | media => PStr "CD"
  | year => PInt 1999
  | catalognum => PStr "ABC-1"
  | label => PStr "Some Label"
  | _ => PStr []
  end.

Definition sample_item : Item :=
  <["media" := PStr "CD"]>
    (<["catalognum" := PStr "ABC-1"]>
       (<["year" := PInt 1999]> (<["title" := PStr "Track"]> ∅))).

(** ** Further notions *)

(** The fields for which [self.tag_patterns] holds a pattern, in order. *)
Definition pattern_keys (fn : MatchFn) : list FieldKey :=
  match fn with
  | use_match_text pats => map fst pats
  | use_match_json pats => map fst pats
  | use_match_yaml pats => map fst pats
  end.

(** ** Logging

    The plugin's logger formats each message with [str.format]; the three
    logging methods escape braces first.  What is emitted is modelled as the
    list of records handed to the logger. *)

Definition open_brace : N := 123.
Definition close_brace : N := 125.

(** [s.replace(c, new)] for a one-character [c]. *)
Fixpoint replace_char (c : N) (new s : str) : str :=
  match s with
  | [] => []
  | d :: s' =>
      if N.eqb d c then new ++ replace_char c new s'
      else d :: replace_char c new s'
  end.

(** [escape_braces(string)]. *)
Definition escape_braces (s : str) : str :=
  replace_char close_brace "}}" (replace_char open_brace "{{" s).

Inductive Level : Type := ERROR | WARNING.

Record LogRecord : Type := {
  log_level : Level;
  log_msg : str
}.

(** [msg.format()], what the logger does to a message that comes with no
    argument: a doubled brace stands for one brace; [None] stands for the
    exception a single brace leads to. *)
Fixpoint format_plain (s : str) : option str :=
  match s with
  | [] => Some []
  | c :: s' =>
      if N.eqb c open_brace || N.eqb c close_brace then
        match s' with
        | d :: s'' =>
            if N.eqb d c then option_map (cons c) (format_plain s'')
            else None
        | [] => None
        end
      else option_map (cons c) (format_plain s')
  end.

(** The text the logger shows for a record. *)
Definition shown (r : LogRecord) : option str := format_plain (log_msg r).

(** ** The report *)

(** The box-drawing characters of the table. *)
Definition box_h : N := 9552.
Definition box_v : N := 9553.
Definition box_top_left : N := 9556.
Definition box_top_right : N := 9559.
Definition box_bottom_left : N := 9562.
Definition box_bottom_right : N := 9565.
Definition box_top_tee : N := 9572.
Definition box_bottom_tee : N := 9575.
Definition box_left_tee : N := 9567.
Definition box_right_tee : N := 9570.
Definition line_h : N := 9472.
Definition line_v : N := 9474.
Definition line_cross : N := 9532.

(** [c * n]. *)
Definition repeat_char (c : N) (n : nat) : str := repeat c n.

(** [s.ljust(w)]. *)
Definition ljust (s : str) (w : nat) : str :=
  s ++ repeat_char 32 (w - length s).

(** [max(a, *xs)] for a non-empty [xs]. *)
Definition max_with (a : nat) (xs : list nat) : nat := fold_left Nat.max xs a.

Definition headers : list str :=
  [text "Field"; text "Tagged Data"; text "Origin Data"].

(** [BEETS_TO_LABEL[k]]. *)
Definition label_of (k : FieldKey) : str :=
  match find (fun kl => FieldKey_eqb (fst kl) k) BEETS_TO_LABEL with
  | Some kl => snd kl
  | None => []
  end.

(** A horizontal rule of the table. *)
Definition rule (left_end fill joint right_end : N)
  (w_key w_tagged w_origin : nat) : str :=
  left_end :: repeat_char fill (w_key + 2)
  ++ joint :: repeat_char fill (w_tagged + 2)
  ++ joint :: repeat_char fill (w_origin + 2)
  ++ [right_end].

(** A line of three cells. *)
Definition row (cell_key cell_tagged cell_origin : str) : str :=
  box_v :: " " ++ cell_key ++ " "
  ++ line_v :: " " ++ cell_tagged ++ " "
  ++ line_v :: " " ++ cell_origin ++ " "
  ++ [box_v].

(** What a listener did: the records it emitted, and the exception it
    raised, if any. *)
Record Report : Type := {
  emitted : list LogRecord;
  raised : option Exn
}.

(** [self.tasks], keyed by the identity of the task. *)
Abbreviation Tasks := (gmap nat TaskInfo).

Section Reporting.

(** [beets.ui.colorize(color_name, text)]. *)
Variable colorize : string -> str -> str.

(** [str(origin_path)]. *)
Variable path_str : OriginPath -> str.

(** [self.error(msg)], [self.warn(msg)] and [self.info(msg)]; the last one
    logs at warning level too. *)
Definition error (msg : str) : list LogRecord :=
  [ {| log_level := ERROR;
       log_msg := escape_braces (colorize "text_error" msg) |} ].

Definition warn (msg : str) : list LogRecord :=
  [ {| log_level := WARNING;
       log_msg := escape_braces (colorize "text_warning" msg) |} ].

Definition info (msg : str) : list LogRecord :=
  [ {| log_level := WARNING; log_msg := escape_braces msg |} ].

(** [highlight(text, active)]. *)
Definition highlight (text : str) (active : bool) : str :=
  if active then colorize "text_highlight_minor" text else text.

(** The body of the loop of [print_tags]: the line of one entry, nothing
    for an entry with neither value. *)
Definition entry_lines (w_key w_tagged w_origin : nat) (use_tagged : bool)
  (kv : FieldKey * Entry) : list str :=
  let '(k, v) := kv in
  if negb (nonempty (tagged v)) && negb (nonempty (origin v)) then []
  else
    let tagged_active := use_tagged && active v in
    let origin_active := negb use_tagged && active v in
    [ row (ljust (label_of k) w_key)
          (highlight (ljust (tagged v) w_tagged) tagged_active)
          (highlight (ljust (origin v) w_origin) origin_active) ].

(** The lines [print_tags] hands to [self.info], in order.  [None] stands
    for the [TypeError] that [max] raises when there is no entry. *)
Definition table_lines (items : list (FieldKey * Entry)) (use_tagged : bool)
  : option (list str) :=
  match items with
  | [] => None
  | _ :: _ =>
      let w_key :=
        max_with (length (nth 0 headers []))
                 (map (fun kv => length (label_of (fst kv))) items) in
      let w_tagged :=
        max_with (length (nth 1 headers []))
                 (map (fun kv => length (tagged (snd kv))) items) in
      let w_origin :=
        max_with (length (nth 2 headers []))
                 (map (fun kv => length (origin (snd kv))) items) in
      Some
        ([ rule box_top_left box_h box_top_tee box_top_right
                w_key w_tagged w_origin;
           row (ljust (nth 0 headers []) w_key)
               (highlight (ljust (nth 1 headers []) w_tagged)
                          use_tagged)
               (highlight (ljust (nth 2 headers []) w_origin)
                          (negb use_tagged));
           rule box_left_tee line_h line_cross box_right_tee
                w_key w_tagged w_origin ]
         ++ flat_map (entry_lines w_key w_tagged w_origin use_tagged) items
         ++ [ rule box_bottom_left box_h box_bottom_tee box_bottom_right
                   w_key w_tagged w_origin ])
  end.

(** [print_tags(items, use_tagged)]. *)
Definition print_tags (items : list (FieldKey * Entry)) (use_tagged : bool)
  : option (list LogRecord) :=
  option_map (flat_map info) (table_lines items use_tagged).

(** [before_choose_candidate(task, session)]. *)
Definition before_choose_candidate (self : OriginQuery) (tasks : Tasks)
  (task : nat) : Report :=
  match tasks !! task with
  | None => {| emitted := []; raised := Some KeyError |}
  | Some task_info =>
      let origin_path := ti_origin_path task_info in
      if default false (ti_missing_origin task_info) then
        {| emitted := warn ("No origin file found at " ++ path_str origin_path);
           raised := None |}
      else
        let first := info ("Using origin file " ++ path_str origin_path) in
        let conflict := default false (ti_conflict task_info) in
        let use_tagged := conflict && negb (use_origin_on_conflict self) in
        match ti_tag_compare task_info with
        | None => {| emitted := first; raised := Some AttributeError |}
        | Some tag_compare =>
            match print_tags (tc_items tag_compare) use_tagged with
            | None => {| emitted := first; raised := Some TypeError |}
            | Some table =>
                {| emitted :=
                     first ++ table
                     ++ (if conflict
                         then warn "Origin data conflicts with tagged data."
                         else []);
                   raised := None |}
            end
        end
  end.

End Reporting.

(** [import_task_start] as the listener the host calls: the [task_info] is
    stored in [self.tasks] under the task. *)
Definition import_task_start_listener (self : OriginQuery) (tasks : Tasks)
  (task : nat) (fs : string -> OriginFile) (base : string)
  (origin_glob : list string) (likelies : FieldKey -> PyVal)
  (items : list Item) : Tasks * list Item :=
  let r := import_task_start self fs base origin_glob likelies items in
  (<[task := fst r]> tasks, snd r).


(** [colorize] when colour is switched off in the host's configuration:
    the text comes back as it is. *)
Definition plain : string -> str -> str := fun _ text => text.

(** ** [__init__], the whole of it

    The host's configuration is read through a few lookups; each is an
    option, [None] standing for the [NotFoundError] of an option that is
    not set.  Values of another kind than the one read here (a list of
    tags, a dictionary of strings, a string, a boolean) are outside the
    model. *)

Record Config : Type := {
  (** [config[source]["extra_tags"].get()], by source. *)
  cfg_extra_tags : string -> option (list string);
  (** [self.config["tag_patterns"].get()] when it is a dictionary, with its
      items in order; [None] when it is not set or not a dictionary. *)
  cfg_tag_patterns : option (list (string * string));
  cfg_origin_file : option string;
  cfg_origin_type : option string;
  cfg_use_origin_on_conflict : option bool;
  cfg_preserve_media_with_catalognum : option bool
}.

Definition SUPPORTED_METADATA_SOURCES : list string :=
  ["musicbrainz"; "discogs"].

(** The loop over the sources: the first source whose list of extra tags
    is set and not empty, with that list. *)
Fixpoint first_extra_tags (sources : list string)
  (lookup : string -> option (list string)) : option (string * list string) :=
  match sources with
  | [] => None
  | source :: rest =>
      match lookup source with
      | Some (tag :: tags) => Some (source, tag :: tags)
      | _ => first_extra_tags rest lookup
      end
  end.

(** The key of [BEETS_TO_LABEL] with a given name, if any
    ([key in BEETS_TO_LABEL]). *)
Definition key_of_name (key : string) : option FieldKey :=
  option_map fst
    (find (fun kl => String.eqb (key_name (fst kl)) key) BEETS_TO_LABEL).

(** [d[k] = v] on a dictionary kept as the list of its items: the value is
    replaced in place when the key is there, the item is added at the end
    otherwise. *)
Fixpoint dict_set {V : Type} (k : FieldKey) (v : V) (d : list (FieldKey * V))
  : list (FieldKey * V) :=
  match d with
  | [] => [(k, v)]
  | (k', v') :: rest =>
      if FieldKey_eqb k' k then (k', v) :: rest
      else (k', v') :: dict_set k v rest
  end.

(** [Path(p).name] on a POSIX system: the last component of [p] that is
    neither empty nor a single dot, the empty string if there is none. *)
Definition path_name (p : string) : string :=
  List.last (List.filter (fun x => negb (String.eqb x EmptyString)
                                   && negb (String.eqb x "."))
               (split_string (fun c => Ascii.eqb c "/") p))
            EmptyString.

(** The messages of [fail], by what they report. *)
Inductive ConfigError : Type :=
  | NoExtraTags
  | TagPatternsNotDict
  | OriginFileNotSet
  | UnknownKey (key : string)
  | InvalidJsonPath (key pattern : string)
  | InvalidRegex (key pattern : string)
  | NotOneGroup (key pattern : string).

(** How [__init__] ends: [fail] was called and the listeners are not
    registered, or the [ConfigValueError] of [as_choice] escaped, or the
    listeners are registered on the object built. *)
Inductive InitResult : Type :=
  | Disabled (e : ConfigError)
  | InitRaised
  | Enabled (self : OriginQuery).

(** The generator method behind a [match_fn]. *)
Definition method_of (fn : MatchFn) : Matcher :=
  match fn with
  | use_match_text _ => match_text_m
  | use_match_json _ => match_json_m
  | use_match_yaml _ => match_yaml_m
  end.

Section Init.

(** [jsonpath_rw.parse(pattern)]; [None] when it raises. *)
Variable jsonpath_parse : string -> option JsonPath.

(** [re.compile(pattern)] with the [groups] of the result; [None] when it
    raises [re.error]. *)
Variable re_compile : string -> option (Regex * nat).

(** The loop over [config_patterns.items()] when the origin type is [json]
    or [yaml]; [acc] is [self.tag_patterns] so far. *)
Fixpoint compile_paths (config_patterns : list (string * string))
  (acc : list (FieldKey * JsonPath)) : ConfigError + list (FieldKey * JsonPath) :=
  match config_patterns with
  | [] => inr acc
  | (key, pattern) :: rest =>
      match key_of_name key with
      | None => inl (UnknownKey key)
      | Some k =>
          match jsonpath_parse pattern with
          | None => inl (InvalidJsonPath key pattern)
          | Some path => compile_paths rest (dict_set k path acc)
          end
      end
  end.

(** The same loop for the text strategy. *)
Fixpoint compile_regexes (config_patterns : list (string * string))
  (acc : list (FieldKey * Regex)) : ConfigError + list (FieldKey * Regex) :=
  match config_patterns with
  | [] => inr acc
  | (key, pattern) :: rest =>
      match key_of_name key with
      | None => inl (UnknownKey key)
      | Some k =>
          match re_compile pattern with
          | None => inl (InvalidRegex key pattern)
          | Some (regex, groups) =>
              if negb (Nat.eqb groups 1) then inl (NotOneGroup key pattern)
              else compile_regexes rest (dict_set k regex acc)
          end
      end
  end.

(** The choice of [self.match_fn] together with the loop that fills
    [self.tag_patterns]: both test the origin type in the same way. *)
Definition compile_patterns (origin_type : string)
  (config_patterns : list (string * string)) : ConfigError + MatchFn :=
  match choose_match_fn origin_type with
  | match_json_m =>
      match compile_paths config_patterns [] with
      | inl e => inl e
      | inr paths => inr (use_match_json paths)
      end
  | match_yaml_m =>
      match compile_paths config_patterns [] with
      | inl e => inl e
      | inr paths => inr (use_match_yaml paths)
      end
  | match_text_m =>
      match compile_regexes config_patterns [] with
      | inl e => inl e
      | inr regexes => inr (use_match_text regexes)
      end
  end.

(** [OriginQuery.__init__]. *)
Definition init (cfg : Config) : InitResult :=
  match first_extra_tags SUPPORTED_METADATA_SOURCES (cfg_extra_tags cfg) with
  | None => Disabled NoExtraTags
  | Some (_, tags) =>
      match cfg_tag_patterns cfg with
      | None => Disabled TagPatternsNotDict
      | Some config_patterns =>
          match cfg_origin_file cfg with
          | None => Disabled OriginFileNotSet
          | Some file =>
              match resolve_origin_type (cfg_origin_type cfg)
                      (path_name file) with
              | None => InitRaised
              | Some origin_type =>
                  match compile_patterns origin_type config_patterns with
                  | inl e => Disabled e
                  | inr fn =>
                      Enabled
                        {| extra_tags := tags;
                           origin_file := file;
                           match_fn := fn;
                           use_origin_on_conflict :=
                             default false (cfg_use_origin_on_conflict cfg);
                           preserve_media_with_catalognum :=
                             default false
                               (cfg_preserve_media_with_catalognum cfg) |}
                  end
              end
          end
      end
  end.

End Init.

(** A sample of the two compilers: a pattern is accepted when it is not
    empty, the text pattern as the prefix of a line followed by one group
    (see [prefix_pattern]) and the path as one field (see [field_path]). *)
Definition sample_re_compile (pattern : string) : option (Regex * nat) :=
  if String.eqb pattern EmptyString then None
  else Some (prefix_pattern pattern, 1).

Definition sample_jsonpath_parse (pattern : string) : option JsonPath :=
  if String.eqb pattern EmptyString then None
  else Some (field_path pattern).

Definition sample_config : Config :=
  {| cfg_extra_tags := fun source =>
       if String.eqb source "musicbrainz" then Some []
       else if String.eqb source "discogs" then Some ["year"; "catalognum"]
       else None;
     cfg_tag_patterns :=
       Some [ ("catalognum", "Catalog number: ");
              ("year", "Edition year: ") ];
     cfg_origin_file := Some "origin.txt";
     cfg_origin_type := None;
     cfg_use_origin_on_conflict := None;
     cfg_preserve_media_with_catalognum := Some true |}.

(** ** Facts about characters and strings *)

Lemma str_eqb_eq (a b : str) : str_eqb a b = true <-> a = b.
Proof.
  revert b. induction a as [|c a IH]; intros [|d b]; simpl;
    try (split; [discriminate | intros H; discriminate H]);
    [split; reflexivity|].
  rewrite andb_true_iff, N.eqb_eq, IH. split.
  - intros [-> ->]. reflexivity.
  - intros H. injection H as -> ->. auto.
Qed.

Lemma str_eqb_refl (a : str) : str_eqb a a = true.
Proof. apply str_eqb_eq. reflexivity. Qed.

Lemma str_eqb_neq (a b : str) : str_eqb a b = false <-> a <> b.
Proof.
  rewrite <- str_eqb_eq. destruct (str_eqb a b); split; congruence.
Qed.

Lemma nonempty_true (s : str) : nonempty s = true <-> s <> [].
Proof. destruct s; simpl; split; intros; congruence. Qed.

Lemma nonempty_false (s : str) : nonempty s = false <-> s = [].
Proof. destruct s; simpl; split; intros; congruence. Qed.

Lemma key_name_inj (a b : FieldKey) : key_name a = key_name b -> a = b.
Proof. destruct a, b; simpl; intros H; first [reflexivity | discriminate H]. Qed.

Lemma FieldKey_eqb_eq (a b : FieldKey) : FieldKey_eqb a b = true <-> a = b.
Proof.
  unfold FieldKey_eqb. rewrite String.eqb_eq. split.
  - apply key_name_inj.
  - intros ->. reflexivity.
Qed.

Lemma FieldKey_eqb_refl (a : FieldKey) : FieldKey_eqb a a = true.
Proof. apply FieldKey_eqb_eq. reflexivity. Qed.

Lemma FieldKey_eqb_neq (a b : FieldKey) : FieldKey_eqb a b = false <-> a <> b.
Proof.
  rewrite <- FieldKey_eqb_eq. destruct (FieldKey_eqb a b); split; congruence.
Qed.

(** *** Upper-casing, by inspection of the table *)

Lemma UPPER_ok : forallb upper_entry_ok UPPER = true.
Proof. vm_compute. reflexivity. Qed.

Lemma upper_cp_cases (c : N) :
  upper_cp c = [c]
  \/ (In (c, upper_cp c) UPPER /\ upper_entry_ok (c, upper_cp c) = true).
Proof.
  unfold upper_cp.
  destruct (find (fun e => N.eqb (fst e) c) UPPER) as [[c' r]|] eqn:Hfind;
    [right | left; reflexivity].
  apply find_some in Hfind as [Hin Heq]. simpl in Heq.
  apply N.eqb_eq in Heq. subst c'. simpl. split; [exact Hin|].
  exact (proj1 (forallb_forall _ _) UPPER_ok _ Hin).
Qed.

(** A space or a hyphen is its own upper-case form. *)
Lemma upper_cp_filler (c : N) : is_filler c = true -> upper_cp c = [c].
Proof.
  intros Hf. destruct (upper_cp_cases c) as [H | [_ Hok]]; [exact H|].
  unfold upper_entry_ok in Hok. simpl fst in Hok. rewrite Hf in Hok.
  discriminate Hok.
Qed.

(** The upper-case form of any other character holds characters that are
    neither spaces nor hyphens and are their own upper-case forms. *)
Lemma upper_cp_chars (c d : N) :
  is_filler c = false -> In d (upper_cp c) ->
  is_filler d = false /\ upper_cp d = [d].
Proof.
  intros Hf Hin. destruct (upper_cp_cases c) as [H | [_ Hok]].
  - rewrite H in Hin. destruct Hin as [<- | []]. auto.
  - unfold upper_entry_ok in Hok. apply andb_prop in Hok as [_ Hall].
    simpl snd in Hall.
    pose proof (proj1 (forallb_forall _ _) Hall d Hin) as Hd.
    apply andb_prop in Hd as [Hd1 Hd2].
    apply negb_true_iff in Hd1. apply str_eqb_eq in Hd2. auto.
Qed.

Lemma remove_char_app (x : N) (a b : str) :
  remove_char x (a ++ b) = remove_char x a ++ remove_char x b.
Proof.
  induction a as [|c a IH]; [reflexivity|].
  simpl. destruct (N.eqb c x); simpl; rewrite IH; reflexivity.
Qed.

Lemma remove_fillers_none (r : str) :
  (forall d, In d r -> is_filler d = false) ->
  remove_char 45 (remove_char 32 r) = r.
Proof.
  induction r as [|d r IH]; intros Hr; [reflexivity|].
  pose proof (Hr d (or_introl eq_refl)) as Hd.
  unfold is_filler in Hd. apply orb_false_iff in Hd as [H32 H45].
  simpl. rewrite H32. simpl. rewrite H45, IH; [reflexivity|].
  intros d' Hin. apply Hr. right. exact Hin.
Qed.

Lemma normalize_catno_app (a b : str) :
  normalize_catno (a ++ b) = normalize_catno a ++ normalize_catno b.
Proof.
  unfold normalize_catno, upper.
  rewrite flat_map_app, !remove_char_app. reflexivity.
Qed.

Lemma normalize_catno_cons (c : N) (s : str) :
  normalize_catno (c :: s)
  = (if is_filler c then [] else upper_cp c) ++ normalize_catno s.
Proof.
  change (c :: s) with ([c] ++ s). rewrite normalize_catno_app. f_equal.
  unfold normalize_catno, upper. simpl flat_map. rewrite app_nil_r.
  destruct (is_filler c) eqn:Hf.
  - rewrite (upper_cp_filler c Hf). unfold is_filler in Hf. simpl.
    destruct (N.eqb c 32) eqn:H32; [reflexivity|].
    simpl in Hf. simpl. rewrite Hf. reflexivity.
  - apply remove_fillers_none. intros d Hd.
    apply (upper_cp_chars c d Hf Hd).
Qed.

(** A normal form holds no space and no hyphen, and each of its characters
    is its own upper-case form. *)
Lemma normalize_catno_clean (s : str) :
  all_chars (fun c => negb (is_filler c) && str_eqb (upper_cp c) [c])
            (normalize_catno s) = true.
Proof.
  unfold all_chars. induction s as [|c s IH]; [reflexivity|].
  rewrite normalize_catno_cons, forallb_app, IH, andb_true_r.
  destruct (is_filler c) eqn:Hf; [reflexivity|].
  apply forallb_forall. intros d Hd.
  destruct (upper_cp_chars c d Hf Hd) as [H1 H2].
  rewrite H1, H2, str_eqb_refl. reflexivity.
Qed.

Lemma normalize_catno_fixed (r : str) :
  all_chars (fun c => negb (is_filler c) && str_eqb (upper_cp c) [c]) r = true ->
  normalize_catno r = r.
Proof.
  unfold all_chars. induction r as [|c r IH]; intros Hall; [reflexivity|].
  simpl in Hall. apply andb_prop in Hall as [Hc Hr].
  apply andb_prop in Hc as [Hf Hu].
  apply negb_true_iff in Hf. apply str_eqb_eq in Hu.
  rewrite normalize_catno_cons, Hf, Hu, (IH Hr). reflexivity.
Qed.

Lemma same_letter_upper (c d : N) :
  same_letter c d -> is_filler c = is_filler d /\ upper_cp c = upper_cp d.
Proof.
  assert (Hone : forall a b, upper_cp a = [b] ->
                   is_filler a = is_filler b /\ upper_cp a = upper_cp b).
  { intros a b Hab. destruct (is_filler a) eqn:Hf.
    - rewrite (upper_cp_filler a Hf) in Hab. injection Hab as <-. auto.
    - destruct (upper_cp_chars a b Hf) as [H1 H2];
        [rewrite Hab; left; reflexivity|].
      rewrite H1, H2. auto. }
  intros [-> | [H | H]]; [auto | apply Hone; exact H |].
  destruct (Hone d c H) as [H1 H2]. auto.
Qed.

Lemma catno_similar_normalize (a b : str) :
  catno_similar a b -> normalize_catno a = normalize_catno b.
Proof.
  induction 1 as [|c s t Hf _ IH|c s t Hf _ IH|c d s t Hcd _ IH].
  - reflexivity.
  - rewrite normalize_catno_cons, Hf. exact IH.
  - rewrite normalize_catno_cons, Hf. exact IH.
  - rewrite !normalize_catno_cons.
    destruct (same_letter_upper c d Hcd) as [-> ->]. rewrite IH. reflexivity.
Qed.

(** ** The loop over the matches *)

Lemma conflicting_iff (k : FieldKey) (e : Entry) :
  conflicting k e = true <-> field_conflict k e.
Proof.
  unfold conflicting, field_conflict, is_conflict_field.
  rewrite !andb_true_iff, negb_true_iff, str_eqb_neq, !nonempty_true.
  split.
  - intros [[[Hk Ht] Ho] Hn]. repeat split; try assumption.
    destruct k; simpl in Hk; try discriminate; auto.
  - intros [Hk [Ht [Ho Hn]]]. repeat split; try assumption.
    destruct Hk as [-> | ->]; reflexivity.
Qed.

Lemma tc_update_same (tc : TagCompare) (k : FieldKey) (f : Entry -> Entry) :
  tc_update tc k f k = f (tc k).
Proof. unfold tc_update. rewrite FieldKey_eqb_refl. reflexivity. Qed.

Lemma tc_update_other (tc : TagCompare) (k k' : FieldKey) (f : Entry -> Entry) :
  k' <> k -> tc_update tc k f k' = tc k'.
Proof.
  intros Hne. unfold tc_update.
  apply FieldKey_eqb_neq in Hne. rewrite Hne. reflexivity.
Qed.

Lemma match_step_eq (tc : TagCompare) (conflict : bool) (key : FieldKey)
  (value : str) :
  match_step (tc, conflict) (key, value)
  = if nonempty (origin (tc key)) then (tc, conflict)
    else
      let tc' :=
        tc_update tc key (set_origin (sanitize_value (key_name key) value)) in
      (tc', conflict || conflicting key (tc' key)).
Proof.
  unfold match_step.
  destruct (nonempty (origin (tc key))); [reflexivity|].
  cbv zeta. rewrite tc_update_same. unfold conflicting. simpl.
  destruct (nonempty (tagged (tc key))),
    (nonempty (sanitize_value (key_name key) value));
    destruct key; simpl;
    rewrite ?orb_false_r, ?orb_true_r; try reflexivity;
    match goal with
    | |- context [str_eqb ?a ?b] => destruct (str_eqb a b)
    end; simpl; rewrite ?orb_false_r, ?orb_true_r; reflexivity.
Qed.

Lemma run_matches_cons (kv : FieldKey * str)
  (rest : list (FieldKey * str)) (st : TagCompare * bool) :
  run_matches (kv :: rest) st = run_matches rest (match_step st kv).
Proof. reflexivity. Qed.

(** What the loop keeps: the conflict flag is set exactly when some entry
    shows a conflict, and only origin values change. *)
Lemma run_matches_inv (matches : list (FieldKey * str)) :
  forall (tc : TagCompare) (conflict : bool),
    (conflict = true <-> exists k, field_conflict k (tc k)) ->
    let r := run_matches matches (tc, conflict) in
    (snd r = true <-> exists k, field_conflict k (fst r k))
    /\ (forall k, tagged (fst r k) = tagged (tc k))
    /\ (forall k, active (fst r k) = active (tc k)).
Proof.
  induction matches as [|[key value] rest IH]; intros tc conflict Hinv.
  - simpl. auto.
  - rewrite run_matches_cons, match_step_eq.
    destruct (nonempty (origin (tc key))) eqn:Hslot.
    + apply IH. exact Hinv.
    + cbv zeta.
      set (tc' := tc_update tc key
                    (set_origin (sanitize_value (key_name key) value))).
      assert (Hsame : forall k, tagged (tc' k) = tagged (tc k)
                                /\ active (tc' k) = active (tc k)).
      { intros k. unfold tc', tc_update.
        destruct (FieldKey_eqb k key) eqn:E; [|auto].
        apply FieldKey_eqb_eq in E. subst k. auto. }
      specialize (IH tc' (conflict || conflicting key (tc' key))).
      destruct IH as [IH1 [IH2 IH3]].
      * rewrite orb_true_iff, conflicting_iff, Hinv. split.
        -- intros [[k Hk] | Hk]; [|eauto].
           exists k. destruct (FieldKey_eqb k key) eqn:E.
           ++ apply FieldKey_eqb_eq in E. subst k.
              apply nonempty_false in Hslot.
              destruct Hk as [_ [_ [Ho _]]]. contradiction.
           ++ apply FieldKey_eqb_neq in E. unfold tc'.
              rewrite tc_update_other by assumption. exact Hk.
        -- intros [k Hk]. destruct (FieldKey_eqb k key) eqn:E.
           ++ apply FieldKey_eqb_eq in E. subst k. right. exact Hk.
           ++ apply FieldKey_eqb_neq in E. left. exists k.
              unfold tc' in Hk. rewrite tc_update_other in Hk by assumption.
              exact Hk.
      * split; [exact IH1|]. split; intros k.
        -- rewrite IH2. apply Hsame.
        -- rewrite IH3. apply Hsame.
Qed.

(** The origin value the loop leaves for a field. *)
Lemma run_matches_origin (matches : list (FieldKey * str)) :
  forall (tc : TagCompare) (conflict : bool) (k : FieldKey),
    origin (fst (run_matches matches (tc, conflict)) k)
    = if nonempty (origin (tc k)) then origin (tc k)
      else first_nonempty
             (map (sanitize_value (key_name k)) (values_for k matches)).
Proof.
  induction matches as [|[key value] rest IH]; intros tc conflict k.
  - simpl. destruct (nonempty (origin (tc k))) eqn:E; [reflexivity|].
    apply nonempty_false in E. exact E.
  - rewrite run_matches_cons, match_step_eq.
    unfold values_for. simpl List.filter.
    destruct (nonempty (origin (tc key))) eqn:Hslot.
    + rewrite IH.
      destruct (FieldKey_eqb key k) eqn:E; [|reflexivity].
      apply FieldKey_eqb_eq in E. subst k. rewrite Hslot. reflexivity.
    + cbv zeta. rewrite IH.
      destruct (FieldKey_eqb key k) eqn:E.
      * apply FieldKey_eqb_eq in E. subst k.
        rewrite tc_update_same, Hslot. simpl.
        destruct (nonempty (sanitize_value (key_name key) value));
          reflexivity.
      * apply FieldKey_eqb_neq in E.
        rewrite tc_update_other by congruence. reflexivity.
Qed.

(** ** The update loop *)

Section Update.

Variable self : OriginQuery.

Lemma fold_write_tag_other (f : string) (l : list (FieldKey * Entry)) :
  forall item : Item,
    (forall te, In te l -> key_name (fst te) <> f) ->
    fold_left (write_tag self) l item !! f = item !! f.
Proof.
  induction l as [|[tag entry] rest IH]; intros item Hl; [reflexivity|].
  simpl fold_left. rewrite IH.
  - unfold write_tag.
    destruct (negb (str_in (key_name tag) (extra_tags self)));
      [reflexivity|].
    apply lookup_insert_ne. apply (Hl (tag, entry)). left. reflexivity.
  - intros te Hin. apply Hl. right. exact Hin.
Qed.

Lemma fold_write_tag_skip (f : string) (l : list (FieldKey * Entry)) :
  forall item : Item,
    (forall te, In te l -> key_name (fst te) = f ->
                str_in (key_name (fst te)) (extra_tags self) = false) ->
    fold_left (write_tag self) l item !! f = item !! f.
Proof.
  induction l as [|[tag entry] rest IH]; intros item Hl; [reflexivity|].
  simpl fold_left. rewrite IH.
  - unfold write_tag.
    destruct (str_in (key_name tag) (extra_tags self)) eqn:E;
      [|reflexivity].
    simpl. apply lookup_insert_ne. intros Heq.
    specialize (Hl (tag, entry) (or_introl eq_refl) Heq).
    simpl in Hl. congruence.
  - intros te Hin. apply Hl. right. exact Hin.
Qed.

Lemma fold_write_tag_written (l1 l2 : list (FieldKey * Entry))
  (k : FieldKey) (e : Entry) (item : Item) :
  str_in (key_name k) (extra_tags self) = true ->
  (forall te, In te l2 -> key_name (fst te) <> key_name k) ->
  fold_left (write_tag self) (l1 ++ (k, e) :: l2) item !! key_name k
  = Some (value_to_write k (origin e)).
Proof.
  intros Hk Hl2. rewrite fold_left_app. simpl fold_left.
  rewrite fold_write_tag_other by exact Hl2.
  unfold write_tag at 1. rewrite Hk. simpl. apply lookup_insert_eq.
Qed.

(** A field of [extra_tags] holds its origin value after the writes. *)
Lemma write_origin_written (tc : TagCompare) (item : Item) (k : FieldKey) :
  str_in (key_name k) (extra_tags self) = true ->
  write_origin self tc item !! key_name k
  = Some (value_to_write k (origin (tc k))).
Proof.
  intros Hk. unfold write_origin, tc_items, BEETS_TO_LABEL. simpl map.
  assert (Hrest : forall (l2 : list (FieldKey * Entry)),
             forallb (fun te => negb (FieldKey_eqb (fst te) k)) l2 = true ->
             forall te, In te l2 -> key_name (fst te) <> key_name k).
  { intros l2 Hall te Hin Heq. rewrite forallb_forall in Hall.
    specialize (Hall te Hin). apply key_name_inj in Heq.
    rewrite Heq, FieldKey_eqb_refl in Hall. discriminate. }
  destruct k.
  - apply (fold_write_tag_written [] _ media); [exact Hk|].
    apply Hrest. reflexivity.
  - apply (fold_write_tag_written [_] _ year); [exact Hk|].
    apply Hrest. reflexivity.
  - apply (fold_write_tag_written [_; _] _ country); [exact Hk|].
    apply Hrest. reflexivity.
  - apply (fold_write_tag_written [_; _; _] _ label); [exact Hk|].
    apply Hrest. reflexivity.
  - apply (fold_write_tag_written [_; _; _; _] _ catalognum); [exact Hk|].
    apply Hrest. reflexivity.
  - apply (fold_write_tag_written [_; _; _; _; _] _ albumdisambig);
      [exact Hk|].
    apply Hrest. reflexivity.
Qed.

(** A field outside [extra_tags] is not touched by the writes. *)
Lemma write_origin_unwritten (tc : TagCompare) (item : Item) (f : string) :
  (forall k, key_name k = f -> str_in (key_name k) (extra_tags self) = false) ->
  write_origin self tc item !! f = item !! f.
Proof.
  intros Hf. unfold write_origin. apply fold_write_tag_skip.
  intros te _ Heq. apply Hf. exact Heq.
Qed.

(** The writes read the origin values only. *)
Lemma write_origin_ext (tc1 tc2 : TagCompare) (item : Item) :
  (forall k, origin (tc1 k) = origin (tc2 k)) ->
  write_origin self tc1 item = write_origin self tc2 item.
Proof.
  intros Heq. unfold write_origin, tc_items, BEETS_TO_LABEL, write_tag.
  simpl. rewrite !Heq. reflexivity.
Qed.

Lemma update_item_eq (tc : TagCompare) (item : Item) :
  update_item self tc item
  = let item1 := write_origin self tc item in
    if removal_due self item1
    then (tc_update tc media (set_active false), delete "media" item1)
    else (tc, item1).
Proof. reflexivity. Qed.

(** What the loop over the items leaves: each item is updated on its
    own, the entries keep their values, and the media entry is made
    inactive exactly when some item lost its media. *)
Lemma update_items_spec (items : list Item) :
  forall tc : TagCompare,
    let r := update_items self tc items in
    snd r = map (fun item => snd (update_item self tc item)) items
    /\ (forall k, tagged (fst r k) = tagged (tc k)
                  /\ origin (fst r k) = origin (tc k))
    /\ (forall k, k <> media -> active (fst r k) = active (tc k))
    /\ active (fst r media)
       = if existsb (fun item => removal_due self (write_origin self tc item))
                    items
         then false else active (tc media).
Proof.
  induction items as [|item rest IH]; intros tc.
  - simpl. auto.
  - simpl update_items.
    destruct (update_item self tc item) as [tc1 item'] eqn:Hstep.
    specialize (IH tc1).
    destruct (update_items self tc1 rest) as [tc2 rest'] eqn:Hrest.
    simpl in IH. destruct IH as [IHs [IHe [IHa IHm]]].
    assert (Hitem : item' = snd (update_item self tc item))
      by (rewrite Hstep; reflexivity).
    rewrite update_item_eq in Hstep. cbv zeta in Hstep.
    assert (Horg : forall k, tagged (tc1 k) = tagged (tc k)
                             /\ origin (tc1 k) = origin (tc k)).
    { intros k. destruct (removal_due self (write_origin self tc item));
        inversion Hstep; subst; [|auto].
      unfold tc_update. destruct (FieldKey_eqb k media); auto. }
    assert (Hk1 : forall k, k <> media -> active (tc1 k) = active (tc k)).
    { intros k Hk. destruct (removal_due self (write_origin self tc item));
        inversion Hstep; subst; [|reflexivity].
      apply f_equal. apply tc_update_other. exact Hk. }
    assert (Hm1 : active (tc1 media)
                  = if removal_due self (write_origin self tc item)
                    then false else active (tc media)).
    { destruct (removal_due self (write_origin self tc item));
        inversion Hstep; subst; [|reflexivity].
      rewrite tc_update_same. reflexivity. }
    assert (Hw : forall it, write_origin self tc1 it = write_origin self tc it).
    { intros it. apply write_origin_ext. intros k. apply Horg. }
    assert (Hex : existsb (fun it => removal_due self (write_origin self tc1 it)) rest
                  = existsb (fun it => removal_due self (write_origin self tc it)) rest).
    { clear -Hw. induction rest as [|it rest IHr]; [reflexivity|].
      simpl. rewrite Hw, IHr. reflexivity. }
    clear Hstep. cbv zeta. simpl fst. simpl snd. repeat split.
    + rewrite IHs, Hitem. simpl map. f_equal.
      apply map_ext. intros it. rewrite !update_item_eq. cbv zeta.
      rewrite Hw.
      destruct (removal_due self (write_origin self tc it)); reflexivity.
    + rewrite (proj1 (IHe k)). apply Horg.
    + rewrite (proj2 (IHe k)). apply Horg.
    + intros k Hk. rewrite IHa by exact Hk. apply Hk1. exact Hk.
    + rewrite IHm, Hex, Hm1. simpl existsb. clear.
      destruct (removal_due self (write_origin self tc item));
        destruct (existsb _ rest); reflexivity.
Qed.

End Update.

(** ** The handler as a whole *)

Lemma import_task_start_found (self : OriginQuery)
  (fs : string -> OriginFile) (base path : string) (rest : list string)
  (likelies : FieldKey -> PyVal) (items : list Item) :
  import_task_start self fs base (path :: rest) likelies items
  = let st := compared self (fs path) likelies in
    let r := if updates_applied self (snd st)
             then update_items self (fst st) items
             else (fst st, items) in
    ({| ti_origin_path := Globbed path;
        ti_missing_origin := None;
        ti_tag_compare := Some (fst r);
        ti_conflict := if snd st then Some true else None |}, snd r).
Proof.
  unfold import_task_start, compared, updates_applied.
  destruct (run_matches _ _) as [tc c]. simpl.
  destruct (negb c || use_origin_on_conflict self);
    [destruct (update_items self tc items)|]; reflexivity.
Qed.

Lemma init_tag_compare_no_conflict (self : OriginQuery)
  (likelies : FieldKey -> PyVal) :
  false = true <-> exists k, field_conflict k (init_tag_compare self likelies k).
Proof.
  split; [discriminate|].
  intros [k [_ [_ [Ho _]]]]. simpl in Ho. congruence.
Qed.

(** The entries after the matches: tagged values and active flags are the
    initial ones, and the flag tells whether some entry shows a conflict. *)
Lemma compared_spec (self : OriginQuery) (f : OriginFile)
  (likelies : FieldKey -> PyVal) :
  let st := compared self f likelies in
  (snd st = true <-> exists k, field_conflict k (fst st k))
  /\ (forall k, tagged (fst st k) = py_str (likelies k))
  /\ (forall k, active (fst st k) = str_in (key_name k) (extra_tags self)).
Proof.
  unfold compared.
  destruct (run_matches_inv (run_match_fn (match_fn self) f)
              (init_tag_compare self likelies) false
              (init_tag_compare_no_conflict self likelies))
    as [H1 [H2 H3]].
  cbv zeta. split; [exact H1|]. split; intros k.
  - rewrite H2. reflexivity.
  - rewrite H3. reflexivity.
Qed.

(** The entries of the stored [tag_compare] keep the tagged and origin
    values the matches left. *)
Lemma import_entries (self : OriginQuery) (fs : string -> OriginFile)
  (base path : string) (rest : list string) (likelies : FieldKey -> PyVal)
  (items : list Item) :
  exists tc,
    ti_tag_compare (fst (import_task_start self fs base (path :: rest)
                           likelies items)) = Some tc
    /\ forall k,
         tagged (tc k) = tagged (fst (compared self (fs path) likelies) k)
         /\ origin (tc k) = origin (fst (compared self (fs path) likelies) k).
Proof.
  rewrite import_task_start_found. cbv zeta. simpl.
  eexists. split; [reflexivity|]. intros k.
  destruct (updates_applied self _); [|auto].
  apply (update_items_spec self items).
Qed.

(** ** The properties

    The properties of [import_task_start] describe the handler when it
    returns; those of [import_task_start_exn] say when it does not. *)

(** C1.  When a conflict was detected for the task and
    [use_origin_on_conflict] is false, the update loop does not run: the
    items are left exactly as they were (no origin value written, no media
    deleted), whatever the active fields and their values, and no entry of
    [tag_compare] is made inactive. *)
Theorem conflict_blocks_update (self : OriginQuery)
  (fs : string -> OriginFile) (base : string) (origin_glob : list string)
  (likelies : FieldKey -> PyVal) (items : list Item) :
  ti_conflict (fst (import_task_start self fs base origin_glob likelies items))
  = Some true ->
  use_origin_on_conflict self = false ->
  snd (import_task_start self fs base origin_glob likelies items) = items
  /\ forall tc,
       ti_tag_compare
         (fst (import_task_start self fs base origin_glob likelies items))
       = Some tc ->
       forall k, active (tc k) = str_in (key_name k) (extra_tags self).
Proof.
  destruct origin_glob as [|path rest]; [discriminate|].
  rewrite import_task_start_found. cbv zeta. simpl.
  intros Hc Hopt. unfold updates_applied. rewrite Hopt.
  destruct (snd (compared self (fs path) likelies)) eqn:Hsnd;
    [|discriminate].
  simpl. split; [reflexivity|].
  intros tc Htc k. inversion Htc; subst tc.
  apply (compared_spec self (fs path) likelies).
Qed.

Lemma conflict_blocks_update_witness :
  let self := sample_plugin (use_match_text sample_patterns) false false in
  let fs := fun _ : string =>
    text_file [ "Catalog number: XYZ-2" ++ newline;
                "Edition year: 2001" ++ newline ] in
  let run := import_task_start self fs "/music/album" ["/music/album/origin.txt"]
               sample_likelies [sample_item] in
  (ti_conflict (fst run) = Some true
   /\ use_origin_on_conflict self = false
   /\ stored_origin (fst run) year = "2001")
  /\ snd run = [sample_item]
  /\ forall tc, ti_tag_compare (fst run) = Some tc ->
       forall k, active (tc k) = str_in (key_name k) (extra_tags self).
Proof.
  cbv zeta. split; [repeat split|].
  apply (conflict_blocks_update
           (sample_plugin (use_match_text sample_patterns) false false));
    reflexivity.
Defined.

(** A set flag has a source: an entry that shows a conflict. *)
Lemma conflict_has_source (self : OriginQuery) (fs : string -> OriginFile)
  (base : string) (origin_glob : list string) (likelies : FieldKey -> PyVal)
  (items : list Item) :
  let ti := fst (import_task_start self fs base origin_glob likelies items) in
  ti_conflict ti = None
  \/ exists tc k,
       ti_tag_compare ti = Some tc /\ field_conflict k (tc k)
       /\ forall k', tagged (tc k') = py_str (likelies k').
Proof.
  cbv zeta. destruct origin_glob as [|path rest]; [left; reflexivity|].
  destruct (import_entries self fs base path rest likelies items)
    as [tc [Htc Hent]].
  destruct (compared_spec self (fs path) likelies) as [Hflag [Htag _]].
  rewrite Htc. rewrite import_task_start_found. cbv zeta. simpl.
  destruct (snd (compared self (fs path) likelies)); [|left; reflexivity].
  right. destruct (proj1 Hflag eq_refl) as [k Hk].
  exists tc, k. split; [reflexivity|]. split.
  - unfold field_conflict in *. destruct (Hent k) as [-> ->]. exact Hk.
  - intros k'. rewrite (proj1 (Hent k')). apply Htag.
Qed.

(** C2.  The conflict flag of a task is set to true exactly when, in the
    stored comparison, some conflict field ([catalognum] or [media]) has a
    non-empty tagged value and a non-empty sanitized origin value that are
    unequal after the normalization of that field; otherwise the flag stays
    unset.  The tagged value is the text of the host's likely value. *)
Theorem conflict_flag_iff (self : OriginQuery) (fs : string -> OriginFile)
  (base : string) (origin_glob : list string) (likelies : FieldKey -> PyVal)
  (items : list Item) :
  let ti := fst (import_task_start self fs base origin_glob likelies items) in
  (ti_conflict ti = Some true
   <-> exists tc k, ti_tag_compare ti = Some tc /\ field_conflict k (tc k))
  /\ (ti_conflict ti = Some true \/ ti_conflict ti = None)
  /\ (forall tc k, ti_tag_compare ti = Some tc ->
                   tagged (tc k) = py_str (likelies k)).
Proof.
  cbv zeta. destruct origin_glob as [|path rest].
  - simpl. split; [|split; [auto|discriminate]].
    split; [discriminate|]. intros [tc [k [H _]]]. discriminate.
  - destruct (import_entries self fs base path rest likelies items)
      as [tc [Htc Hent]].
    destruct (compared_spec self (fs path) likelies) as [Hflag [Htag _]].
    rewrite Htc.
    assert (Hc : ti_conflict
                   (fst (import_task_start self fs base (path :: rest)
                           likelies items))
                 = if snd (compared self (fs path) likelies)
                   then Some true else None).
    { rewrite import_task_start_found. reflexivity. }
    rewrite Hc. clear Hc Htc.
    assert (Hsame : forall k,
               field_conflict k (tc k)
               <-> field_conflict k (fst (compared self (fs path) likelies) k)).
    { intros k. unfold field_conflict.
      destruct (Hent k) as [-> ->]. reflexivity. }
    split; [|split].
    + split.
      * intros H. destruct (snd (compared self (fs path) likelies));
          [|discriminate].
        destruct (proj1 Hflag eq_refl) as [k Hk].
        exists tc, k. split; [reflexivity|]. apply Hsame. exact Hk.
      * intros [tc' [k [Heq Hk]]]. inversion Heq; subst tc'.
        apply Hsame in Hk.
        rewrite (proj2 Hflag (ex_intro _ k Hk)). reflexivity.
    + destruct (snd (compared self (fs path) likelies)); auto.
    + intros tc' k Heq. inversion Heq; subst tc'.
      rewrite (proj1 (Hent k)). apply Htag.
Qed.

Lemma match_step_similar (tc : TagCompare) (conflict : bool) (raw : str) :
  catno_similar (tagged (tc catalognum)) (sanitize_value "catalognum" raw) ->
  snd (match_step (tc, conflict) (catalognum, raw)) = conflict.
Proof.
  intros Hsim. rewrite match_step_eq.
  destruct (nonempty (origin (tc catalognum))); [reflexivity|].
  cbv zeta. rewrite tc_update_same. unfold conflicting. simpl.
  rewrite (catno_similar_normalize _ _ Hsim), str_eqb_refl.
  rewrite !andb_false_r, orb_false_r. reflexivity.
Qed.
(** The ASCII letters: a small letter becomes the capital 32 places below. *)
Lemma upper_cp_ascii (c : N) :
  (97 <= c <= 122)%N -> upper_cp c = [(c - 32)%N].
Proof.
  intros Hc.
  assert (Hin : In c (map N.of_nat (seq 97 26))).
  { replace c with (N.of_nat (N.to_nat c)) by apply N2Nat.id.
    apply List.in_map. apply List.in_seq. lia. }
  revert Hin. generalize c.
  apply (proj1 (List.Forall_forall (fun c => upper_cp c = [(c - 32)%N]) _)).
  repeat (constructor; [reflexivity|]). constructor.
Qed.

(** C7, as the code has it.  Catalog-number normalization replaces each
    character by its upper-case form ([str.upper], under which some
    characters become two or three) and drops every space and hyphen: the
    result holds no space and no hyphen and only characters that are their
    own upper-case forms, and ["CAT-001"] and ["cat 001"] both normalize to
    ["CAT001"].  Two catalog numbers that differ only in spaces, in hyphens,
    and in letters of which one is the upper-case form of the other (the
    two cases of an ASCII letter, for one) have the same normal form; the
    comparison of such a pair does not set the conflict flag, and a task
    whose tagged and origin catalog numbers are such a pair has no conflict
    unless its media values conflict. *)
Theorem normalize_catno_spec :
  (forall c s,
      normalize_catno (c :: s)
      = (if is_filler c then [] else upper_cp c) ++ normalize_catno s)
  /\ (forall s,
         all_chars (fun c => negb (is_filler c) && str_eqb (upper_cp c) [c])
                   (normalize_catno s) = true)
  /\ (forall c, (97 <= c <= 122)%N -> same_letter c (c - 32))
  /\ normalize_catno "CAT-001" = "CAT001"
  /\ normalize_catno "cat 001" = "CAT001"
  /\ (forall a b, catno_similar a b -> normalize_catno a = normalize_catno b)
  /\ (forall tc conflict raw,
         catno_similar (tagged (tc catalognum))
                       (sanitize_value "catalognum" raw) ->
         snd (match_step (tc, conflict) (catalognum, raw)) = conflict)
  /\ (forall self fs base origin_glob likelies items,
         let ti :=
           fst (import_task_start self fs base origin_glob likelies items) in
         catno_similar (py_str (likelies catalognum))
                       (stored_origin ti catalognum) ->
         py_str (likelies media) = []
         \/ stored_origin ti media = []
         \/ py_str (likelies media) = stored_origin ti media ->
         ti_conflict ti = None).
Proof.
  split; [exact normalize_catno_cons|].
  split; [exact normalize_catno_clean|].
  split; [intros c Hc; right; left; apply upper_cp_ascii; exact Hc|].
  split; [reflexivity|]. split; [reflexivity|].
  split; [exact catno_similar_normalize|].
  split; [exact match_step_similar|].
  intros self fs base origin_glob likelies items ti Hsim Hmedia.
  destruct (conflict_has_source self fs base origin_glob likelies items)
    as [Hc | [tc [k [Htc [Hk Htag]]]]]; [exact Hc|].
  exfalso. fold ti in Htc.
  unfold stored_origin in Hsim, Hmedia. rewrite Htc in Hsim, Hmedia.
  destruct Hk as [[-> | ->] [Ht [Ho Hn]]]; rewrite Htag in Ht, Hn.
  - apply Hn. simpl. apply catno_similar_normalize. exact Hsim.
  - simpl in Hn. destruct Hmedia as [H | [H | H]]; congruence.
Qed.

Ltac solve_similar :=
  repeat first
    [ apply sim_nil
    | apply sim_char;
      [ first [ left; reflexivity
              | right; left; reflexivity
              | right; right; reflexivity ] | ]
    | apply sim_filler_l; [reflexivity | ]
    | apply sim_filler_r; [reflexivity | ] ].

Lemma normalize_catno_spec_witness :
  let self := sample_plugin (use_match_text sample_patterns) false false in
  let fs := fun _ : string =>
    text_file [ "Catalog number: abc1 / second" ++ newline ] in
  let ti := fst (import_task_start self fs "/music/album"
                   ["/music/album/origin.txt"] sample_likelies [sample_item]) in
  catno_similar "ABC-1" "abc1"
  /\ normalize_catno "ABC-1" = normalize_catno "abc1"
  /\ stored_origin ti catalognum = "abc1"
  /\ stored_origin ti media = []
  /\ ti_conflict ti = None.
Proof.
  cbv zeta.
  assert (Hsim : catno_similar "ABC-1" "abc1") by solve_similar.
  destruct normalize_catno_spec as [_ [_ [_ [_ [_ [Hnorm [_ Htask]]]]]]].
  split; [exact Hsim|].
  split; [exact (Hnorm _ _ Hsim)|].
  split; [reflexivity|]. split; [reflexivity|].
  apply Htask; [exact Hsim|]. right. left. reflexivity.
Defined.

(** C7, as stated, fails for a letter whose two cases do not share an
    upper-case form.  The capital sharp s (U+1E9E) and the small sharp s
    (U+00DF) differ only in case: [str.lower] maps the first to the second.
    But the capital is its own upper-case form, while [str.upper] turns the
    small one into ["SS"]; so a task tagged with the catalog number made of
    the capital, whose origin file gives the small one, has a conflict.
    The Kelvin sign (U+212A) and [k] behave in the same way. *)
Lemma sharp_s_counterexample :
  let self := sample_plugin (use_match_text sample_patterns) false false in
  let likelies := fun k : FieldKey =>
    match k with catalognum => PStr [7838%N] | _ => PStr [] end in
  let fs := fun _ : string =>
    text_file [ "Catalog number: " ++ [223%N] ++ newline ] in
  let ti := fst (import_task_start self fs "/music/album"
                   ["/music/album/origin.txt"] likelies [sample_item]) in
  normalize_catno [7838%N] = [7838%N]
  /\ normalize_catno [223%N] = "SS"
  /\ normalize_catno [8490%N] = [8490%N]
  /\ normalize_catno "k" = "K"
  /\ stored_origin ti catalognum = [223%N]
  /\ ti_conflict ti = Some true.
Proof. cbv zeta. repeat split. Qed.

(** ** [sanitize_value] *)

Lemma re_split_first (value : str) :
  exists seg rest,
    re_split comma_or_slash value = seg :: rest /\ first_segment value seg.
Proof.
  induction value as [|c s IH].
  - exists [], []. split; [reflexivity|]. split; [reflexivity|].
    left. reflexivity.
  - simpl. destruct (comma_or_slash c) eqn:Hc.
    + exists [], (re_split comma_or_slash s).
      split; [reflexivity|]. split; [reflexivity|].
      right. exists c, s. split; [exact Hc | reflexivity].
    + destruct IH as [seg [rest [Hsplit [Hall Hval]]]].
      rewrite Hsplit. exists (c :: seg), rest.
      split; [reflexivity|]. split.
      * unfold all_chars in *. simpl. rewrite Hc, Hall. reflexivity.
      * destruct Hval as [-> | [d [more [Hd ->]]]].
        -- left. reflexivity.
        -- right. exists d, more. split; [exact Hd | reflexivity].
Qed.

Lemma lstrip_spec (s : str) :
  exists l,
    s = l ++ lstrip s /\ all_chars is_space l = true
    /\ forall c, first_char (lstrip s) = Some c -> is_space c = false.
Proof.
  unfold all_chars. induction s as [|c s IH].
  - exists []. repeat split. discriminate.
  - simpl. destruct (is_space c) eqn:Hc.
    + destruct IH as [l [Hs [Hl Hf]]]. exists (c :: l).
      split; [exact (f_equal (cons c) Hs)|].
      split; [simpl; rewrite Hc, Hl; reflexivity | exact Hf].
    + exists []. repeat split.
      simpl. intros d Hd. injection Hd as <-. exact Hc.
Qed.

Lemma last_char_none (s : str) : last_char s = None -> s = [].
Proof.
  destruct s as [|c s]; [reflexivity|]. simpl.
  destruct (last_char s); discriminate.
Qed.

Lemma rstrip_spec (s : str) :
  exists r,
    s = rstrip s ++ r /\ all_chars is_space r = true
    /\ forall c, last_char (rstrip s) = Some c -> is_space c = false.
Proof.
  unfold all_chars. induction s as [|c s IH].
  - exists []. repeat split. discriminate.
  - destruct IH as [r [Hs [Hr Hlast]]]. simpl.
    destruct (is_space c && negb (nonempty (rstrip s))) eqn:Hc.
    + apply andb_prop in Hc as [Hc Hemp].
      apply negb_true_iff, nonempty_false in Hemp.
      rewrite Hemp in Hs. simpl in Hs. subst r.
      exists (c :: s). split; [reflexivity|].
      split; [simpl; rewrite Hc, Hr; reflexivity | discriminate].
    + exists r. split; [exact (f_equal (cons c) Hs)|].
      split; [exact Hr|]. simpl. intros d.
      destruct (last_char (rstrip s)) as [e|] eqn:He.
      * intros Hd. injection Hd as <-. apply Hlast. reflexivity.
      * intros Hd. injection Hd as <-.
        apply last_char_none in He. rewrite He in Hc. simpl in Hc.
        rewrite andb_true_r in Hc. exact Hc.
Qed.

Lemma rstrip_first_char (s : str) (c : N) :
  first_char (rstrip s) = Some c -> first_char s = Some c.
Proof.
  destruct s as [|d s]; simpl; [discriminate|].
  destruct (is_space d && negb (nonempty (rstrip s))); [discriminate|].
  simpl. auto.
Qed.

Lemma strip_spec (s : str) : trimmed_of s (strip s).
Proof.
  unfold trimmed_of, strip.
  destruct (lstrip_spec s) as [l [Hs [Hl Hfirst]]].
  destruct (rstrip_spec (lstrip s)) as [r [Ht [Hr Hlast]]].
  split; [|split].
  - exists l, r. split; [|auto]. rewrite <- Ht. exact Hs.
  - intros c Hc. apply Hfirst. apply rstrip_first_char. exact Hc.
  - exact Hlast.
Qed.

(** The two relations determine their second argument. *)

Lemma first_segment_hd (value seg : str) :
  first_segment value seg ->
  hd [] (re_split comma_or_slash value) = seg.
Proof.
  revert value. induction seg as [|a seg IH]; intros value [Hall Hval].
  - destruct Hval as [-> | [c [more [Hc ->]]]]; [reflexivity|].
    simpl. rewrite Hc. reflexivity.
  - unfold all_chars in Hall. simpl in Hall.
    apply andb_prop in Hall as [Ha Hall].
    apply negb_true_iff in Ha.
    assert (Hrest : exists value',
               value = a :: value' /\ first_segment value' seg).
    { destruct Hval as [-> | [c [more [Hc ->]]]].
      - exists seg. split; [reflexivity|]. split; [exact Hall|].
        left. reflexivity.
      - exists (seg ++ c :: more). split; [reflexivity|].
        split; [exact Hall|]. right. exists c, more. auto. }
    destruct Hrest as [value' [-> Hseg]].
    specialize (IH value' Hseg). simpl. rewrite Ha.
    destruct (re_split_first value') as [seg0 [rest0 [Hsplit _]]].
    rewrite Hsplit in IH |- *. simpl in IH |- *. rewrite IH. reflexivity.
Qed.

Lemma lstrip_spaces (l x : str) :
  all_chars is_space l = true -> lstrip (l ++ x) = lstrip x.
Proof.
  unfold all_chars. induction l as [|c l IH]; intros Hl; [reflexivity|].
  simpl in Hl. apply andb_prop in Hl as [Hc Hl].
  simpl. rewrite Hc. apply IH. exact Hl.
Qed.

Lemma lstrip_only_spaces (r : str) :
  all_chars is_space r = true -> lstrip r = [].
Proof.
  unfold all_chars. induction r as [|c r IH]; intros Hr; [reflexivity|].
  simpl in Hr. apply andb_prop in Hr as [Hc Hr].
  simpl. rewrite Hc. apply IH. exact Hr.
Qed.

Lemma rstrip_only_spaces (r : str) :
  all_chars is_space r = true -> rstrip r = [].
Proof.
  unfold all_chars. induction r as [|c r IH]; intros Hr; [reflexivity|].
  simpl in Hr. apply andb_prop in Hr as [Hc Hr].
  simpl. rewrite (IH Hr), Hc. reflexivity.
Qed.

Lemma rstrip_app (t r : str) :
  all_chars is_space r = true ->
  (forall c, last_char t = Some c -> is_space c = false) ->
  rstrip (t ++ r) = t.
Proof.
  intros Hr. induction t as [|c t IH]; intros Hlast.
  - apply rstrip_only_spaces. exact Hr.
  - simpl. rewrite IH.
    + destruct t as [|d t]; simpl; [|rewrite andb_false_r; reflexivity].
      rewrite (Hlast c eq_refl). reflexivity.
    + intros d Hd. apply Hlast. simpl. rewrite Hd. reflexivity.
Qed.

Lemma trimmed_of_strip (s t : str) : trimmed_of s t -> strip s = t.
Proof.
  intros [[l [r [-> [Hl Hr]]]] [Hfirst Hlast]].
  unfold strip. rewrite lstrip_spaces by exact Hl.
  destruct t as [|c t].
  - simpl. rewrite lstrip_only_spaces by exact Hr. reflexivity.
  - simpl lstrip. rewrite (Hfirst c eq_refl).
    apply (rstrip_app (c :: t) r Hr Hlast).
Qed.

(** C5.  [sanitize_value]: for key [media], the value ["WEB"] becomes
    ["Digital Media"] and any other value is unchanged; for keys
    [catalognum] and [label], the result is the text before the first [,] or
    [/] with the white space around it removed (white space as [str.strip]
    has it, on every code point), and nothing else is; for key [year], the
    value ["0"] becomes the empty string and any other value is unchanged;
    for every other key the value is unchanged. *)
Theorem sanitize_value_spec (key : string) (value : str) :
  (key = "media" ->
     (value = "WEB" -> sanitize_value key value = "Digital Media")
     /\ (value <> "WEB" -> sanitize_value key value = value))
  /\ (key = "catalognum" \/ key = "label" ->
      exists seg,
        first_segment value seg /\ trimmed_of seg (sanitize_value key value))
  /\ (key = "catalognum" \/ key = "label" ->
      forall seg t,
        first_segment value seg -> trimmed_of seg t ->
        sanitize_value key value = t)
  /\ (key = "year" ->
      (value = "0" -> sanitize_value key value = [])
      /\ (value <> "0" -> sanitize_value key value = value))
  /\ (key <> "media" -> key <> "catalognum" -> key <> "label" ->
      key <> "year" -> sanitize_value key value = value).
Proof.
  assert (Hsplit : key = "catalognum" \/ key = "label" ->
                   sanitize_value key value
                   = strip (hd [] (re_split comma_or_slash value))).
  { intros [-> | ->]; reflexivity. }
  split; [|split; [|split; [|split]]];
    [| | intros Hk seg t Hseg Htrim;
         rewrite (Hsplit Hk), (first_segment_hd value seg Hseg);
         apply trimmed_of_strip; exact Htrim | |];
    clear Hsplit; unfold sanitize_value.
  - intros ->. split.
    + intros ->. reflexivity.
    + intros Hv. apply str_eqb_neq in Hv.
      cbn [String.eqb Ascii.eqb Bool.eqb andb]. rewrite Hv. reflexivity.
  - intros Hk.
    assert (Hor : (String.eqb key "catalognum" || String.eqb key "label")
                  = true).
    { destruct Hk as [-> | ->]; reflexivity. }
    assert (Hm : String.eqb key "media" = false).
    { destruct Hk as [-> | ->]; reflexivity. }
    rewrite Hm, Hor. cbn [andb].
    destruct (re_split_first value) as [seg [rest [-> Hseg]]].
    exists seg. split; [exact Hseg|]. simpl hd. apply strip_spec.
  - intros ->. split.
    + intros ->. reflexivity.
    + intros Hv. apply str_eqb_neq in Hv.
      cbn [String.eqb Ascii.eqb Bool.eqb andb orb]. rewrite Hv. reflexivity.
  - intros Hm Hc Hl Hy.
    apply String.eqb_neq in Hm, Hc, Hl, Hy.
    rewrite Hm, Hc, Hl, Hy. reflexivity.
Qed.

Lemma sanitize_value_spec_witness :
  sanitize_value "media" "WEB" = "Digital Media"
  /\ sanitize_value "media" "Vinyl" = "Vinyl"
  /\ (exists seg,
        first_segment " ABC 1 / XYZ, 2" seg
        /\ trimmed_of seg (sanitize_value "catalognum" " ABC 1 / XYZ, 2"))
  /\ sanitize_value "catalognum" ([160%N] ++ "Warp" ++ [133%N]) = "Warp"
  /\ sanitize_value "year" "0" = []
  /\ sanitize_value "year" "2000" = "2000"
  /\ sanitize_value "country" "US / UK" = "US / UK".
Proof.
  destruct (sanitize_value_spec "media" "WEB") as [Hweb _].
  destruct (sanitize_value_spec "media" "Vinyl") as [Hvinyl _].
  destruct (sanitize_value_spec "catalognum" " ABC 1 / XYZ, 2")
    as [_ [Hcat _]].
  destruct (sanitize_value_spec "catalognum" ([160%N] ++ "Warp" ++ [133%N]))
    as [_ [_ [Hnbsp _]]].
  destruct (sanitize_value_spec "year" "0") as [_ [_ [_ [Hzero _]]]].
  destruct (sanitize_value_spec "year" "2000") as [_ [_ [_ [Hyear _]]]].
  destruct (sanitize_value_spec "country" "US / UK")
    as [_ [_ [_ [_ Hother]]]].
  split; [apply Hweb; reflexivity|].
  split; [apply Hvinyl; [reflexivity | discriminate]|].
  split; [apply Hcat; left; reflexivity|].
  split.
  { apply (Hnbsp (or_introl eq_refl) ([160%N] ++ "Warp" ++ [133%N])).
    - split; [reflexivity | left; reflexivity].
    - split; [|split].
      + exists [160%N], [133%N]. repeat split.
      + intros c Hc. injection Hc as <-. reflexivity.
      + intros c Hc. injection Hc as <-. reflexivity. }
  split; [apply Hzero; reflexivity|].
  split; [apply Hyear; [reflexivity | discriminate]|].
  apply Hother; discriminate.
Defined.

(** ** The matchers *)

Lemma values_for_app (k : FieldKey) (a b : list (FieldKey * str)) :
  values_for k (a ++ b)%list = (values_for k a ++ values_for k b)%list.
Proof. unfold values_for. rewrite List.filter_app, map_app. reflexivity. Qed.

Lemma match_text_app (a b : list (FieldKey * Regex)) (lines : list str) :
  match_text (a ++ b)%list lines
  = (match_text a lines ++ match_text b lines)%list.
Proof.
  induction a as [|[key pattern] a IH]; [reflexivity|].
  simpl. rewrite IH, app_assoc. reflexivity.
Qed.

Lemma values_for_match_lines (k key : FieldKey) (pattern : Regex)
  (lines : list str) :
  values_for k (match_lines key pattern lines)
  = if FieldKey_eqb key k then map snd (match_lines key pattern lines) else [].
Proof.
  unfold values_for.
  induction lines as [|line rest IH]; simpl.
  - destruct (FieldKey_eqb key k); reflexivity.
  - destruct (pattern (strip line)) as [group1|]; [|exact IH].
    simpl. destruct (FieldKey_eqb key k) eqn:E; simpl; rewrite IH;
      reflexivity.
Qed.

Lemma values_for_match_text_absent (k : FieldKey)
  (pats : list (FieldKey * Regex)) (lines : list str) :
  (forall q, ~ In (k, q) pats) -> values_for k (match_text pats lines) = [].
Proof.
  induction pats as [|[key pattern] pats IH]; intros Habs; [reflexivity|].
  simpl. rewrite values_for_app, values_for_match_lines, IH.
  - destruct (FieldKey_eqb key k) eqn:E; [|reflexivity].
    apply FieldKey_eqb_eq in E. subst key.
    exfalso. apply (Habs pattern). left. reflexivity.
  - intros q Hq. apply (Habs q). right. exact Hq.
Qed.

Lemma match_lines_first (key : FieldKey) (pattern : Regex)
  (pre post : list str) (l1 c1 : str) :
  (forall l, In l pre -> pattern (strip l) = None) ->
  pattern (strip l1) = Some c1 ->
  match_lines key pattern (pre ++ l1 :: post)%list
  = (key, c1) :: match_lines key pattern post.
Proof.
  intros Hpre Hl1. induction pre as [|l pre IH]; simpl.
  - rewrite Hl1. reflexivity.
  - rewrite (Hpre l (or_introl eq_refl)). apply IH.
    intros l' Hl'. apply Hpre. right. exact Hl'.
Qed.

(** The origin value stored for a field: the first non-empty sanitized
    value among the matches of that field. *)
Lemma stored_origin_char (self : OriginQuery) (fs : string -> OriginFile)
  (base path : string) (rest : list string) (likelies : FieldKey -> PyVal)
  (items : list Item) (k : FieldKey) :
  stored_origin
    (fst (import_task_start self fs base (path :: rest) likelies items)) k
  = first_nonempty
      (map (sanitize_value (key_name k))
           (values_for k (run_match_fn (match_fn self) (fs path)))).
Proof.
  destruct (import_entries self fs base path rest likelies items)
    as [tc [Htc Hent]].
  unfold stored_origin. rewrite Htc, (proj2 (Hent k)).
  unfold compared. rewrite run_matches_origin. reflexivity.
Qed.

(** C4, as the code has it.  The origin value stored for a field is the
    sanitized value of the first match of that field whose sanitized value
    is not empty (the empty string when there is none); every later match of
    the field is ignored.  In particular, in a text document, when the first
    line that matches the pattern of a field has a capture whose sanitized
    value is not empty, the stored origin value is that sanitized capture,
    whatever lines follow. *)
Theorem first_usable_match_wins (self : OriginQuery)
  (fs : string -> OriginFile) (base path : string) (rest : list string)
  (likelies : FieldKey -> PyVal) (items : list Item) (k : FieldKey) :
  let ti :=
    fst (import_task_start self fs base (path :: rest) likelies items) in
  stored_origin ti k
  = first_nonempty
      (map (sanitize_value (key_name k))
           (values_for k (run_match_fn (match_fn self) (fs path))))
  /\ (forall pats before pattern after pre l1 post c1,
         match_fn self = use_match_text pats ->
         pats = (before ++ (k, pattern) :: after)%list ->
         (forall q, ~ In (k, q) before) ->
         readlines (fs path) = (pre ++ l1 :: post)%list ->
         (forall l, In l pre -> pattern (strip l) = None) ->
         pattern (strip l1) = Some c1 ->
         sanitize_value (key_name k) c1 <> [] ->
         stored_origin ti k = sanitize_value (key_name k) c1).
Proof.
  cbv zeta. split; [apply stored_origin_char|].
  intros pats before pattern after pre l1 post c1
         Hfn Hpats Hbefore Hlines Hpre Hl1 Hne.
  rewrite stored_origin_char, Hfn. simpl run_match_fn.
  rewrite Hpats, Hlines, match_text_app, values_for_app.
  rewrite values_for_match_text_absent by exact Hbefore.
  simpl match_text. rewrite values_for_app, values_for_match_lines.
  rewrite FieldKey_eqb_refl.
  rewrite (match_lines_first k pattern pre post l1 c1 Hpre Hl1).
  simpl. apply nonempty_true in Hne. rewrite Hne. reflexivity.
Qed.

Lemma first_usable_match_wins_witness :
  let self := sample_plugin (use_match_text sample_patterns) false false in
  let lines := [ "Origin data" ++ newline;
                 "  Catalog number: ABC-1 / DEF-2" ++ newline;
                 "Catalog number: ZZZ-9" ++ newline ] in
  let ti := fst (import_task_start self (fun _ => text_file lines)
                   "/music/album" ["/music/album/origin.txt"]
                   sample_likelies [sample_item]) in
  (prefix_pattern "Catalog number: " (strip "  Catalog number: ABC-1 / DEF-2")
   = Some (text "ABC-1 / DEF-2")
   /\ prefix_pattern "Catalog number: " (strip "Catalog number: ZZZ-9")
      = Some (text "ZZZ-9"))
  /\ stored_origin ti catalognum = "ABC-1".
Proof.
  cbv zeta. split; [split; reflexivity|].
  refine (proj2 (first_usable_match_wins
                   (sample_plugin (use_match_text sample_patterns) false false)
                   _ _ _ _ _ _ catalognum)
            sample_patterns
            [ (media, prefix_pattern "Media: ");
              (year, prefix_pattern "Edition year: ") ]
            (prefix_pattern "Catalog number: ")
            [ (label, prefix_pattern "Record label: ") ]
            [ "Origin data" ++ newline ]
            ("  Catalog number: ABC-1 / DEF-2" ++ newline)
            [ "Catalog number: ZZZ-9" ++ newline ]
            "ABC-1 / DEF-2" _ _ _ _ _ _ _); try reflexivity.
  - intros q [H | [H | []]]; discriminate.
  - intros l [<- | []]. reflexivity.
  - discriminate.
Defined.

(** C4, as stated, fails on two counts.  The stored value is the sanitized
    capture, not the capture: with the lines [Media: WEB] and [Media: CD] the
    stored media origin is ["Digital Media"].  And a first match that
    sanitizes to the empty string does not close the field: with the lines
    [Edition year: 0] and [Edition year: 1999] the stored year origin is the
    capture of the second line. *)
Lemma first_match_wins_counterexample :
  let self := sample_plugin (use_match_text sample_patterns) false false in
  let lines := [ "Media: WEB" ++ newline; "Media: CD" ++ newline;
                 "Edition year: 0" ++ newline;
                 "Edition year: 1999" ++ newline ] in
  let ti := fst (import_task_start self (fun _ => text_file lines)
                   "/music/album" ["/music/album/origin.txt"]
                   sample_likelies [sample_item]) in
  match_text sample_patterns lines
  = [ (media, text "WEB"); (media, text "CD");
      (year, text "0"); (year, text "1999") ]
  /\ stored_origin ti media = "Digital Media"
  /\ stored_origin ti media <> "WEB"
  /\ stored_origin ti year = "1999"
  /\ stored_origin ti year <> "0".
Proof.
  cbv zeta. split; [reflexivity|]. split; [reflexivity|].
  split; [vm_compute; discriminate|]. split; [reflexivity|].
  vm_compute. discriminate.
Qed.

(** ** The update phase of the handler *)

(** What the handler leaves when the updates are applied. *)
Lemma import_applied (self : OriginQuery) (fs : string -> OriginFile)
  (base path : string) (rest : list string) (likelies : FieldKey -> PyVal)
  (items : list Item) :
  let st := compared self (fs path) likelies in
  let run := import_task_start self fs base (path :: rest) likelies items in
  updates_applied self (snd st) = true ->
  snd run = map (fun item => snd (update_item self (fst st) item)) items
  /\ exists tc,
       ti_tag_compare (fst run) = Some tc
       /\ (forall k, origin (tc k) = origin (fst st k))
       /\ (forall k, k <> media ->
                     active (tc k) = str_in (key_name k) (extra_tags self))
       /\ active (tc media)
          = if existsb (fun item => removal_due self (written self st item))
                       items
            then false else str_in "media" (extra_tags self).
Proof.
  cbv zeta. intros Happ. rewrite import_task_start_found. cbv zeta.
  rewrite Happ. simpl.
  destruct (update_items_spec self items
              (fst (compared self (fs path) likelies)))
    as [Hitems [Hent [Hact Hmedia]]].
  destruct (compared_spec self (fs path) likelies) as [_ [_ Hinit]].
  split; [exact Hitems|].
  eexists. split; [reflexivity|]. split; [|split].
  - intros k. apply Hent.
  - intros k Hk. rewrite Hact by exact Hk. apply Hinit.
  - rewrite Hmedia, Hinit. reflexivity.
Qed.




Lemma value_to_write_cases (k : FieldKey) (o : str) :
  (k <> year -> value_to_write k o = PStr o)
  /\ (o = [] -> value_to_write k o = PStr [])
  /\ (k = year -> o <> [] -> isdigit o = true ->
      value_to_write k o = PInt (py_int o))
  /\ (k = year -> o <> [] -> isdigit o = false ->
      value_to_write k o = PStr []).
Proof.
  unfold value_to_write. split; [|split; [|split]].
  - intros Hk. destruct k; try reflexivity. congruence.
  - intros ->. destruct k; reflexivity.
  - intros -> Ho Hd. apply nonempty_true in Ho. simpl. rewrite Ho, Hd.
    reflexivity.
  - intros -> Ho Hd. apply nonempty_true in Ho. simpl. rewrite Ho, Hd.
    reflexivity.
Qed.
(** ** The JSON and YAML strategies *)

Lemma match_json_in (pats : list (FieldKey * JsonPath)) (data : PyVal)
  (k : FieldKey) (v : str) :
  In (k, v) (match_json pats data)
  <-> exists pattern m0 more,
        In (k, pattern) pats /\ pattern data = m0 :: more /\ v = py_str m0.
Proof.
  induction pats as [|[key pattern] pats IH]; simpl.
  - split; [intros [] | intros [p [m0 [more [[] _]]]]].
  - split.
    + intros Hin.
      assert (Hcase :
                (exists m0 more, pattern data = m0 :: more
                                 /\ (k, v) = (key, py_str m0))
                \/ In (k, v) (match_json pats data)).
      { destruct (pattern data) as [|m0 more]; [right; exact Hin|].
        destruct Hin as [Heq | Hin]; [left | right; exact Hin].
        exists m0, more. split; [reflexivity | symmetry; exact Heq]. }
      destruct Hcase as [[m0 [more [Hp Heq]]] | Hrest].
      * injection Heq as -> ->. exists pattern, m0, more. auto.
      * apply IH in Hrest. destruct Hrest as [p [m0 [more [Hp [Hd Hv]]]]].
        exists p, m0, more. auto.
    + intros [p [m0 [more [[Heq | Hin] [Hd Hv]]]]].
      * injection Heq as -> ->. rewrite Hd. left. rewrite Hv. reflexivity.
      * assert (Hrest : In (k, v) (match_json pats data)).
        { apply IH. exists p, m0, more. auto. }
        destruct (pattern data); [exact Hrest | right; exact Hrest].
Qed.

Lemma match_yaml_in (pats : list (FieldKey * JsonPath)) (data : PyVal)
  (k : FieldKey) (v : str) :
  In (k, v) (match_yaml pats data)
  <-> exists pattern m0 more,
        In (k, pattern) pats /\ pattern data = m0 :: more
        /\ truthy m0 = true /\ v = py_str m0.
Proof.
  induction pats as [|[key pattern] pats IH]; simpl.
  - split; [intros [] | intros [p [m0 [more [[] _]]]]].
  - split.
    + intros Hin.
      assert (Hcase :
                (exists m0 more, pattern data = m0 :: more
                                 /\ truthy m0 = true
                                 /\ (k, v) = (key, py_str m0))
                \/ In (k, v) (match_yaml pats data)).
      { destruct (pattern data) as [|m0 more]; [right; exact Hin|].
        destruct (truthy m0) eqn:Ht; simpl in Hin; [|right; exact Hin].
        destruct Hin as [Heq | Hin]; [left | right; exact Hin].
        exists m0, more. repeat split; [exact Ht | symmetry; exact Heq]. }
      destruct Hcase as [[m0 [more [Hp [Ht Heq]]]] | Hrest].
      * injection Heq as -> ->. exists pattern, m0, more. auto.
      * apply IH in Hrest.
        destruct Hrest as [p [m0 [more [Hp [Hd [Ht Hv]]]]]].
        exists p, m0, more. auto.
    + intros [p [m0 [more [[Heq | Hin] [Hd [Ht Hv]]]]]].
      * injection Heq as -> ->. rewrite Hd, Ht. simpl. left.
        rewrite Hv. reflexivity.
      * assert (Hrest : In (k, v) (match_yaml pats data)).
        { apply IH. exists p, m0, more. auto. }
        destruct (pattern data) as [|m more']; [exact Hrest|].
        destruct (truthy m); simpl; [right; exact Hrest | exact Hrest].
Qed.

Lemma values_for_none (k : FieldKey) (matches : list (FieldKey * str)) :
  (forall v, ~ In (k, v) matches) -> values_for k matches = [].
Proof.
  unfold values_for. induction matches as [|[key v] rest IH]; intros Hno;
    [reflexivity|].
  simpl. destruct (FieldKey_eqb key k) eqn:E.
  - apply FieldKey_eqb_eq in E. subst key.
    exfalso. apply (Hno v). left. reflexivity.
  - apply IH. intros v' Hin. apply (Hno v'). right. exact Hin.
Qed.

(** C8.  In the YAML strategy, when the value that a field's path locates
    first is empty or otherwise false, the field has no match: the matcher
    yields no pair for it and the origin value stored for it stays empty. *)
Theorem yaml_falsy_is_no_match (self : OriginQuery)
  (fs : string -> OriginFile) (base path : string) (rest : list string)
  (likelies : FieldKey -> PyVal) (items : list Item)
  (pats : list (FieldKey * JsonPath)) (k : FieldKey) :
  match_fn self = use_match_yaml pats ->
  (forall pattern m0 more,
      In (k, pattern) pats -> pattern (yaml_load (fs path)) = m0 :: more ->
      truthy m0 = false) ->
  (forall v, ~ In (k, v) (match_yaml pats (yaml_load (fs path))))
  /\ stored_origin
       (fst (import_task_start self fs base (path :: rest) likelies items)) k
     = [].
Proof.
  intros Hfn Hfalsy.
  assert (Hno : forall v, ~ In (k, v) (match_yaml pats (yaml_load (fs path)))).
  { intros v Hin. apply match_yaml_in in Hin.
    destruct Hin as [p [m0 [more [Hp [Hd [Ht _]]]]]].
    rewrite (Hfalsy p m0 more Hp Hd) in Ht. discriminate. }
  split; [exact Hno|].
  rewrite stored_origin_char, Hfn. simpl run_match_fn.
  rewrite values_for_none by exact Hno. reflexivity.
Qed.

Lemma yaml_falsy_is_no_match_witness :
  let data := PDict [ (PStr "Media", PStr []);
                      (PStr "Edition year", PInt 0);
                      (PStr "Catalog number", PStr "ABC-1") ] in
  let self := sample_plugin (use_match_yaml sample_paths) false false in
  let fs := fun _ : string => tree_file data in
  let ti := fst (import_task_start self fs "/music/album"
                   ["/music/album/origin.yaml"] sample_likelies
                   [sample_item]) in
  (field_path "Edition year" data = [PInt 0] /\ truthy (PInt 0) = false)
  /\ match_yaml sample_paths data = [(catalognum, text "ABC-1")]
  /\ (forall v, ~ In (year, v) (match_yaml sample_paths data))
  /\ stored_origin ti year = [].
Proof.
  cbv zeta. split; [split; reflexivity|]. split; [reflexivity|].
  apply (yaml_falsy_is_no_match
           (sample_plugin (use_match_yaml sample_paths) false false)
           (fun _ => tree_file
                       (PDict [ (PStr "Media", PStr []);
                                (PStr "Edition year", PInt 0);
                                (PStr "Catalog number", PStr "ABC-1") ]))
           "/music/album" "/music/album/origin.yaml" [] sample_likelies
           [sample_item] sample_paths year eq_refl).
  intros pattern m0 more Hin Hd.
  destruct Hin as [H | [H | [H | [H | []]]]]; try discriminate H.
  injection H as <-. injection Hd as <- _. reflexivity.
Defined.

(** C10.  In the JSON strategy every field whose path locates a node has a
    match, whatever the value of the node: the pair carries the text of the
    first located value as [str] gives it, with no test of emptiness.  A
    null yields the text ["None"] and an empty string yields an empty
    match. *)
Theorem json_any_node_matches (pats : list (FieldKey * JsonPath))
  (data : PyVal) :
  (forall k v,
      In (k, v) (match_json pats data)
      <-> exists pattern m0 more,
            In (k, pattern) pats /\ pattern data = m0 :: more
            /\ v = py_str m0)
  /\ py_str PNone = "None"
  /\ py_str (PStr []) = []
  /\ (forall k pattern more,
         In (k, pattern) pats -> pattern data = PNone :: more ->
         In (k, text "None") (match_json pats data))
  /\ (forall k pattern more,
         In (k, pattern) pats -> pattern data = PStr [] :: more ->
         In (k, []) (match_json pats data)).
Proof.
  split; [intros k v; apply match_json_in|].
  split; [reflexivity|]. split; [reflexivity|]. split.
  - intros k pattern more Hin Hd. apply match_json_in.
    exists pattern, PNone, more. auto.
  - intros k pattern more Hin Hd. apply match_json_in.
    exists pattern, (PStr []), more. auto.
Qed.

Lemma json_any_node_matches_witness :
  let data := PDict [ (PStr "Media", PNone);
                      (PStr "Edition year", PInt 0);
                      (PStr "Record label", PStr []) ] in
  let self := sample_plugin (use_match_json sample_paths) false false in
  let ti := fst (import_task_start self (fun _ => tree_file data)
                   "/music/album" ["/music/album/origin.json"]
                   sample_likelies [sample_item]) in
  In (media, text "None") (match_json sample_paths data)
  /\ In (label, []) (match_json sample_paths data)
  /\ match_json sample_paths data
     = [(media, text "None"); (year, text "0"); (label, [])]
  /\ match_yaml sample_paths data = []
  /\ stored_origin ti media = "None".
Proof.
  cbv zeta.
  destruct (json_any_node_matches sample_paths
              (PDict [ (PStr "Media", PNone);
                       (PStr "Edition year", PInt 0);
                       (PStr "Record label", PStr []) ]))
    as [_ [_ [_ [Hnull Hempty]]]].
  split.
  { apply (Hnull media (field_path "Media") []); [|reflexivity].
    left. reflexivity. }
  split.
  { apply (Hempty label (field_path "Record label") []); [|reflexivity].
    right. right. right. left. reflexivity. }
  repeat split.
Defined.
(** ** The choice of the matching function *)

Lemma from_last_dot_shape (s t : string) :
  from_last_dot s = Some t -> exists e, t = String "." e.
Proof.
  revert t. induction s as [|c s IH]; intros t; simpl; [discriminate|].
  destruct (from_last_dot s) as [u|].
  - intros H. injection H as <-. apply IH. reflexivity.
  - destruct (Ascii.eqb c ".") eqn:E; [|discriminate].
    apply Ascii.eqb_eq in E. subst c.
    intros H. injection H as <-. exists s. reflexivity.
Qed.

Lemma suffix_shape (name : string) :
  suffix name = EmptyString \/ exists e, suffix name = String "." e.
Proof.
  unfold suffix. destruct name as [|c rest]; [left; reflexivity|].
  destruct (from_last_dot rest) as [t|] eqn:E; [|left; reflexivity].
  destruct (Nat.leb 2 (String.length t)); [|left; reflexivity].
  right. apply from_last_dot_shape with (s := rest). exact E.
Qed.

Lemma origin_type_of_suffix (name : string) (c : ascii) (ext : string) :
  String.eqb (drop_first (lower (suffix name))) (String c ext)
  = String.eqb (lower (suffix name)) (String "." (String c ext)).
Proof.
  destruct (suffix_shape name) as [-> | [e ->]]; reflexivity.
Qed.

Lemma from_last_dot_none (s : string) :
  has_char "." s = false -> from_last_dot s = None.
Proof.
  induction s as [|c s IH]; simpl; [reflexivity|].
  intros H. apply orb_false_iff in H as [Hc Hs].
  rewrite (IH Hs), Hc. reflexivity.
Qed.

Lemma from_last_dot_ext (stem ext : string) :
  has_char "." ext = false ->
  from_last_dot (stem +:+ String "." ext) = Some (String "." ext).
Proof.
  intros Hext. induction stem as [|c stem IH].
  - change (from_last_dot (String "." ext) = Some (String "." ext)).
    simpl. rewrite (from_last_dot_none ext Hext). reflexivity.
  - change (from_last_dot (String c (stem +:+ String "." ext))
            = Some (String "." ext)).
    simpl. rewrite IH. reflexivity.
Qed.

(** The suffix of [stem.ext]. *)
Lemma suffix_ext (stem ext : string) :
  stem <> EmptyString -> ext <> EmptyString -> has_char "." ext = false ->
  suffix (stem +:+ String "." ext) = String "." ext.
Proof.
  intros Hstem Hne Hext. destruct stem as [|c stem]; [contradiction|].
  change (suffix (String c (stem +:+ String "." ext)) = String "." ext).
  unfold suffix. rewrite (from_last_dot_ext stem ext Hext).
  destruct ext as [|d ext]; [contradiction|]. reflexivity.
Qed.

(** C3, as the code has it.  A configured [origin_type] that is one of
    [yaml], [json], [text] decides the matching function, whatever the
    origin file is called (any other configured value makes initialization
    fail).  With no configured type the choice follows the lower-cased
    suffix of the origin file: [.json] selects the JSON matcher, [.yaml] the
    YAML matcher, and every other suffix, [.yml] included, the text
    matcher. *)
Theorem match_fn_selection :
  (forall name,
      init_match_fn (Some "json") name = Some match_json_m
      /\ init_match_fn (Some "yaml") name = Some match_yaml_m
      /\ init_match_fn (Some "text") name = Some match_text_m)
  /\ (forall v name,
         v <> "json" -> v <> "yaml" -> v <> "text" ->
         init_match_fn (Some v) name = None)
  /\ (forall name,
         init_match_fn None name
         = Some (if String.eqb (lower (suffix name)) ".json" then match_json_m
                 else if String.eqb (lower (suffix name)) ".yaml"
                      then match_yaml_m
                      else match_text_m))
  /\ (forall stem ext,
         stem <> EmptyString -> ext <> EmptyString ->
         has_char "." ext = false ->
         init_match_fn None (stem +:+ String "." ext)
         = Some (if String.eqb (lower ext) "json" then match_json_m
                 else if String.eqb (lower ext) "yaml" then match_yaml_m
                 else match_text_m))
  /\ (forall stem,
         stem <> EmptyString ->
         init_match_fn None (stem +:+ ".yml") = Some match_text_m).
Proof.
  assert (Hsuffix : forall name,
             init_match_fn None name
             = Some (if String.eqb (lower (suffix name)) ".json"
                     then match_json_m
                     else if String.eqb (lower (suffix name)) ".yaml"
                          then match_yaml_m
                          else match_text_m)).
  { intros name. unfold init_match_fn, resolve_origin_type, choose_match_fn.
    simpl. rewrite !origin_type_of_suffix. reflexivity. }
  assert (Hext : forall stem ext,
             stem <> EmptyString -> ext <> EmptyString ->
             has_char "." ext = false ->
             init_match_fn None (stem +:+ String "." ext)
             = Some (if String.eqb (lower ext) "json" then match_json_m
                     else if String.eqb (lower ext) "yaml" then match_yaml_m
                     else match_text_m)).
  { intros stem ext Hstem Hne Hdot.
    rewrite Hsuffix, (suffix_ext stem ext Hstem Hne Hdot). reflexivity. }
  split; [intros name; repeat split|].
  split; [|split; [exact Hsuffix|split; [exact Hext|]]].
  - intros v name Hj Hy Ht.
    unfold init_match_fn, resolve_origin_type, as_choice, str_in. simpl.
    apply String.eqb_neq in Hj, Hy, Ht. rewrite Hj, Hy, Ht. reflexivity.
  - intros stem Hstem. apply (Hext stem "yml"); [exact Hstem | discriminate |].
    reflexivity.
Qed.

Lemma match_fn_selection_witness :
  init_match_fn (Some "yaml") "origin.json" = Some match_yaml_m
  /\ init_match_fn (Some "YAML") "origin.yaml" = None
  /\ init_match_fn None "origin.JSON" = Some match_json_m
  /\ init_match_fn None "origin.yaml" = Some match_yaml_m
  /\ init_match_fn None "origin.txt" = Some match_text_m
  /\ init_match_fn None "origin.yml" = Some match_text_m.
Proof.
  destruct match_fn_selection as [Hset [Hbad [_ [Hext Hyml]]]].
  split; [apply (Hset "origin.json")|].
  split; [apply Hbad; discriminate|].
  split; [apply (Hext "origin" "JSON"); [discriminate | discriminate | reflexivity]|].
  split; [apply (Hext "origin" "yaml"); [discriminate | discriminate | reflexivity]|].
  split; [apply (Hext "origin" "txt"); [discriminate | discriminate | reflexivity]|].
  apply (Hyml "origin"). discriminate.
Defined.

(** C3, as stated, fails for [.yml]: an origin file called [origin.yml],
    with no configured type, is matched as text, not as YAML. *)
Lemma yml_extension_counterexample :
  suffix "origin.yml" = ".yml"
  /\ resolve_origin_type None "origin.yml" = Some "yml"
  /\ init_match_fn None "origin.yml" = Some match_text_m
  /\ init_match_fn None "origin.yml" <> Some match_yaml_m.
Proof. repeat split. discriminate. Qed.
(** ** Sanity checks of the model *)

Example unicode_data_ex :
  length UPPER = 1525
  /\ upper_cp 223 = "SS" /\ upper_cp 233 = [201%N] /\ upper_cp 255 = [376%N]
  /\ upper_cp 7838 = [7838%N] /\ upper_cp 8490 = [8490%N]
  /\ upper_cp 65 = [65%N] /\ upper_cp 48 = [48%N]
  /\ length (List.filter is_space (map N.of_nat (seq 0 (N.to_nat 12289)))) = 29
  /\ length (List.filter is_decimal (map N.of_nat (seq 0 2000))) = 40
  /\ decimal_value 1636 = Some 4%N
  /\ is_digit 178 = true /\ is_decimal 178 = false.
Proof. vm_compute. repeat split. Qed.

Example normalize_catno_ex :
  normalize_catno "cat 001-b" = "CAT001B"
  /\ normalize_catno [233%N; 32%N; 223%N] = [201%N; 83%N; 83%N].
Proof. split; reflexivity. Qed.

Example sanitize_value_ex :
  sanitize_value "catalognum" " ABC 1 / XYZ" = "ABC 1"
  /\ sanitize_value "label" ",Label" = []
  /\ sanitize_value "year" "00" = "00".
Proof. repeat split. Qed.

Example strip_ex :
  strip (9%N :: " a b " ++ newline) = "a b"
  /\ strip ([160%N; 8195%N] ++ "Media: CD" ++ [12288%N; 133%N]) = "Media: CD".
Proof. split; reflexivity. Qed.

Example re_split_ex :
  re_split comma_or_slash "a,b/c," = [text "a"; text "b"; text "c"; []].
Proof. reflexivity. Qed.

Example py_str_ex :
  py_str (PInt (-1999)) = "-1999"
  /\ py_str (PBool true) = "True"
  /\ py_str (PList [PStr "a'b"; PInt 0; PNone])
     = "[" ++ dquote :: "a'b" ++ dquote :: ", 0, None]"
  /\ py_str (PList [PStr [160%N; 233%N; 8232%N]])
     = "['\xa0" ++ 233%N :: "\u2028']"
  /\ py_str (PObj true "2004.5" "2004.5") = "2004.5".
Proof. repeat split. Qed.

Example isdigit_ex :
  isdigit "2004" = true
  /\ isdigit [1634%N; 1632%N; 1632%N; 1636%N] = true
  /\ isdigit [178%N] = true
  /\ isdigit "19x9" = false
  /\ isdigit [] = false
  /\ int_of_digits [1634%N; 1632%N; 1632%N; 1636%N] = Some 2004%Z
  /\ int_of_digits [178%N] = None.
Proof. repeat split. Qed.

Example value_to_write_ex :
  value_to_write year "0071" = PInt 71
  /\ value_to_write year "19x9" = PStr []
  /\ value_to_write country "0071" = PStr "0071".
Proof. repeat split. Qed.

Example suffix_ex :
  suffix "origin.tar.JSON" = ".JSON"
  /\ suffix ".hidden" = EmptyString
  /\ suffix "name." = EmptyString.
Proof. repeat split. Qed.

(** A missing origin file: the task is marked and nothing else happens. *)
Example missing_origin_ex :
  import_task_start (sample_plugin (use_match_text sample_patterns) true false)
    (fun _ => text_file []) "/music/album" [] sample_likelies [sample_item]
  = ({| ti_origin_path := Joined "/music/album" "origin.txt";
        ti_missing_origin := Some true;
        ti_tag_compare := None;
        ti_conflict := None |}, [sample_item]).
Proof. reflexivity. Qed.

(** A conflict that [use_origin_on_conflict] overrides: the origin values
    are written all the same, and the media (now empty) stays. *)
Example override_ex :
  let self := sample_plugin (use_match_text sample_patterns) true false in
  let run := import_task_start self
               (fun _ => text_file ["Catalog number: XYZ-2" ++ newline])
               "/music/album" ["/music/album/origin.txt"] sample_likelies
               [sample_item] in
  ti_conflict (fst run) = Some true
  /\ snd run
     = [ <["label" := PStr []]>
           (<["media" := PStr []]>
              (<["catalognum" := PStr "XYZ-2"]>
                 (<["year" := PStr []]>
                    (<["title" := PStr "Track"]> ∅)))) ].
Proof. cbv zeta. split; [reflexivity|]. vm_compute. reflexivity. Qed.

(** ** The handler and the exception of [int] *)

Lemma value_to_write_exn_spec (tag : FieldKey) (o : str) :
  value_to_write_exn tag o
  = if FieldKey_eqb tag year && year_raises o then inl ValueError
    else inr (value_to_write tag o).
Proof.
  unfold value_to_write_exn, value_to_write, year_raises, int_of_digits.
  destruct tag; try reflexivity.
  cbn [key_name]. change (String.eqb "year" "year") with true.
  change (FieldKey_eqb year year) with true. cbn [andb].
  destruct (nonempty o); [|reflexivity].
  destruct (isdigit o); [|reflexivity]. cbn [andb].
  destruct (forallb is_decimal o && Nat.leb (length o) INT_MAX_STR_DIGITS);
    reflexivity.
Qed.

Lemma write_tags_exn_spec (self : OriginQuery) (tc : TagCompare)
  (item : Item) :
  write_tags_exn self (tc_items tc) item
  = if year_fails self tc
    then (write_tag self item (media, tc media), Some ValueError)
    else (write_origin self tc item, None).
Proof.
  unfold year_fails, write_origin, tc_items, BEETS_TO_LABEL, write_tag.
  cbn [map fst fold_left write_tags_exn key_name].
  rewrite !value_to_write_exn_spec.
  change (FieldKey_eqb media year) with false.
  change (FieldKey_eqb year year) with true.
  change (FieldKey_eqb country year) with false.
  change (FieldKey_eqb label year) with false.
  change (FieldKey_eqb catalognum year) with false.
  change (FieldKey_eqb albumdisambig year) with false.
  cbn [andb].
  destruct (str_in "media" (extra_tags self)),
    (str_in "year" (extra_tags self)),
    (year_raises (origin (tc year))),
    (str_in "country" (extra_tags self)),
    (str_in "label" (extra_tags self)),
    (str_in "catalognum" (extra_tags self)),
    (str_in "albumdisambig" (extra_tags self)); reflexivity.
Qed.

Lemma update_item_exn_spec (self : OriginQuery) (tc : TagCompare)
  (item : Item) :
  update_item_exn self tc item
  = if year_fails self tc
    then (tc, write_tag self item (media, tc media), Some ValueError)
    else (update_item self tc item, None).
Proof.
  unfold update_item_exn, update_item. rewrite write_tags_exn_spec.
  destruct (year_fails self tc); [reflexivity|].
  destruct (negb (preserve_media_with_catalognum self)
            && truthy (item_get (write_origin self tc item) "media")
            && truthy (item_get (write_origin self tc item) "catalognum"));
    reflexivity.
Qed.

Lemma update_item_origin (self : OriginQuery) (tc : TagCompare) (item : Item)
  (k : FieldKey) :
  origin (fst (update_item self tc item) k) = origin (tc k).
Proof.
  unfold update_item.
  destruct (negb (preserve_media_with_catalognum self)
            && truthy (item_get (write_origin self tc item) "media")
            && truthy (item_get (write_origin self tc item) "catalognum"));
    [|reflexivity].
  cbn [fst]. unfold tc_update. destruct (FieldKey_eqb k media); reflexivity.
Qed.

Lemma update_items_exn_spec (self : OriginQuery) (items : list Item) :
  forall tc : TagCompare,
    update_items_exn self tc items
    = match items with
      | item :: more =>
          if year_fails self tc
          then (tc, write_tag self item (media, tc media) :: more,
                Some ValueError)
          else (update_items self tc items, None)
      | [] => (update_items self tc items, None)
      end.
Proof.
  induction items as [|item more IH]; intros tc; [reflexivity|].
  cbn [update_items_exn update_items]. rewrite update_item_exn_spec.
  destruct (year_fails self tc) eqn:Hfail; [reflexivity|].
  destruct (update_item self tc item) as [tc1 item'] eqn:Hstep.
  rewrite IH.
  assert (Hfail1 : year_fails self tc1 = false).
  { unfold year_fails in *.
    replace tc1 with (fst (update_item self tc item))
      by (rewrite Hstep; reflexivity).
    rewrite update_item_origin. exact Hfail. }
  destruct (update_items self tc1 more) as [tc2 rest'] eqn:Hrest.
  destruct more as [|item2 more2]; [reflexivity|].
  rewrite Hfail1. reflexivity.
Qed.

(** The handler raises nothing without an origin file. *)
Lemma import_task_start_exn_missing (self : OriginQuery)
  (fs : string -> OriginFile) (base : string) (likelies : FieldKey -> PyVal)
  (items : list Item) :
  import_task_start_exn self fs base [] likelies items
  = (import_task_start self fs base [] likelies items, None).
Proof. reflexivity. Qed.

(** With an origin file: the handler raises when the updates are applied,
    there is an item, and the conversion of the stored year fails; the
    first item has then got its media value, if media is written at all,
    and nothing else has changed. *)
Lemma import_task_start_exn_found (self : OriginQuery)
  (fs : string -> OriginFile) (base path : string) (rest : list string)
  (likelies : FieldKey -> PyVal) (items : list Item) :
  let st := compared self (fs path) likelies in
  import_task_start_exn self fs base (path :: rest) likelies items
  = match items with
    | item :: more =>
        if updates_applied self (snd st) && year_fails self (fst st)
        then ({| ti_origin_path := Globbed path;
                 ti_missing_origin := None;
                 ti_tag_compare := Some (fst st);
                 ti_conflict := if snd st then Some true else None |},
              write_tag self item (media, fst st media) :: more,
              Some ValueError)
        else (import_task_start self fs base (path :: rest) likelies items,
              None)
    | [] => (import_task_start self fs base (path :: rest) likelies items,
             None)
    end.
Proof.
  cbv zeta. unfold import_task_start_exn, import_task_start, compared,
    updates_applied.
  destruct (run_matches _ _) as [tc c]. cbn [fst snd].
  destruct (negb c || use_origin_on_conflict self).
  - rewrite update_items_exn_spec. cbn [andb].
    destruct items as [|item more].
    + reflexivity.
    + destruct (year_fails self tc); [reflexivity|].
      destruct (update_items self tc (item :: more)). reflexivity.
  - cbn [andb]. destruct items; reflexivity.
Qed.

(** When no exception ends it, the handler leaves what [import_task_start]
    says. *)
Lemma import_task_start_exn_returns (self : OriginQuery)
  (fs : string -> OriginFile) (base : string) (origin_glob : list string)
  (likelies : FieldKey -> PyVal) (items : list Item) :
  snd (import_task_start_exn self fs base origin_glob likelies items) = None ->
  fst (import_task_start_exn self fs base origin_glob likelies items)
  = import_task_start self fs base origin_glob likelies items.
Proof.
  destruct origin_glob as [|path rest]; [reflexivity|].
  rewrite import_task_start_exn_found. cbv zeta.
  destruct items as [|item more]; [reflexivity|].
  destruct (updates_applied self _ && year_fails self _);
    [discriminate | reflexivity].
Qed.

(** C9, where the code fails it.  A stored year that [isdigit] accepts is
    handed to [int], and [int] refuses the digits that are not decimal
    digits.  With the origin line [Edition year: 2] where the [2] is the
    superscript two (U+00B2), the handler does not write the empty string
    for the year, nor any integer: it raises [ValueError], after it has
    overwritten the media of the first item and before it has written any
    other field.  A year of more than 4300 decimal digits fails in the same
    way.  Digits of another script are decimal digits and are converted. *)
Theorem year_superscript_raises :
  let self := sample_plugin (use_match_text sample_patterns) false false in
  let fs := fun _ : string =>
    text_file [ "Edition year: " ++ [178%N] ++ newline ] in
  let run := import_task_start_exn self fs "/music/album"
               ["/music/album/origin.txt"] sample_likelies [sample_item] in
  (isdigit [178%N] = true /\ int_of_digits [178%N] = None)
  /\ stored_origin (fst (fst run)) year = [178%N]
  /\ value_to_write_exn year [178%N] = inl ValueError
  /\ snd run = Some ValueError
  /\ snd (fst run) = [ <["media" := PStr []]> sample_item ]
  /\ value_to_write_exn year (repeat 49%N 4301) = inl ValueError
  /\ value_to_write_exn year [1634%N; 1632%N; 1632%N; 1636%N]
     = inr (PInt 2004)
  /\ value_to_write_exn year "19x9" = inr (PStr []).
Proof.
  cbv zeta. split; [split; reflexivity|].
  split; [reflexivity|]. split; [reflexivity|].
  split; [vm_compute; reflexivity|].
  split; [vm_compute; reflexivity|].
  split; [vm_compute; reflexivity|].
  split; reflexivity.
Qed.

(** X18.  The [ValueError] of the year conversion ends [import_task_start]
    exactly when there is an origin file, the updates are applied, there is
    an item, [year] is listed in [extra_tags], and the stored year is a
    non-empty string that [isdigit] accepts and that holds a digit that is
    not decimal or more than 4300 characters.  The first item has then got
    its media value, when media is listed, and nothing else has changed;
    the comparison is stored as the matches left it.  When no exception is
    raised, the handler leaves what [import_task_start] says. *)
Theorem handler_exception (self : OriginQuery) (fs : string -> OriginFile)
  (base : string) (origin_glob : list string) (likelies : FieldKey -> PyVal)
  (items : list Item) :
  let run := import_task_start_exn self fs base origin_glob likelies items in
  (snd run = None ->
   fst run = import_task_start self fs base origin_glob likelies items)
  /\ (snd run = Some ValueError
      <-> exists path rest item more,
            origin_glob = path :: rest /\ items = item :: more
            /\ updates_applied self (snd (compared self (fs path) likelies))
               = true
            /\ str_in "year" (extra_tags self) = true
            /\ year_raises
                 (origin (fst (compared self (fs path) likelies) year))
               = true)
  /\ (forall path rest item more,
         origin_glob = path :: rest -> items = item :: more ->
         snd run = Some ValueError ->
         snd (fst run)
         = (if str_in "media" (extra_tags self)
            then <["media" := PStr (origin (fst (compared self (fs path)
                                                   likelies) media))]> item
            else item) :: more
         /\ ti_tag_compare (fst (fst run))
            = Some (fst (compared self (fs path) likelies)))
  /\ (forall o,
         year_raises o = true
         <-> o <> [] /\ isdigit o = true
             /\ (forallb is_decimal o = false \/ 4300 < length o)).
Proof.
  cbv zeta.
  assert (Hraise : forall o,
             year_raises o = true
             <-> o <> [] /\ isdigit o = true
                 /\ (forallb is_decimal o = false \/ 4300 < length o)).
  { intros o. unfold year_raises, INT_MAX_STR_DIGITS.
    rewrite !andb_true_iff, negb_true_iff, andb_false_iff, nonempty_true,
      Nat.leb_gt.
    tauto. }
  destruct origin_glob as [|path rest].
  { rewrite import_task_start_exn_missing. cbn [fst snd].
    split; [reflexivity|]. split; [|split; [|exact Hraise]].
    - split; [discriminate|]. intros [p [r [i [m [H _]]]]]. discriminate H.
    - intros p r i m H. discriminate H. }
  rewrite import_task_start_exn_found. cbv zeta.
  set (st := compared self (fs path) likelies).
  destruct items as [|item more].
  { cbn [fst snd]. split; [reflexivity|]. split; [|split; [|exact Hraise]].
    - split; [discriminate|].
      intros [p [r [i [m [_ [H _]]]]]]. discriminate H.
    - intros p r i m _ H. discriminate H. }
  destruct (updates_applied self (snd st) && year_fails self (fst st))
    eqn:Hbad; cbn [fst snd].
  - apply andb_prop in Hbad as [Happ Hfail]. unfold year_fails in Hfail.
    apply andb_prop in Hfail as [Hyear Hfail].
    split; [discriminate|]. split; [|split; [|exact Hraise]].
    + split; [|reflexivity]. intros _.
      exists path, rest, item, more. auto.
    + intros p r i m Hp Hi _. injection Hp as <- <-. injection Hi as <- <-.
      split; [|reflexivity].
      unfold write_tag. cbn [key_name].
      destruct (str_in "media" (extra_tags self)); [|reflexivity].
      cbn [negb]. rewrite (proj1 (value_to_write_cases media _));
        [reflexivity | discriminate].
  - split; [reflexivity|]. split; [|split; [|exact Hraise]].
    + split; [discriminate|].
      intros [p [r [i [m [Hp [Hi [Happ [Hyear Hfail]]]]]]]].
      injection Hp as <- <-. fold st in Happ, Hfail.
      unfold year_fails in Hbad. rewrite Happ, Hyear, Hfail in Hbad.
      discriminate Hbad.
    + intros p r i m _ _ H. discriminate H.
Qed.

Lemma year_raises_false (o : str) :
  year_raises o = false -> o <> [] -> isdigit o = true ->
  int_of_digits o = Some (py_int o).
Proof.
  unfold year_raises, int_of_digits. intros Hr Ho Hd.
  apply nonempty_true in Ho. rewrite Ho, Hd in Hr. cbn [andb] in Hr.
  apply negb_false_iff in Hr. rewrite Hr. reflexivity.
Qed.

(** X19.  Whenever the updates are applied and the handler returns, every
    field key listed in [extra_tags] has been written onto every item with
    the stored origin value, also when that value is empty: the field then
    holds the empty string whatever it held before.  For [year], a
    non-empty origin string that [isdigit] accepts is written as the
    integer that [int] returns for it, and any other non-empty string as
    the empty string.  The written value is what the item ends with, except
    for a media value that the removal workaround deletes. *)
Theorem listed_fields_written (self : OriginQuery)
  (fs : string -> OriginFile) (base path : string) (rest : list string)
  (likelies : FieldKey -> PyVal) (items : list Item) :
  let st := compared self (fs path) likelies in
  let run :=
    import_task_start_exn self fs base (path :: rest) likelies items in
  updates_applied self (snd st) = true ->
  snd run = None ->
  forall i item, nth_error items i = Some item ->
  exists item',
    nth_error (snd (fst run)) i = Some item'
    /\ forall k, str_in (key_name k) (extra_tags self) = true ->
       let o := stored_origin (fst (fst run)) k in
       let w := written self st item !! key_name k in
       (k <> year -> w = Some (PStr o))
       /\ (k = year -> o <> [] -> isdigit o = true ->
           int_of_digits o = Some (py_int o)
           /\ w = Some (PInt (py_int o)))
       /\ (k = year -> o <> [] -> isdigit o = false -> w = Some (PStr []))
       /\ (o = [] ->
           w = Some (PStr []) /\ item' !! key_name k = Some (PStr []))
       /\ (k <> media -> item' !! key_name k = w)
       /\ (removal_due self (written self st item) = false ->
           item' !! key_name k = w).
Proof.
  cbv zeta. intros Happ Hret i item Hnth.
  rewrite import_task_start_exn_found in Hret |- *. cbv zeta in Hret |- *.
  destruct (import_applied self fs base path rest likelies items Happ)
    as [Hitems [tc [Htc [Horigin _]]]].
  set (st := compared self (fs path) likelies) in *.
  assert (Hfail : year_fails self (fst st) = false
                  /\ (match items with
                      | item0 :: more =>
                          if updates_applied self (snd st)
                             && year_fails self (fst st)
                          then ({| ti_origin_path := Globbed path;
                                   ti_missing_origin := None;
                                   ti_tag_compare := Some (fst st);
                                   ti_conflict :=
                                     if snd st then Some true else None |},
                                write_tag self item0 (media, fst st media)
                                :: more, Some ValueError)
                          else (import_task_start self fs base (path :: rest)
                                  likelies items, None)
                      | [] => (import_task_start self fs base (path :: rest)
                                 likelies items, None)
                      end)
                     = (import_task_start self fs base (path :: rest)
                          likelies items, None)).
  { destruct items as [|item0 more]; [destruct i; discriminate Hnth|].
    rewrite Happ in Hret |- *. cbn [andb] in Hret |- *.
    destruct (year_fails self (fst st)); [discriminate Hret|]. auto. }
  destruct Hfail as [Hfail Hrun]. rewrite Hrun. cbn [fst snd]. clear Hrun Hret.
  set (w := written self st item).
  assert (Hupd : snd (update_item self (fst st) item)
                 = if removal_due self w then delete "media" w else w).
  { rewrite update_item_eq. cbv zeta. fold (written self st item). fold w.
    destruct (removal_due self w); reflexivity. }
  exists (if removal_due self w then delete "media" w else w).
  split.
  { rewrite Hitems, <- Hupd.
    exact (map_nth_error (fun it => snd (update_item self (fst st) it))
             i items Hnth). }
  intros k Hk.
  assert (Hw : w !! key_name k
               = Some (value_to_write k (origin (fst st k)))).
  { unfold w, written. apply write_origin_written. exact Hk. }
  assert (Ho : stored_origin
                 (fst (import_task_start self fs base (path :: rest)
                         likelies items)) k
               = origin (fst st k)).
  { unfold stored_origin. rewrite Htc. apply Horigin. }
  rewrite Ho, Hw.
  destruct (value_to_write_cases k (origin (fst st k)))
    as [Hother [Hempty [Hint Hbad]]].
  assert (Hkeep : k <> media ->
                  (if removal_due self w then delete "media" w else w)
                    !! key_name k
                  = Some (value_to_write k (origin (fst st k)))).
  { intros Hne. rewrite <- Hw. destruct (removal_due self w); [|reflexivity].
    apply lookup_delete_ne. intros Heq.
    apply Hne. apply key_name_inj. symmetry. exact Heq. }
  split; [intros H; rewrite Hother by exact H; reflexivity|].
  split.
  { intros H1 H2 H3. split; [|rewrite Hint by assumption; reflexivity].
    subst k. apply year_raises_false; [|exact H2 | exact H3].
    unfold year_fails in Hfail. cbn [key_name] in Hk. rewrite Hk in Hfail.
    exact Hfail. }
  split; [intros H1 H2 H3; rewrite Hbad by assumption; reflexivity|].
  split; [|split].
  - intros Hnil. rewrite Hempty in * by exact Hnil.
    split; [reflexivity|].
    destruct (FieldKey_eqb k media) eqn:E.
    + apply FieldKey_eqb_eq in E. subst k.
      assert (Hdue : removal_due self w = false).
      { unfold removal_due, item_get. simpl key_name in Hw. rewrite Hw.
        simpl. rewrite andb_false_r. reflexivity. }
      rewrite Hdue. exact Hw.
    + apply FieldKey_eqb_neq in E. apply Hkeep. exact E.
  - exact Hkeep.
  - intros Hdue. rewrite Hdue. exact Hw.
Qed.

Lemma listed_fields_written_witness :
  let lines := [ "Edition year: " ++ [1634%N; 1632%N; 1632%N; 1636%N]
                 ++ newline;
                 "Catalog number: ABC-1" ++ newline ] in
  let fs := fun _ : string => text_file lines in
  let self := sample_plugin (use_match_text sample_patterns) false false in
  let run := import_task_start_exn self fs "/music/album"
               ["/music/album/origin.txt"] sample_likelies [sample_item] in
  (updates_applied self (snd (compared self (fs "") sample_likelies)) = true
   /\ snd run = None
   /\ nth_error [sample_item] 0 = Some sample_item
   /\ stored_origin (fst (fst run)) media = []
   /\ stored_origin (fst (fst run)) year = [1634%N; 1632%N; 1632%N; 1636%N]
   /\ sample_item !! "media" = Some (PStr "CD"))
  /\ exists item',
       nth_error (snd (fst run)) 0 = Some item'
       /\ item' !! "media" = Some (PStr [])
       /\ item' !! "year" = Some (PInt 2004)
       /\ item' !! "catalognum" = Some (PStr "ABC-1").
Proof.
  cbv zeta. split; [repeat split|].
  destruct (listed_fields_written
              (sample_plugin (use_match_text sample_patterns) false false)
              (fun _ => text_file
                          [ "Edition year: "
                            ++ [1634%N; 1632%N; 1632%N; 1636%N] ++ newline;
                            "Catalog number: ABC-1" ++ newline ])
              "/music/album" "/music/album/origin.txt" [] sample_likelies
              [sample_item] eq_refl eq_refl 0 sample_item eq_refl)
    as [item' [Hnth Hfields]].
  exists item'. split; [exact Hnth|].
  destruct (Hfields media eq_refl) as [_ [_ [_ [Hmedia _]]]].
  destruct (Hfields year eq_refl) as [_ [Hyear [_ [_ [Hyear' _]]]]].
  destruct (Hfields catalognum eq_refl) as [Hcat [_ [_ [_ [Hcat' _]]]]].
  split; [exact (proj2 (Hmedia eq_refl))|]. split.
  - etransitivity; [apply Hyear'; discriminate|].
    etransitivity;
      [apply Hyear; [reflexivity | vm_compute; discriminate | reflexivity]|].
    reflexivity.
  - etransitivity; [apply Hcat'; discriminate|].
    etransitivity; [apply Hcat; discriminate|]. reflexivity.
Defined.

(** ** Further properties of the normalizers *)

(** X3.  Catalog-number normalization is idempotent: a normalized catalog
    number is its own normal form. *)
Theorem normalize_catno_idempotent (s : str) :
  normalize_catno (normalize_catno s) = normalize_catno s.
Proof. apply normalize_catno_fixed, normalize_catno_clean. Qed.

Lemma strip_idem (s : str) : strip (strip s) = strip s.
Proof.
  apply trimmed_of_strip.
  destruct (strip_spec s) as [_ [Hfirst Hlast]].
  split; [|split; assumption].
  exists [], []. split; [|auto].
  simpl. rewrite app_nil_r. reflexivity.
Qed.

Lemma first_segment_strip (value : str) :
  let seg := hd [] (re_split comma_or_slash value) in
  first_segment (strip seg) (strip seg).
Proof.
  cbv zeta. destruct (re_split_first value) as [seg [rest [-> [Hall _]]]].
  simpl hd. split; [|left; reflexivity].
  destruct (strip_spec seg) as [[l [r [Hseg _]]] _].
  unfold all_chars in *. rewrite Hseg, !forallb_app in Hall.
  apply andb_prop in Hall as [_ Hall]. apply andb_prop in Hall as [Hall _].
  exact Hall.
Qed.

Lemma sanitize_value_again (key : string) (value : str) :
  sanitize_value key (sanitize_value key value) = sanitize_value key value.
Proof.
  unfold sanitize_value.
  destruct (String.eqb key "media") eqn:Hm.
  - apply String.eqb_eq in Hm. subst key. simpl.
    destruct (str_eqb value "WEB") eqn:Hv; [reflexivity|].
    simpl. rewrite Hv. reflexivity.
  - simpl.
    destruct (String.eqb key "catalognum" || String.eqb key "label") eqn:Hc.
    + rewrite (first_segment_hd _ _ (first_segment_strip value)).
      apply strip_idem.
    + destruct (String.eqb key "year") eqn:Hy; simpl; [|reflexivity].
      destruct (str_eqb value "0") eqn:Hv; [reflexivity|].
      rewrite Hv. reflexivity.
Qed.

(** X2.  [sanitize_value] is idempotent for every key, and its results are
    in the form it aims at: a media value is never ["WEB"], a year is never
    ["0"], and a catalog number or label holds no [,] or [/] and has no
    white space at either end. *)
Theorem sanitize_value_idempotent (key : string) (value : str) :
  sanitize_value key (sanitize_value key value) = sanitize_value key value
  /\ sanitize_value "media" value <> "WEB"
  /\ sanitize_value "year" value <> "0"
  /\ (key = "catalognum" \/ key = "label" ->
      all_chars (fun c => negb (comma_or_slash c)) (sanitize_value key value)
      = true
      /\ strip (sanitize_value key value) = sanitize_value key value).
Proof.
  split; [apply sanitize_value_again|]. split; [|split].
  - unfold sanitize_value. simpl.
    destruct (str_eqb value "WEB") eqn:E; [discriminate|].
    apply str_eqb_neq. exact E.
  - unfold sanitize_value. simpl.
    destruct (str_eqb value "0") eqn:E; [discriminate|].
    apply str_eqb_neq. exact E.
  - intros Hk.
    assert (Heq : sanitize_value key value
                  = strip (hd [] (re_split comma_or_slash value))).
    { destruct Hk as [-> | ->]; reflexivity. }
    rewrite Heq. split; [|apply strip_idem].
    apply (first_segment_strip value).
Qed.

Lemma first_nonempty_in (l : list str) :
  first_nonempty l = [] \/ In (first_nonempty l) l.
Proof.
  induction l as [|x l IH]; [left; reflexivity|].
  simpl. destruct (nonempty x); [right; left; reflexivity|].
  destruct IH as [H | H]; [left; exact H | right; right; exact H].
Qed.

Lemma sanitize_value_empty (k : FieldKey) :
  sanitize_value (key_name k) [] = [].
Proof. destruct k; reflexivity. Qed.

(** X4.  Every origin value stored in a task's comparison is in sanitized
    form, a fixed point of [sanitize_value] for its field.  In particular
    the stored year is never ["0"] and the stored media is never ["WEB"]. *)
Theorem stored_origin_sanitized (self : OriginQuery)
  (fs : string -> OriginFile) (base : string) (origin_glob : list string)
  (likelies : FieldKey -> PyVal) (items : list Item) (k : FieldKey) :
  let ti := fst (import_task_start self fs base origin_glob likelies items) in
  sanitize_value (key_name k) (stored_origin ti k) = stored_origin ti k
  /\ stored_origin ti year <> "0"
  /\ stored_origin ti media <> "WEB".
Proof.
  cbv zeta.
  assert (Hfix : forall k',
             sanitize_value (key_name k')
               (stored_origin
                  (fst (import_task_start self fs base origin_glob likelies
                          items)) k')
             = stored_origin
                 (fst (import_task_start self fs base origin_glob likelies
                         items)) k').
  { intros k'. destruct origin_glob as [|path rest].
    - apply sanitize_value_empty.
    - rewrite stored_origin_char.
      destruct (first_nonempty_in
                  (map (sanitize_value (key_name k'))
                     (values_for k'
                        (run_match_fn (match_fn self) (fs path)))))
        as [-> | Hin]; [apply sanitize_value_empty|].
      apply in_map_iff in Hin. destruct Hin as [v [Hv _]].
      rewrite <- Hv. apply sanitize_value_again. }
  split; [apply Hfix|]. split.
  - intros H. specialize (Hfix year). rewrite H in Hfix. discriminate Hfix.
  - intros H. specialize (Hfix media). rewrite H in Hfix. discriminate Hfix.
Qed.

(** ** Further properties of the handler *)

(** The item the handler leaves at a position: the one it found, or that
    one updated. *)
Lemma import_item_cases (self : OriginQuery) (fs : string -> OriginFile)
  (base : string) (origin_glob : list string) (likelies : FieldKey -> PyVal)
  (items : list Item) (i : nat) (item : Item) :
  nth_error items i = Some item ->
  exists item',
    nth_error
      (snd (import_task_start self fs base origin_glob likelies items)) i
    = Some item'
    /\ (item' = item
        \/ exists tc, item' = snd (update_item self tc item)).
Proof.
  intros Hnth. destruct origin_glob as [|path rest].
  - exists item. split; [exact Hnth | left; reflexivity].
  - rewrite import_task_start_found. cbv zeta. simpl snd.
    destruct (updates_applied self (snd (compared self (fs path) likelies))).
    + rewrite (proj1 (update_items_spec self items _)).
      exists (snd (update_item self (fst (compared self (fs path) likelies))
                     item)).
      split; [|right; eexists; reflexivity].
      exact (map_nth_error
               (fun it =>
                  snd (update_item self
                         (fst (compared self (fs path) likelies)) it))
               i items Hnth).
    + exists item. split; [exact Hnth | left; reflexivity].
Qed.

Lemma import_length (self : OriginQuery) (fs : string -> OriginFile)
  (base : string) (origin_glob : list string) (likelies : FieldKey -> PyVal)
  (items : list Item) :
  length (snd (import_task_start self fs base origin_glob likelies items))
  = length items.
Proof.
  destruct origin_glob as [|path rest]; [reflexivity|].
  rewrite import_task_start_found. cbv zeta. simpl snd.
  destruct (updates_applied self (snd (compared self (fs path) likelies)));
    [|reflexivity].
  rewrite (proj1 (update_items_spec self items _)). apply length_map.
Qed.

(** X5.  The handler keeps the number and order of the items, and on every
    item it leaves alone every field that is not a field key listed in
    [extra_tags], the media field apart; when media is not listed in
    [extra_tags], the media field keeps its value or is deleted. *)
Theorem untouched_fields (self : OriginQuery) (fs : string -> OriginFile)
  (base : string) (origin_glob : list string) (likelies : FieldKey -> PyVal)
  (items : list Item) (i : nat) (item : Item) :
  nth_error items i = Some item ->
  length (snd (import_task_start self fs base origin_glob likelies items))
  = length items
  /\ exists item',
       nth_error
         (snd (import_task_start self fs base origin_glob likelies items)) i
       = Some item'
       /\ (forall f,
              (forall k, key_name k = f ->
                         str_in f (extra_tags self) = false) ->
              f <> "media" -> item' !! f = item !! f)
       /\ (str_in "media" (extra_tags self) = false ->
           item' !! "media" = item !! "media" \/ item' !! "media" = None).
Proof.
  intros Hnth. split; [apply import_length|].
  destruct (import_item_cases self fs base origin_glob likelies items i item
              Hnth) as [item' [Hnth' Hcase]].
  exists item'. split; [exact Hnth'|].
  destruct Hcase as [-> | [tc ->]]; [split; auto|].
  rewrite update_item_eq. cbv zeta. split.
  - intros f Hf Hmedia.
    assert (Hw : write_origin self tc item !! f = item !! f).
    { apply write_origin_unwritten. intros k Hk. rewrite Hk.
      apply (Hf k Hk). }
    destruct (removal_due self (write_origin self tc item)); simpl;
      [|exact Hw].
    rewrite lookup_delete_ne by congruence. exact Hw.
  - intros Hm.
    destruct (removal_due self (write_origin self tc item)); simpl.
    + right. apply lookup_delete_eq.
    + left. apply write_origin_unwritten.
      intros k Hk. destruct k; try discriminate Hk. exact Hm.
Qed.

Lemma untouched_fields_witness :
  let self := sample_plugin (use_match_text sample_patterns) false false in
  let fs := fun _ : string =>
    text_file [ "Media: CD" ++ newline; "Catalog number: ABC1" ++ newline ] in
  let run := import_task_start self fs "/music/album"
               ["/music/album/origin.txt"] sample_likelies [sample_item] in
  nth_error [sample_item] 0 = Some sample_item
  /\ length (snd run) = 1
  /\ exists item',
       nth_error (snd run) 0 = Some item'
       /\ item' !! "title" = Some (PStr "Track").
Proof.
  cbv zeta. split; [reflexivity|].
  destruct (untouched_fields
              (sample_plugin (use_match_text sample_patterns) false false)
              (fun _ => text_file [ "Media: CD" ++ newline;
                                    "Catalog number: ABC1" ++ newline ])
              "/music/album" ["/music/album/origin.txt"] sample_likelies
              [sample_item] 0 sample_item eq_refl)
    as [Hlen [item' [Hnth [Hkeep _]]]].
  split; [exact Hlen|]. exists item'. split; [exact Hnth|].
  rewrite (Hkeep "title"); [reflexivity | | discriminate].
  intros k Hk. destruct k; discriminate Hk.
Defined.

(** X6.  In the stored comparison only a field listed in [extra_tags] is
    ever marked active, and the flag of every field but media is exactly
    that membership. *)
Theorem active_only_extra_tags (self : OriginQuery)
  (fs : string -> OriginFile) (base : string) (origin_glob : list string)
  (likelies : FieldKey -> PyVal) (items : list Item) (tc : TagCompare) :
  ti_tag_compare
    (fst (import_task_start self fs base origin_glob likelies items))
  = Some tc ->
  forall k,
    (active (tc k) = true -> str_in (key_name k) (extra_tags self) = true)
    /\ (k <> media ->
        active (tc k) = str_in (key_name k) (extra_tags self)).
Proof.
  destruct origin_glob as [|path rest]; [discriminate|].
  destruct (updates_applied self (snd (compared self (fs path) likelies)))
    eqn:Happ.
  - destruct (import_applied self fs base path rest likelies items Happ)
      as [_ [tc' [Htc [_ [Hact Hmedia]]]]].
    rewrite Htc. intros Heq. injection Heq as <-. intros k.
    destruct (FieldKey_eqb k media) eqn:E.
    + apply FieldKey_eqb_eq in E. subst k. split; [|congruence].
      rewrite Hmedia. destruct (existsb _ items); [discriminate | auto].
    + apply FieldKey_eqb_neq in E. rewrite (Hact k E). auto.
  - rewrite import_task_start_found. cbv zeta. rewrite Happ. simpl.
    intros Heq. injection Heq as <-. intros k.
    rewrite (proj2 (proj2 (compared_spec self (fs path) likelies)) k). auto.
Qed.

Lemma active_only_extra_tags_witness :
  let self := sample_plugin (use_match_text sample_patterns) false false in
  let fs := fun _ : string =>
    text_file [ "Media: CD" ++ newline; "Catalog number: ABC1" ++ newline ] in
  let run := import_task_start self fs "/music/album"
               ["/music/album/origin.txt"] sample_likelies [sample_item] in
  exists tc,
    ti_tag_compare (fst run) = Some tc
    /\ active (tc media) = false
    /\ active (tc country) = false
    /\ active (tc year) = true.
Proof.
  cbv zeta. eexists. split; [reflexivity|].
  split; [reflexivity|]. split.
  - apply (active_only_extra_tags
             (sample_plugin (use_match_text sample_patterns) false false)
             (fun _ => text_file [ "Media: CD" ++ newline;
                                   "Catalog number: ABC1" ++ newline ])
             "/music/album" ["/music/album/origin.txt"] sample_likelies
             [sample_item] _ eq_refl country).
    discriminate.
  - reflexivity.
Defined.

(** ** Further properties of the matchers *)

Lemma match_lines_in (key : FieldKey) (pattern : Regex) (lines : list str)
  (k : FieldKey) (v : str) :
  In (k, v) (match_lines key pattern lines)
  <-> k = key /\ exists line, In line lines /\ pattern (strip line) = Some v.
Proof.
  induction lines as [|line rest IH]; simpl.
  - split; [intros [] | intros [_ [l [[] _]]]].
  - destruct (pattern (strip line)) as [group1|] eqn:Hp.
    + simpl. rewrite IH. split.
      * intros [Heq | [Hk [l [Hin Hl]]]].
        -- injection Heq as <- <-. split; [reflexivity|].
           exists line. auto.
        -- split; [exact Hk|]. exists l. auto.
      * intros [Hk [l [[<- | Hin] Hl]]].
        -- left. rewrite Hp in Hl. injection Hl as <-. rewrite Hk.
           reflexivity.
        -- right. split; [exact Hk|]. exists l. auto.
    + rewrite IH. split.
      * intros [Hk [l [Hin Hl]]]. split; [exact Hk|]. exists l. auto.
      * intros [Hk [l [[<- | Hin] Hl]]]; [congruence|].
        split; [exact Hk|]. exists l. auto.
Qed.

Lemma match_text_in (pats : list (FieldKey * Regex)) (lines : list str)
  (k : FieldKey) (v : str) :
  In (k, v) (match_text pats lines)
  <-> exists pattern line,
        In (k, pattern) pats /\ In line lines
        /\ pattern (strip line) = Some v.
Proof.
  induction pats as [|[key pattern] pats IH]; simpl.
  - split; [intros [] | intros [p [l [[] _]]]].
  - rewrite in_app_iff, match_lines_in, IH. split.
    + intros [[-> [l [Hin Hl]]] | [p [l [Hp [Hin Hl]]]]].
      * exists pattern, l. auto.
      * exists p, l. auto.
    + intros [p [l [[Heq | Hp] [Hin Hl]]]].
      * injection Heq as <- <-. left. split; [reflexivity|]. exists l. auto.
      * right. exists p, l. auto.
Qed.

Lemma match_lines_strip (key : FieldKey) (pattern : Regex)
  (lines : list str) :
  match_lines key pattern (map strip lines) = match_lines key pattern lines.
Proof.
  induction lines as [|line rest IH]; [reflexivity|].
  simpl. rewrite strip_idem, IH. reflexivity.
Qed.

(** X8.  [match_text] yields a pair for a field exactly when some line of
    the document, with the white space around it removed, matches a pattern
    of that field, the value being that line's capture; so the white space
    around the lines (indentation, line terminators) has no effect on what
    is matched. *)
Theorem match_text_lines (pats : list (FieldKey * Regex))
  (lines : list str) :
  (forall k v,
      In (k, v) (match_text pats lines)
      <-> exists pattern line,
            In (k, pattern) pats /\ In line lines
            /\ pattern (strip line) = Some v)
  /\ match_text pats (map strip lines) = match_text pats lines.
Proof.
  split; [intros k v; apply match_text_in|].
  induction pats as [|[key pattern] pats IH]; [reflexivity|].
  simpl. rewrite match_lines_strip, IH. reflexivity.
Qed.

Lemma match_json_length (pats : list (FieldKey * JsonPath)) (data : PyVal) :
  length (match_json pats data) <= length pats.
Proof.
  induction pats as [|[key pattern] pats IH]; simpl; [lia|].
  destruct (pattern data); simpl; lia.
Qed.

Lemma match_yaml_sublist (pats : list (FieldKey * JsonPath)) (data : PyVal) :
  sublist (match_yaml pats data) (match_json pats data).
Proof.
  induction pats as [|[key pattern] pats IH]; simpl; [constructor|].
  destruct (pattern data) as [|m0 more]; [exact IH|].
  destruct (truthy m0); simpl; [apply sublist_skip | apply sublist_cons];
    exact IH.
Qed.

Lemma match_yaml_all_true (pats : list (FieldKey * JsonPath)) (data : PyVal) :
  (forall k pattern m0 more,
      In (k, pattern) pats -> pattern data = m0 :: more -> truthy m0 = true) ->
  match_yaml pats data = match_json pats data.
Proof.
  induction pats as [|[key pattern] pats IH]; intros Htrue; [reflexivity|].
  simpl. rewrite IH.
  - destruct (pattern data) as [|m0 more] eqn:Hd; [reflexivity|].
    rewrite (Htrue key pattern m0 more (or_introl eq_refl) Hd). reflexivity.
  - intros k p m0 more Hin. apply (Htrue k p m0 more). right. exact Hin.
Qed.

(** X9.  On the same parsed document the YAML matcher yields a
    subsequence of what the JSON matcher yields, the same sequence when the
    first value located for every field is true; and either matcher yields
    at most one pair per configured pattern. *)
Theorem yaml_within_json (pats : list (FieldKey * JsonPath)) (data : PyVal) :
  sublist (match_yaml pats data) (match_json pats data)
  /\ length (match_yaml pats data) <= length (match_json pats data)
  /\ length (match_json pats data) <= length pats
  /\ ((forall k pattern m0 more,
          In (k, pattern) pats -> pattern data = m0 :: more ->
          truthy m0 = true) ->
      match_yaml pats data = match_json pats data).
Proof.
  split; [apply match_yaml_sublist|].
  split; [apply sublist_length, match_yaml_sublist|].
  split; [apply match_json_length | apply match_yaml_all_true].
Qed.




(** ** Logging and the report *)

Lemma escape_braces_cons (c : N) (s : str) :
  escape_braces (c :: s)
  = if N.eqb c open_brace then open_brace :: open_brace :: escape_braces s
    else if N.eqb c close_brace
         then close_brace :: close_brace :: escape_braces s
         else c :: escape_braces s.
Proof.
  unfold escape_braces. simpl replace_char at 2.
  destruct (N.eqb c open_brace) eqn:Hopen.
  - reflexivity.
  - simpl replace_char at 1. destruct (N.eqb c close_brace); reflexivity.
Qed.

Lemma format_plain_escape (s : str) :
  format_plain (escape_braces s) = Some s.
Proof.
  induction s as [|c s IH]; [reflexivity|].
  rewrite escape_braces_cons.
  destruct (N.eqb c open_brace) eqn:Hopen.
  - apply N.eqb_eq in Hopen. subst c. simpl. rewrite IH. reflexivity.
  - destruct (N.eqb c close_brace) eqn:Hclose.
    + apply N.eqb_eq in Hclose. subst c. simpl. rewrite IH. reflexivity.
    + simpl. rewrite Hopen, Hclose, IH. reflexivity.
Qed.

(** X1.  Escaping braces and then formatting with no argument gives the
    message back: a record emitted by [info], [warn] or [error] is shown by
    the logger as the message itself (coloured for the last two), whatever
    braces it holds, and never makes the formatting fail. *)
Theorem escape_braces_round_trip (colorize : string -> str -> str)
  (msg : str) :
  format_plain (escape_braces msg) = Some msg
  /\ map shown (info msg) = [Some msg]
  /\ map shown (warn colorize msg) = [Some (colorize "text_warning" msg)]
  /\ map shown (error colorize msg) = [Some (colorize "text_error" msg)].
Proof.
  unfold shown, info, warn, error. simpl.
  rewrite !format_plain_escape. auto.
Qed.














Lemma before_choose_candidate_found (colorize : string -> str -> str)
  (path_str : OriginPath -> str) (self : OriginQuery) (tasks : Tasks)
  (task : nat) (ti : TaskInfo) (tc : TagCompare) (table : list LogRecord)
  (path : OriginPath) (conflict : bool) :
  tasks !! task = Some ti ->
  ti_missing_origin ti = None ->
  ti_tag_compare ti = Some tc ->
  print_tags colorize (tc_items tc)
    (default false (ti_conflict ti) && negb (use_origin_on_conflict self))
  = Some table ->
  ti_origin_path ti = path ->
  default false (ti_conflict ti) = conflict ->
  before_choose_candidate colorize path_str self tasks task
  = {| emitted :=
         info ("Using origin file " ++ path_str path) ++ table
         ++ (if conflict
             then warn colorize "Origin data conflicts with tagged data."
             else []);
       raised := None |}.
Proof.
  intros Hlookup Hmissing Htc Htable Hpath Hconflict.
  unfold before_choose_candidate.
  rewrite Hlookup, Hmissing, Htc. cbn [default]. cbv zeta.
  rewrite Htable, Hpath, Hconflict. reflexivity.
Qed.


(** X15.  Once [import_task_start] has returned for a task (no exception
    ended it) and its [task_info] is stored under the task,
    [before_choose_candidate] for that task does the following.  With no
    origin file it emits one warning, nothing else, and returns.  Otherwise,
    whenever it returns, it has emitted the line naming the origin file,
    then the table of the stored comparison, drawn with the tagged column
    emphasized exactly when the handler did not apply the updates, then the
    conflict warning exactly when a conflict was detected. *)
Theorem report_after_import (colorize : string -> str -> str)
  (path_str : OriginPath -> str) (self : OriginQuery) (tasks : Tasks)
  (task : nat) (fs : string -> OriginFile) (base : string)
  (origin_glob : list string) (likelies : FieldKey -> PyVal)
  (items : list Item) :
  let run := import_task_start_exn self fs base origin_glob likelies items in
  let tasks' : Tasks := <[task := fst (fst run)]> tasks in
  let report := before_choose_candidate colorize path_str self tasks' task in
  snd run = None ->
  (origin_glob = [] ->
   report
   = {| emitted :=
          warn colorize
            ("No origin file found at "
             ++ path_str (Joined base (origin_file self)));
        raised := None |})
  /\ (forall path rest,
         origin_glob = path :: rest ->
         raised report = None ->
         let conflict := snd (compared self (fs path) likelies) in
         exists tc table,
           ti_tag_compare (fst (fst run)) = Some tc
           /\ print_tags colorize (tc_items tc)
                (negb (updates_applied self conflict)) = Some table
           /\ emitted report
              = info ("Using origin file " ++ path_str (Globbed path))
                ++ table
                ++ (if conflict
                    then warn colorize
                           "Origin data conflicts with tagged data."
                    else [])).
Proof.
  cbv zeta. intros Hret.
  rewrite (import_task_start_exn_returns self fs base origin_glob likelies
             items Hret). clear Hret.
  set (run := import_task_start self fs base origin_glob likelies items).
  assert (Hlookup : (<[task := fst run]> tasks : Tasks) !! task
                    = Some (fst run)) by apply lookup_insert_eq.
  destruct origin_glob as [|path rest].
  - unfold before_choose_candidate. rewrite Hlookup. subst run. simpl.
    split; [reflexivity|].
    intros path rest H. discriminate H.
  - set (st := compared self (fs path) likelies).
    assert (Hrun : run
                   = (let r := if updates_applied self (snd st)
                               then update_items self (fst st) items
                               else (fst st, items) in
                      ({| ti_origin_path := Globbed path;
                          ti_missing_origin := None;
                          ti_tag_compare := Some (fst r);
                          ti_conflict := if snd st then Some true else None |},
                       snd r)))
      by apply import_task_start_found.
    cbv zeta in Hrun.
    set (tc := fst (if updates_applied self (snd st)
                    then update_items self (fst st) items
                    else (fst st, items))) in Hrun.
    split; [discriminate|].
    intros path' rest' Heq. injection Heq as <- <-.
    assert (Huse : (default false (if snd st then Some true else None)
                    && negb (use_origin_on_conflict self))
                   = negb (updates_applied self (snd st))).
    { unfold updates_applied.
      destruct (snd st), (use_origin_on_conflict self); reflexivity. }
    destruct (print_tags colorize (tc_items tc)
                (negb (updates_applied self (snd st))))
      as [table|] eqn:Htable.
    + assert (Hreport :
                before_choose_candidate colorize path_str self
                  (<[task := fst run]> tasks) task
                = {| emitted :=
                       info ("Using origin file " ++ path_str (Globbed path))
                       ++ table
                       ++ (if snd st
                           then warn colorize
                                  "Origin data conflicts with tagged data."
                           else []);
                     raised := None |}).
      { apply (before_choose_candidate_found colorize path_str self _ task
                 (fst run) tc table (Globbed path) (snd st) Hlookup).
        - rewrite Hrun. reflexivity.
        - rewrite Hrun. reflexivity.
        - rewrite Hrun. cbn [fst ti_conflict]. rewrite Huse. exact Htable.
        - rewrite Hrun. cbn [fst ti_origin_path]. reflexivity.
        - rewrite Hrun. cbn [fst ti_conflict].
          destruct (snd st); reflexivity. }
      rewrite Hreport. cbn [raised emitted]. intros _.
      exists tc, table. split; [rewrite Hrun; reflexivity|].
      split; [exact Htable | reflexivity].
    + intros Hraised. exfalso. revert Hraised.
      unfold before_choose_candidate. rewrite Hlookup, Hrun.
      cbn [fst ti_missing_origin ti_tag_compare ti_conflict default].
      cbv zeta. rewrite Huse, Htable. discriminate.
Qed.

Lemma report_after_import_witness :
  let self := sample_plugin (use_match_text sample_patterns) false false in
  let fs := fun _ : string =>
    text_file [ "Catalog number: XYZ-2" ++ newline ] in
  let path_str := fun _ : OriginPath => text "origin.txt" in
  let run := import_task_start_exn self fs "/music/album"
               ["/music/album/origin.txt"] sample_likelies [sample_item] in
  let tasks' : Tasks := <[1 := fst (fst run)]> ∅ in
  let report := before_choose_candidate plain path_str self tasks' 1 in
  (snd run = None /\ raised report = None
   /\ ti_conflict (fst (fst run)) = Some true)
  /\ exists tc table,
       ti_tag_compare (fst (fst run)) = Some tc
       /\ print_tags plain (tc_items tc) true = Some table
       /\ emitted report
          = info "Using origin file origin.txt" ++ table
            ++ warn plain "Origin data conflicts with tagged data.".
Proof.
  cbv zeta. split; [repeat split|].
  destruct (report_after_import plain (fun _ => text "origin.txt")
              (sample_plugin (use_match_text sample_patterns) false false)
              ∅ 1
              (fun _ => text_file [ "Catalog number: XYZ-2" ++ newline ])
              "/music/album" ["/music/album/origin.txt"] sample_likelies
              [sample_item] eq_refl)
    as [_ Hfound].
  destruct (Hfound "/music/album/origin.txt" [] eq_refl eq_refl)
    as [tc [table [Htc [Htable Hemitted]]]].
  exists tc, table. split; [exact Htc|].
  split; [exact Htable | exact Hemitted].
Defined.

(** X16.  A task that [import_task_start] never handled makes
    [before_choose_candidate] raise a [KeyError] with nothing emitted; and
    handling one task changes neither the stored state nor the report of
    any other task. *)
Theorem tasks_are_isolated (colorize : string -> str -> str)
  (path_str : OriginPath -> str) (self : OriginQuery) (tasks : Tasks)
  (task other : nat) (fs : string -> OriginFile) (base : string)
  (origin_glob : list string) (likelies : FieldKey -> PyVal)
  (items : list Item) :
  other <> task ->
  let tasks' :=
    fst (import_task_start_listener self tasks task fs base origin_glob
           likelies items) in
  tasks' !! other = tasks !! other
  /\ before_choose_candidate colorize path_str self tasks' other
     = before_choose_candidate colorize path_str self tasks other
  /\ (tasks !! other = None ->
      before_choose_candidate colorize path_str self tasks' other
      = {| emitted := []; raised := Some KeyError |}).
Proof.
  intros Hne. cbv zeta. unfold import_task_start_listener. cbn [fst].
  assert (Hlookup :
            (<[task := fst (import_task_start self fs base origin_glob
                              likelies items)]> tasks : Tasks) !! other
            = tasks !! other)
    by (apply lookup_insert_ne; congruence).
  split; [exact Hlookup|].
  unfold before_choose_candidate. rewrite Hlookup.
  split; [reflexivity|]. intros ->. reflexivity.
Qed.

Lemma tasks_are_isolated_witness :
  let self := sample_plugin (use_match_text sample_patterns) false false in
  let tasks' :=
    fst (import_task_start_listener self ∅ 1
           (fun _ => text_file []) "/music/album" [] sample_likelies
           [sample_item]) in
  2 <> 1
  /\ before_choose_candidate plain (fun _ => text "origin.txt") self tasks' 2
     = {| emitted := []; raised := Some KeyError |}
  /\ raised (before_choose_candidate plain (fun _ => text "origin.txt") self
               tasks' 1) = None.
Proof.
  cbv zeta. split; [discriminate|]. split; [|reflexivity].
  apply (tasks_are_isolated plain (fun _ => text "origin.txt")
           (sample_plugin (use_match_text sample_patterns) false false)
           ∅ 1 2 (fun _ => text_file []) "/music/album" [] sample_likelies
           [sample_item]); [discriminate | reflexivity].
Defined.

(** ** The year, from a document integer to the item *)






(** ** [__init__] *)

Lemma key_of_name_spec (key : string) (k : FieldKey) :
  key_of_name key = Some k <-> key_name k = key.
Proof.
  split.
  - unfold key_of_name.
    destruct (find _ BEETS_TO_LABEL) as [[k' l]|] eqn:Hfind;
      [|discriminate].
    simpl. intros H. injection H as <-.
    apply find_some in Hfind as [_ Heq]. simpl in Heq.
    apply String.eqb_eq in Heq. exact Heq.
  - intros <-. destruct k; reflexivity.
Qed.

Lemma dict_set_keys {V : Type} (k : FieldKey) (v : V)
  (d : list (FieldKey * V)) :
  (forall k', In k' (map fst (dict_set k v d)) <-> k' = k \/ In k' (map fst d))
  /\ (List.NoDup (map fst d) -> List.NoDup (map fst (dict_set k v d))).
Proof.
  induction d as [|[k0 v0] d [IHin IHnd]]; simpl.
  - split; [intros k'; split; intros [H | H]; auto; contradiction|].
    intros _. constructor; [intros [] | constructor].
  - destruct (FieldKey_eqb k0 k) eqn:E.
    + apply FieldKey_eqb_eq in E. subst k0. simpl. split; [|auto].
      intros k'. split; [auto|]. intros [-> | H]; [left; reflexivity | exact H].
    + apply FieldKey_eqb_neq in E. simpl. split.
      * intros k'. rewrite IHin. split.
        -- intros [H | [H | H]]; auto.
        -- intros [H | [H | H]]; auto.
      * intros Hnd. inversion Hnd as [|x l Hnot Hnd' Heq]; subst.
        constructor; [|apply IHnd; exact Hnd'].
        rewrite IHin. intros [H | H]; [congruence | contradiction].
Qed.

Section InitFacts.

Variable jsonpath_parse : string -> option JsonPath.
Variable re_compile : string -> option (Regex * nat).

Lemma compile_paths_spec (config_patterns : list (string * string)) :
  forall acc out,
    compile_paths jsonpath_parse config_patterns acc = inr out ->
    (List.NoDup (map fst acc) -> List.NoDup (map fst out))
    /\ (forall k, In k (map fst out)
                  <-> In k (map fst acc)
                      \/ exists pattern, In (key_name k, pattern) config_patterns)
    /\ (forall key pattern,
           In (key, pattern) config_patterns ->
           (exists k, key_of_name key = Some k)
           /\ exists path, jsonpath_parse pattern = Some path).
Proof.
  induction config_patterns as [|[key pattern] rest IH]; intros acc out; simpl.
  - intros H. injection H as <-. split; [auto|]. split.
    + intros k. split; [auto|]. intros [H | [p []]]. exact H.
    + intros key pattern [].
  - destruct (key_of_name key) as [k0|] eqn:Hkey; [|discriminate].
    destruct (jsonpath_parse pattern) as [path|] eqn:Hparse; [|discriminate].
    intros Hout. destruct (IH _ _ Hout) as [Hnd [Hin Hall]].
    destruct (dict_set_keys k0 path acc) as [Hset_in Hset_nd].
    apply key_of_name_spec in Hkey. split; [|split].
    + intros H. apply Hnd, Hset_nd, H.
    + intros k. rewrite Hin, Hset_in. split.
      * intros [[-> | H] | [p Hp]].
        -- right. exists pattern. left. rewrite Hkey. reflexivity.
        -- left. exact H.
        -- right. exists p. right. exact Hp.
      * intros [H | [p [Heq | Hp]]].
        -- left. right. exact H.
        -- injection Heq as Hk _. left. left.
           apply key_name_inj. congruence.
        -- right. exists p. exact Hp.
    + intros key' pattern' [Heq | Hin'].
      * injection Heq as <- <-. split; [|eauto].
        exists k0. apply key_of_name_spec. exact Hkey.
      * apply Hall. exact Hin'.
Qed.

Lemma compile_regexes_spec (config_patterns : list (string * string)) :
  forall acc out,
    compile_regexes re_compile config_patterns acc = inr out ->
    (List.NoDup (map fst acc) -> List.NoDup (map fst out))
    /\ (forall k, In k (map fst out)
                  <-> In k (map fst acc)
                      \/ exists pattern, In (key_name k, pattern) config_patterns)
    /\ (forall key pattern,
           In (key, pattern) config_patterns ->
           (exists k, key_of_name key = Some k)
           /\ exists regex, re_compile pattern = Some (regex, 1)).
Proof.
  induction config_patterns as [|[key pattern] rest IH]; intros acc out; simpl.
  - intros H. injection H as <-. split; [auto|]. split.
    + intros k. split; [auto|]. intros [H | [p []]]. exact H.
    + intros key pattern [].
  - destruct (key_of_name key) as [k0|] eqn:Hkey; [|discriminate].
    destruct (re_compile pattern) as [[regex groups]|] eqn:Hcomp;
      [|discriminate].
    destruct (Nat.eqb groups 1) eqn:Hgroups; [|discriminate].
    apply Nat.eqb_eq in Hgroups. subst groups. simpl.
    intros Hout. destruct (IH _ _ Hout) as [Hnd [Hin Hall]].
    destruct (dict_set_keys k0 regex acc) as [Hset_in Hset_nd].
    apply key_of_name_spec in Hkey. split; [|split].
    + intros H. apply Hnd, Hset_nd, H.
    + intros k. rewrite Hin, Hset_in. split.
      * intros [[-> | H] | [p Hp]].
        -- right. exists pattern. left. rewrite Hkey. reflexivity.
        -- left. exact H.
        -- right. exists p. right. exact Hp.
      * intros [H | [p [Heq | Hp]]].
        -- left. right. exact H.
        -- injection Heq as Hk _. left. left.
           apply key_name_inj. congruence.
        -- right. exists p. exact Hp.
    + intros key' pattern' [Heq | Hin'].
      * injection Heq as <- <-. split; [|eauto].
        exists k0. apply key_of_name_spec. exact Hkey.
      * apply Hall. exact Hin'.
Qed.

(** What a successful compilation of the patterns guarantees. *)
Lemma compile_patterns_spec (origin_type : string)
  (config_patterns : list (string * string)) (fn : MatchFn) :
  compile_patterns jsonpath_parse re_compile origin_type config_patterns
  = inr fn ->
  method_of fn = choose_match_fn origin_type
  /\ List.NoDup (pattern_keys fn)
  /\ (forall k, In k (pattern_keys fn)
                <-> exists pattern, In (key_name k, pattern) config_patterns)
  /\ (forall key pattern,
         In (key, pattern) config_patterns ->
         (exists k, key_of_name key = Some k)
         /\ (method_of fn = match_text_m ->
             exists regex, re_compile pattern = Some (regex, 1))
         /\ (method_of fn <> match_text_m ->
             exists path, jsonpath_parse pattern = Some path)).
Proof.
  unfold compile_patterns.
  destruct (choose_match_fn origin_type).
  - destruct (compile_paths jsonpath_parse config_patterns [])
      as [e|paths] eqn:Hc; [discriminate|].
    intros H. injection H as <-.
    destruct (compile_paths_spec _ _ _ Hc) as [Hnd [Hin Hall]].
    split; [reflexivity|]. split; [apply Hnd; constructor|]. split.
    + intros k. simpl. rewrite Hin. simpl. tauto.
    + intros key pattern Hp. destruct (Hall key pattern Hp) as [Hk Hpath].
      split; [exact Hk|]. split; [discriminate | intros _; exact Hpath].
  - destruct (compile_paths jsonpath_parse config_patterns [])
      as [e|paths] eqn:Hc; [discriminate|].
    intros H. injection H as <-.
    destruct (compile_paths_spec _ _ _ Hc) as [Hnd [Hin Hall]].
    split; [reflexivity|]. split; [apply Hnd; constructor|]. split.
    + intros k. simpl. rewrite Hin. simpl. tauto.
    + intros key pattern Hp. destruct (Hall key pattern Hp) as [Hk Hpath].
      split; [exact Hk|]. split; [discriminate | intros _; exact Hpath].
  - destruct (compile_regexes re_compile config_patterns [])
      as [e|regexes] eqn:Hc; [discriminate|].
    intros H. injection H as <-.
    destruct (compile_regexes_spec _ _ _ Hc) as [Hnd [Hin Hall]].
    split; [reflexivity|]. split; [apply Hnd; constructor|]. split.
    + intros k. simpl. rewrite Hin. simpl. tauto.
    + intros key pattern Hp. destruct (Hall key pattern Hp) as [Hk Hre].
      split; [exact Hk|]. split; [intros _; exact Hre|].
      intros H. contradiction H. reflexivity.
Qed.

End InitFacts.

Lemma first_extra_tags_supported (lookup : string -> option (list string))
  (source : string) (tags : list string) :
  first_extra_tags SUPPORTED_METADATA_SOURCES lookup = Some (source, tags) ->
  tags <> []
  /\ (lookup "musicbrainz" = Some tags
      \/ ((lookup "musicbrainz" = None \/ lookup "musicbrainz" = Some [])
          /\ lookup "discogs" = Some tags)).
Proof.
  unfold SUPPORTED_METADATA_SOURCES. simpl.
  destruct (lookup "musicbrainz") as [[|t ts]|] eqn:Hmb.
  - destruct (lookup "discogs") as [[|t ts]|]; try discriminate.
    intros H. injection H as _ <-. split; [discriminate|]. right. auto.
  - intros H. injection H as _ <-. split; [discriminate|]. left. reflexivity.
  - destruct (lookup "discogs") as [[|t ts]|]; try discriminate.
    intros H. injection H as _ <-. split; [discriminate|]. right. auto.
Qed.

(** X11.  When [__init__] enables the plugin, the object it built is sound:
    its extra tags are a non-empty list taken from the first supported
    source that has one ([musicbrainz] before [discogs]); its matching
    method is the one the origin type selects; it holds exactly one
    compiled pattern for each configured key and no other, every
    configured key being a known field; every text pattern has exactly
    one group; and the two options default to false. *)
Theorem init_enabled_sound (jsonpath_parse : string -> option JsonPath)
  (re_compile : string -> option (Regex * nat)) (cfg : Config)
  (self : OriginQuery) :
  init jsonpath_parse re_compile cfg = Enabled self ->
  extra_tags self <> []
  /\ (cfg_extra_tags cfg "musicbrainz" = Some (extra_tags self)
      \/ ((cfg_extra_tags cfg "musicbrainz" = None
           \/ cfg_extra_tags cfg "musicbrainz" = Some [])
          /\ cfg_extra_tags cfg "discogs" = Some (extra_tags self)))
  /\ cfg_origin_file cfg = Some (origin_file self)
  /\ init_match_fn (cfg_origin_type cfg) (path_name (origin_file self))
     = Some (method_of (match_fn self))
  /\ List.NoDup (pattern_keys (match_fn self))
  /\ (exists config_patterns,
         cfg_tag_patterns cfg = Some config_patterns
         /\ (forall k, In k (pattern_keys (match_fn self))
                       <-> exists pattern,
                             In (key_name k, pattern) config_patterns)
         /\ forall key pattern,
              In (key, pattern) config_patterns ->
              (exists k, key_of_name key = Some k)
              /\ (method_of (match_fn self) = match_text_m ->
                  exists regex, re_compile pattern = Some (regex, 1))
              /\ (method_of (match_fn self) <> match_text_m ->
                  exists path, jsonpath_parse pattern = Some path))
  /\ use_origin_on_conflict self
     = default false (cfg_use_origin_on_conflict cfg)
  /\ preserve_media_with_catalognum self
     = default false (cfg_preserve_media_with_catalognum cfg).
Proof.
  unfold init.
  destruct (first_extra_tags SUPPORTED_METADATA_SOURCES (cfg_extra_tags cfg))
    as [[source tags]|] eqn:Htags; [|discriminate].
  destruct (cfg_tag_patterns cfg) as [config_patterns|]; [|discriminate].
  destruct (cfg_origin_file cfg) as [file|]; [|discriminate].
  destruct (resolve_origin_type (cfg_origin_type cfg) (path_name file))
    as [origin_type|] eqn:Htype; [|discriminate].
  destruct (compile_patterns jsonpath_parse re_compile origin_type
              config_patterns) as [e|fn] eqn:Hcompile; [discriminate|].
  intros H. injection H as <-. simpl.
  destruct (first_extra_tags_supported _ _ _ Htags) as [Hne Hsrc].
  destruct (compile_patterns_spec _ _ _ _ _ Hcompile)
    as [Hmethod [Hnd [Hkeys Hall]]].
  split; [exact Hne|]. split; [exact Hsrc|]. split; [reflexivity|].
  split; [unfold init_match_fn; rewrite Htype, Hmethod; reflexivity|].
  split; [exact Hnd|]. split; [|split; reflexivity].
  exists config_patterns. split; [reflexivity|]. split; assumption.
Qed.

Lemma init_enabled_sound_witness :
  exists self,
    init sample_jsonpath_parse sample_re_compile sample_config = Enabled self
    /\ extra_tags self = ["year"; "catalognum"]
    /\ pattern_keys (match_fn self) = [catalognum; year]
    /\ method_of (match_fn self) = match_text_m
    /\ List.NoDup (pattern_keys (match_fn self))
    /\ use_origin_on_conflict self = false
    /\ preserve_media_with_catalognum self = true.
Proof.
  eexists. split; [reflexivity|].
  destruct (init_enabled_sound sample_jsonpath_parse sample_re_compile
              sample_config _ eq_refl)
    as [_ [_ [_ [_ [Hnd [_ [Hconflict Hpreserve]]]]]]].
  split; [reflexivity|]. split; [reflexivity|]. split; [reflexivity|].
  split; [exact Hnd|]. split; [exact Hconflict | exact Hpreserve].
Defined.

(** X12.  [__init__] never enables the plugin when no supported source has
    a non-empty list of extra tags (it reports that, whatever else is
    configured), nor when some key of [tag_patterns] is not a known
    field. *)
Theorem init_never_enabled (jsonpath_parse : string -> option JsonPath)
  (re_compile : string -> option (Regex * nat)) (cfg : Config) :
  ((forall source,
       cfg_extra_tags cfg source = None \/ cfg_extra_tags cfg source = Some []) ->
   init jsonpath_parse re_compile cfg = Disabled NoExtraTags)
  /\ (forall config_patterns key pattern,
         cfg_tag_patterns cfg = Some config_patterns ->
         In (key, pattern) config_patterns ->
         key_of_name key = None ->
         forall self, init jsonpath_parse re_compile cfg <> Enabled self).
Proof.
  split.
  - intros Hnone. unfold init, SUPPORTED_METADATA_SOURCES. simpl.
    destruct (Hnone "musicbrainz") as [-> | ->];
      destruct (Hnone "discogs") as [-> | ->]; reflexivity.
  - intros config_patterns key pattern Hcfg Hin Hkey self. unfold init.
    rewrite Hcfg.
    destruct (first_extra_tags SUPPORTED_METADATA_SOURCES (cfg_extra_tags cfg))
      as [[source tags]|]; [|discriminate].
    destruct (cfg_origin_file cfg) as [file|]; [|discriminate].
    destruct (resolve_origin_type (cfg_origin_type cfg) (path_name file))
      as [origin_type|]; [|discriminate].
    destruct (compile_patterns jsonpath_parse re_compile origin_type
                config_patterns) as [e|fn] eqn:Hcompile; [discriminate|].
    destruct (compile_patterns_spec _ _ _ _ _ Hcompile)
      as [_ [_ [_ Hall]]].
    destruct (Hall key pattern Hin) as [[k Hk] _]. congruence.
Qed.
(** X13.  When the extra tags, [tag_patterns] and [origin_file] are in
    order and [origin_type] is set to a string other than [yaml], [json]
    and [text] (upper-case spellings included), [__init__] does not disable
    the plugin: the [ConfigValueError] of [as_choice] escapes from it,
    whatever the patterns are. *)
Theorem init_raises (jsonpath_parse : string -> option JsonPath)
  (re_compile : string -> option (Regex * nat)) (cfg : Config) (v : string) :
  first_extra_tags SUPPORTED_METADATA_SOURCES (cfg_extra_tags cfg) <> None ->
  cfg_tag_patterns cfg <> None ->
  cfg_origin_file cfg <> None ->
  cfg_origin_type cfg = Some v ->
  v <> "yaml" -> v <> "json" -> v <> "text" ->
  init jsonpath_parse re_compile cfg = InitRaised.
Proof.
  intros Htags Hpats Hfile Htype Hy Hj Ht. unfold init.
  destruct (first_extra_tags SUPPORTED_METADATA_SOURCES (cfg_extra_tags cfg))
    as [[source tags]|]; [|contradiction].
  destruct (cfg_tag_patterns cfg) as [config_patterns|]; [|contradiction].
  destruct (cfg_origin_file cfg) as [file|]; [|contradiction].
  rewrite Htype. unfold resolve_origin_type, as_choice, str_in.
  apply String.eqb_neq in Hy, Hj, Ht.
  cbn [existsb]. rewrite Hy, Hj, Ht. reflexivity.
Qed.

Lemma init_raises_witness :
  let cfg :=
    {| cfg_extra_tags := cfg_extra_tags sample_config;
       cfg_tag_patterns := cfg_tag_patterns sample_config;
       cfg_origin_file := Some "origin.yaml";
       cfg_origin_type := Some "YAML";
       cfg_use_origin_on_conflict := None;
       cfg_preserve_media_with_catalognum := None |} in
  (first_extra_tags SUPPORTED_METADATA_SOURCES (cfg_extra_tags cfg)
   = Some ("discogs", ["year"; "catalognum"])
   /\ cfg_origin_type cfg = Some "YAML")
  /\ init sample_jsonpath_parse sample_re_compile cfg = InitRaised.
Proof.
  cbv zeta. split; [split; reflexivity|].
  apply (init_raises sample_jsonpath_parse sample_re_compile _ "YAML");
    first [reflexivity | discriminate].
Defined.

(** ** The name of the origin file *)

Lemma split_string_nonempty (sep : ascii -> bool) (s : string) :
  split_string sep s <> [].
Proof.
  destruct s as [|c s]; simpl; [discriminate|].
  destruct (sep c); [discriminate|].
  destruct (split_string sep s); discriminate.
Qed.

Lemma split_string_no_sep (sep : ascii -> bool) (s : string) :
  all_ascii (fun c => negb (sep c)) s = true -> split_string sep s = [s].
Proof.
  induction s as [|c s IH]; [reflexivity|].
  simpl. intros H. apply andb_prop in H as [Hc Hs].
  apply negb_true_iff in Hc. rewrite Hc, (IH Hs). reflexivity.
Qed.

Lemma split_string_at_sep (sep : ascii -> bool) (a b : string) (c : ascii) :
  sep c = true ->
  split_string sep (a +:+ String c b) = (split_string sep a ++ split_string sep b)%list.
Proof.
  intros Hc. induction a as [|d a IH].
  - change (split_string sep (String c b)
            = (split_string sep EmptyString ++ split_string sep b)%list).
    simpl. rewrite Hc. reflexivity.
  - change (split_string sep (String d (a +:+ String c b))
            = (split_string sep (String d a) ++ split_string sep b)%list).
    simpl. rewrite IH. destruct (sep d); [reflexivity|].
    destruct (split_string sep a) as [|seg rest] eqn:Ha; [|reflexivity].
    exfalso. exact (split_string_nonempty sep a Ha).
Qed.

(** X17.  Only the final component of [origin_file] decides the matcher
    that is inferred: for a file name that holds no slash and is neither
    empty nor a single dot, the directory put in front of it plays no
    role. *)
Theorem directory_is_ignored (dir name : string) :
  all_ascii (fun c => negb (Ascii.eqb c "/")) name = true ->
  name <> EmptyString -> name <> "." ->
  path_name (dir +:+ String "/" name) = name
  /\ path_name name = name
  /\ init_match_fn None (path_name (dir +:+ String "/" name))
     = init_match_fn None name.
Proof.
  intros Hslash Hne Hdot.
  assert (Hkeep : (negb (String.eqb name EmptyString)
                   && negb (String.eqb name ".")) = true).
  { apply String.eqb_neq in Hne, Hdot. rewrite Hne, Hdot. reflexivity. }
  assert (H1 : path_name (dir +:+ String "/" name) = name).
  { unfold path_name.
    rewrite (split_string_at_sep (fun c => Ascii.eqb c "/") dir name "/" eq_refl).
    rewrite (split_string_no_sep (fun c => Ascii.eqb c "/") name Hslash).
    rewrite List.filter_app. simpl List.filter. rewrite Hkeep.
    apply last_last. }
  assert (H2 : path_name name = name).
  { unfold path_name.
    rewrite (split_string_no_sep (fun c => Ascii.eqb c "/") name Hslash).
    simpl. rewrite Hkeep. reflexivity. }
  split; [exact H1|]. split; [exact H2|]. rewrite H1. reflexivity.
Qed.

Lemma directory_is_ignored_witness :
  path_name "releases/2004/origin.json" = "origin.json"
  /\ init_match_fn None (path_name "releases/2004/origin.json")
     = Some match_json_m.
Proof.
  destruct (directory_is_ignored "releases/2004" "origin.json"
              eq_refl ltac:(discriminate) ltac:(discriminate))
    as [Hname [_ Hfn]].
  split; [exact Hname | exact Hfn].
Defined.
(** ** Sanity checks of the matchers, the report and [__init__] *)

(** A line indented with a no-break space and ended by a next-line
    character matches as the bare line does. *)
Example match_text_ex :
  match_text [(media, prefix_pattern "Media: ")]
    [ [160%N] ++ "Media: CD" ++ [133%N]; "Media: Vinyl" ++ newline ]
  = [ (media, text "CD"); (media, text "Vinyl") ].
Proof. reflexivity. Qed.

Example escape_braces_ex : escape_braces "a{b}}" = "a{{b}}}}".
Proof. reflexivity. Qed.

Example format_plain_ex :
  format_plain "a{{b}}" = Some (text "a{b}") /\ format_plain "a{b}" = None.
Proof. split; reflexivity. Qed.

Example path_name_ex :
  path_name "a//b/./origin.yaml/" = "origin.yaml"
  /\ path_name "." = EmptyString
  /\ path_name "../.." = "..".
Proof. repeat split. Qed.

Example ljust_ex : ljust "ab" 4 = "ab  " /\ ljust "abcde" 4 = "abcde".
Proof. split; reflexivity. Qed.

Example table_lines_ex :
  let tc : TagCompare := fun k =>
    match k with
    | catalognum => {| tagged := "ABC-1"; active := true; origin := "abc1" |}
    | _ => {| tagged := []; active := false; origin := [] |}
    end in
  option_map (map (@length N)) (table_lines plain (tc_items tc) false)
  = Some [46; 46; 46; 46; 46]
  /\ option_map (fun l => nth 3 l [])
       (table_lines plain (tc_items tc) false)
     = Some (row "Catalog number" "ABC-1      " "abc1       ").
Proof. split; reflexivity. Qed.

Example init_ex :
  init sample_jsonpath_parse sample_re_compile
    {| cfg_extra_tags := cfg_extra_tags sample_config;
       cfg_tag_patterns := Some [("barcode", "Barcode: ")];
       cfg_origin_file := Some "origin.txt";
       cfg_origin_type := None;
       cfg_use_origin_on_conflict := None;
       cfg_preserve_media_with_catalognum := None |}
  = Disabled (UnknownKey "barcode").
Proof. reflexivity. Qed.
